(** * JOS kernel core: system calls and the page-fault upcall

    A shallow embedding of [kern/syscall.c] and of [page_fault_handler]
    (both delivered in [src/kern/trap.c]) over an explicit kernel state.

    Machine integers are [Z]; where the C code relies on 32-bit unsigned
    arithmetic the wrap-around is written out with [wrap32].  Bit operations
    are [Z.land], [Z.lor], [Z.lnot].

    The headers ([inc/mmu.h], [inc/memlayout.h], [inc/error.h], [inc/env.h],
    [inc/trap.h]) are not part of the sources: their constants are the fields
    of the class [Headers], and every theorem holds for all values of them
    that satisfy the hypotheses it lists.  [jos_headers] instantiates the
    class with the values of the JOS headers and is used to run the code on
    concrete inputs. *)

From Stdlib Require Import ZArith Lia Bool List.
From stdpp Require Import base option list gmap.

Local Open Scope Z_scope.

(** ** Machine integers *)

Definition wrap32 (x : Z) : Z := x mod 2 ^ 32.

(** ** Constants and macros of the missing headers *)

Class Headers := {
  (* inc/mmu.h *)
  PGSHIFT : Z;
  PTXSHIFT : Z;
  PDXSHIFT : Z;
  NPTENTRIES : Z;
  PTE_P : Z;
  PTE_W : Z;
  PTE_U : Z;
  PTE_SYSCALL : Z;
  FL_IF : Z;
  FL_IOPL_MASK : Z;
  (* inc/memlayout.h *)
  UTOP : Z;
  UXSTACKTOP : Z;
  USTACKTOP : Z;
  GD_UT : Z;
  GD_UD : Z;
  (* inc/error.h *)
  E_BAD_ENV : Z;
  E_INVAL : Z;
  E_NO_MEM : Z;
  E_NO_FREE_ENV : Z;
  E_FAULT : Z;
  E_IPC_NOT_RECV : Z;
  (* inc/env.h: the slot of an identifier, and the identifier given to a
     slot when it is allocated again (previous identifier, slot) *)
  ENVX : Z -> Z;
  mkenvid : Z -> Z -> Z
}.

(** The values of the JOS headers. *)
Definition jos_headers : Headers := {|
  PGSHIFT := 12;
  PTXSHIFT := 12;
  PDXSHIFT := 22;
  NPTENTRIES := 1024;
  PTE_P := 0x001;
  PTE_W := 0x002;
  PTE_U := 0x004;
  PTE_SYSCALL := 0xE07;
  FL_IF := 0x200;
  FL_IOPL_MASK := 0x3000;
  UTOP := 0xeec00000;
  UXSTACKTOP := 0xeec00000;
  USTACKTOP := 0xeebfe000;
  GD_UT := 0x18;
  GD_UD := 0x20;
  E_BAD_ENV := 2;
  E_INVAL := 3;
  E_NO_MEM := 4;
  E_NO_FREE_ENV := 5;
  E_FAULT := 6;
  E_IPC_NOT_RECV := 7;
  ENVX := fun envid => Z.land envid 1023;
  mkenvid := fun old slot =>
    let generation := Z.land (old + 4096) (Z.lnot 1023) in
    Z.lor (if generation <=? 0 then 4096 else generation) slot
|}.

Section Kernel.

Context `{HD : Headers}.

Definition PGSIZE : Z := 2 ^ PGSHIFT.
Definition PGOFF (la : Z) : Z := Z.land la (PGSIZE - 1).
Definition PDX (la : Z) : Z := Z.land (Z.shiftr la PDXSHIFT) (NPTENTRIES - 1).
Definition PTX (la : Z) : Z := Z.land (Z.shiftr la PTXSHIFT) (NPTENTRIES - 1).
Definition PTE_ADDR (pte : Z) : Z := Z.land pte (Z.lnot (PGSIZE - 1)).

(** ** Data model *)

(** [struct PushRegs], in the order [pushal] stores the registers
    ([print_regs] reads them in this order). *)
Record PushRegs := mkPushRegs {
  reg_edi : Z;
  reg_esi : Z;
  reg_ebp : Z;
  reg_oesp : Z;
  reg_ebx : Z;
  reg_edx : Z;
  reg_ecx : Z;
  reg_eax : Z
}.

(** [struct Trapframe], in the order [_alltraps] and the hardware build it:
    the 16-bit selectors are pushed as 32-bit words, the upper halves are the
    padding fields. *)
Record Trapframe := mkTrapframe {
  tf_regs : PushRegs;
  tf_es : Z;
  tf_padding1 : Z;
  tf_ds : Z;
  tf_padding2 : Z;
  tf_trapno : Z;
  tf_err : Z;
  tf_eip : Z;
  tf_cs : Z;
  tf_padding3 : Z;
  tf_eflags : Z;
  tf_esp : Z;
  tf_ss : Z;
  tf_padding4 : Z
}.

(** [struct UTrapframe], the record handed to the user page-fault handler. *)
Record UTrapframe := mkUTrapframe {
  utf_fault_va : Z;
  utf_err : Z;
  utf_regs : PushRegs;
  utf_eip : Z;
  utf_eflags : Z;
  utf_esp : Z
}.

Definition sizeof_UTrapframe : Z := 52.
Definition sizeof_Trapframe : Z := 68.

Inductive EnvStatus :=
  | ENV_FREE
  | ENV_DYING
  | ENV_RUNNABLE
  | ENV_RUNNING
  | ENV_NOT_RUNNABLE.

Definition EnvStatus_eqb (a b : EnvStatus) : bool :=
  match a, b with
  | ENV_FREE, ENV_FREE | ENV_DYING, ENV_DYING | ENV_RUNNABLE, ENV_RUNNABLE
  | ENV_RUNNING, ENV_RUNNING | ENV_NOT_RUNNABLE, ENV_NOT_RUNNABLE => true
  | _, _ => false
  end.

(** A page table: the frame that holds it and its entries by [PTX]
    (an entry that was never written reads 0). *)
Record PageTable := mkPageTable {
  pt_frame : Z;
  pt_entries : gmap Z Z
}.

(** An address space: the frame of the page directory and the page tables
    it points to, by [PDX]. *)
Record AddrSpace := mkAddrSpace {
  pd_frame : Z;
  pd_tables : gmap Z PageTable
}.

(** [struct Env].  Pointers ([env_pgfault_upcall], [env_ipc_dstva]) are
    addresses, 0 is NULL; the page directory is held by value, since no two
    environments share one. *)
Record Env := mkEnv {
  env_tf : Trapframe;
  env_id : Z;
  env_parent_id : Z;
  env_status : EnvStatus;
  env_pgdir : AddrSpace;
  env_pgfault_upcall : Z;
  env_ipc_recving : bool;
  env_ipc_dstva : Z;
  env_ipc_value : Z;
  env_ipc_from : Z;
  env_ipc_perm : Z
}.

(** The kernel state.  A [struct Env *] is the index of its slot in [envs],
    a [struct PageInfo *] is the number of its frame. *)
Record KState := mkKState {
  envs : gmap Z Env;
  env_free_list : list Z;
  curenv : Z;
  pages : gmap Z Z;              (* pp_ref of every frame, 0 when absent *)
  page_free_list : list Z;
  physmem : gmap Z (gmap Z Z)    (* frame, offset in the frame, byte; 0 when absent *)
}.

(** Field updates. *)

Definition set_reg_eax (v : Z) (r : PushRegs) : PushRegs :=
  mkPushRegs (reg_edi r) (reg_esi r) (reg_ebp r) (reg_oesp r)
             (reg_ebx r) (reg_edx r) (reg_ecx r) v.

Definition set_tf_regs (r : PushRegs) (t : Trapframe) : Trapframe :=
  mkTrapframe r (tf_es t) (tf_padding1 t) (tf_ds t) (tf_padding2 t)
    (tf_trapno t) (tf_err t) (tf_eip t) (tf_cs t) (tf_padding3 t)
    (tf_eflags t) (tf_esp t) (tf_ss t) (tf_padding4 t).

Definition set_tf_es (v : Z) (t : Trapframe) : Trapframe :=
  mkTrapframe (tf_regs t) v (tf_padding1 t) (tf_ds t) (tf_padding2 t)
    (tf_trapno t) (tf_err t) (tf_eip t) (tf_cs t) (tf_padding3 t)
    (tf_eflags t) (tf_esp t) (tf_ss t) (tf_padding4 t).

Definition set_tf_ds (v : Z) (t : Trapframe) : Trapframe :=
  mkTrapframe (tf_regs t) (tf_es t) (tf_padding1 t) v (tf_padding2 t)
    (tf_trapno t) (tf_err t) (tf_eip t) (tf_cs t) (tf_padding3 t)
    (tf_eflags t) (tf_esp t) (tf_ss t) (tf_padding4 t).

Definition set_tf_eip (v : Z) (t : Trapframe) : Trapframe :=
  mkTrapframe (tf_regs t) (tf_es t) (tf_padding1 t) (tf_ds t) (tf_padding2 t)
    (tf_trapno t) (tf_err t) v (tf_cs t) (tf_padding3 t)
    (tf_eflags t) (tf_esp t) (tf_ss t) (tf_padding4 t).

Definition set_tf_cs (v : Z) (t : Trapframe) : Trapframe :=
  mkTrapframe (tf_regs t) (tf_es t) (tf_padding1 t) (tf_ds t) (tf_padding2 t)
    (tf_trapno t) (tf_err t) (tf_eip t) v (tf_padding3 t)
    (tf_eflags t) (tf_esp t) (tf_ss t) (tf_padding4 t).

Definition set_tf_eflags (v : Z) (t : Trapframe) : Trapframe :=
  mkTrapframe (tf_regs t) (tf_es t) (tf_padding1 t) (tf_ds t) (tf_padding2 t)
    (tf_trapno t) (tf_err t) (tf_eip t) (tf_cs t) (tf_padding3 t)
    v (tf_esp t) (tf_ss t) (tf_padding4 t).

Definition set_tf_esp (v : Z) (t : Trapframe) : Trapframe :=
  mkTrapframe (tf_regs t) (tf_es t) (tf_padding1 t) (tf_ds t) (tf_padding2 t)
    (tf_trapno t) (tf_err t) (tf_eip t) (tf_cs t) (tf_padding3 t)
    (tf_eflags t) v (tf_ss t) (tf_padding4 t).

Definition set_tf_ss (v : Z) (t : Trapframe) : Trapframe :=
  mkTrapframe (tf_regs t) (tf_es t) (tf_padding1 t) (tf_ds t) (tf_padding2 t)
    (tf_trapno t) (tf_err t) (tf_eip t) (tf_cs t) (tf_padding3 t)
    (tf_eflags t) (tf_esp t) v (tf_padding4 t).

Definition set_env_tf (v : Trapframe) (e : Env) : Env :=
  mkEnv v (env_id e) (env_parent_id e) (env_status e) (env_pgdir e)
    (env_pgfault_upcall e) (env_ipc_recving e) (env_ipc_dstva e)
    (env_ipc_value e) (env_ipc_from e) (env_ipc_perm e).

Definition set_env_status (v : EnvStatus) (e : Env) : Env :=
  mkEnv (env_tf e) (env_id e) (env_parent_id e) v (env_pgdir e)
    (env_pgfault_upcall e) (env_ipc_recving e) (env_ipc_dstva e)
    (env_ipc_value e) (env_ipc_from e) (env_ipc_perm e).

Definition set_env_pgdir (v : AddrSpace) (e : Env) : Env :=
  mkEnv (env_tf e) (env_id e) (env_parent_id e) (env_status e) v
    (env_pgfault_upcall e) (env_ipc_recving e) (env_ipc_dstva e)
    (env_ipc_value e) (env_ipc_from e) (env_ipc_perm e).

Definition set_env_ipc_recving (v : bool) (e : Env) : Env :=
  mkEnv (env_tf e) (env_id e) (env_parent_id e) (env_status e) (env_pgdir e)
    (env_pgfault_upcall e) v (env_ipc_dstva e)
    (env_ipc_value e) (env_ipc_from e) (env_ipc_perm e).

Definition set_env_ipc_value (v : Z) (e : Env) : Env :=
  mkEnv (env_tf e) (env_id e) (env_parent_id e) (env_status e) (env_pgdir e)
    (env_pgfault_upcall e) (env_ipc_recving e) (env_ipc_dstva e)
    v (env_ipc_from e) (env_ipc_perm e).

Definition set_env_ipc_from (v : Z) (e : Env) : Env :=
  mkEnv (env_tf e) (env_id e) (env_parent_id e) (env_status e) (env_pgdir e)
    (env_pgfault_upcall e) (env_ipc_recving e) (env_ipc_dstva e)
    (env_ipc_value e) v (env_ipc_perm e).

Definition set_env_ipc_perm (v : Z) (e : Env) : Env :=
  mkEnv (env_tf e) (env_id e) (env_parent_id e) (env_status e) (env_pgdir e)
    (env_pgfault_upcall e) (env_ipc_recving e) (env_ipc_dstva e)
    (env_ipc_value e) (env_ipc_from e) v.

Definition set_envs (v : gmap Z Env) (s : KState) : KState :=
  mkKState v (env_free_list s) (curenv s) (pages s) (page_free_list s) (physmem s).

Definition set_env_free_list (v : list Z) (s : KState) : KState :=
  mkKState (envs s) v (curenv s) (pages s) (page_free_list s) (physmem s).

Definition set_curenv (v : Z) (s : KState) : KState :=
  mkKState (envs s) (env_free_list s) v (pages s) (page_free_list s) (physmem s).

Definition set_pages (v : gmap Z Z) (s : KState) : KState :=
  mkKState (envs s) (env_free_list s) (curenv s) v (page_free_list s) (physmem s).

Definition set_page_free_list (v : list Z) (s : KState) : KState :=
  mkKState (envs s) (env_free_list s) (curenv s) (pages s) v (physmem s).

Definition set_physmem (v : gmap Z (gmap Z Z)) (s : KState) : KState :=
  mkKState (envs s) (env_free_list s) (curenv s) (pages s) (page_free_list s) v.

(** [e->field = ...] for the environment in slot [e]. *)
Definition update_env (e : Z) (f : Env -> Env) (s : KState) : KState :=
  set_envs (alter f e (envs s)) s.

(** ** The kernel monad

    A kernel function reads and writes the kernel state and either returns
    or stops the kernel (a fault on a pointer that points nowhere): [None]. *)

Definition K (A : Type) : Type := KState -> option (A * KState).

Definition ret {A : Type} (a : A) : K A := fun s => Some (a, s).

Definition bind {A B : Type} (m : K A) (f : A -> K B) : K B :=
  fun s => match m s with
           | Some (a, s') => f a s'
           | None => None
           end.

Definition gets {A : Type} (f : KState -> A) : K A := fun s => Some (f s, s).

Definition modify (f : KState -> KState) : K unit := fun s => Some (tt, f s).

Definition panic {A : Type} : K A := fun _ => None.

Notation "x <- c1 ;; c2" := (bind c1 (fun x => c2))
  (at level 100, c1 at next level, right associativity).
Notation "c1 ;;; c2" := (bind c1 (fun _ => c2))
  (at level 100, right associativity).

(** [*e] for an environment pointer. *)
Definition deref (e : Z) : K Env :=
  fun s => match envs s !! e with
           | Some env => Some (env, s)
           | None => None
           end.

(** ** Physical pages (kern/pmap.c) *)

Definition pp_ref (s : KState) (pp : Z) : Z := default 0 (pages s !! pp).
Definition page2pa (pp : Z) : Z := Z.shiftl pp PGSHIFT.
Definition pa2page (pa : Z) : Z := Z.shiftr pa PGSHIFT.

(** Modelled from the spec: [page_alloc] of the absent kern/pmap.c, the
    reference-counted physical page allocator with zeroing option.  It takes
    the first frame of the free list, clears it when asked to, and leaves
    its reference count to the caller; NULL ([None]) when no frame is free. *)
Definition page_alloc (alloc_zero : bool) : K (option Z) :=
  fl <- gets page_free_list ;;
  match fl with
  | [] => ret None
  | pp :: rest =>
      modify (set_page_free_list rest) ;;;
      (if alloc_zero
       then modify (fun s => set_physmem (<[pp := ∅]> (physmem s)) s)
       else ret tt) ;;;
      ret (Some pp)
  end.

(** Modelled from the spec: [page_free] of the absent kern/pmap.c returns a
    frame to the allocator's free list. *)
Definition page_free (pp : Z) : K unit :=
  modify (fun s => set_page_free_list (pp :: page_free_list s) s).

Definition page_incref (pp : Z) : K unit :=
  modify (fun s => set_pages (<[pp := pp_ref s pp + 1]> (pages s)) s).

(** Modelled from the spec: [page_decref] of the absent kern/pmap.c: a
    mapping that goes away decrements the count, and the frame is returned
    to the allocator at zero. *)
Definition page_decref (pp : Z) : K unit :=
  modify (fun s => set_pages (<[pp := pp_ref s pp - 1]> (pages s)) s) ;;;
  r <- gets (fun s => pp_ref s pp) ;;
  if r =? 0 then page_free pp else ret tt.

(** ** Address spaces (kern/pmap.c)

    A page directory is named by the environment that owns it:
    [e->env_pgdir] is the slot [e]. *)

(** The entry for [va], NULL ([None]) when its page table does not exist:
    [pgdir_walk(pgdir, va, 0)] followed by a read. *)
Definition pte_read (pd : AddrSpace) (va : Z) : option Z :=
  match pd_tables pd !! PDX va with
  | Some pt => Some (default 0 (pt_entries pt !! PTX va))
  | None => None
  end.

Definition pte_write (va v : Z) (pd : AddrSpace) : AddrSpace :=
  mkAddrSpace (pd_frame pd)
    (alter (fun pt => mkPageTable (pt_frame pt) (<[PTX va := v]> (pt_entries pt)))
           (PDX va) (pd_tables pd)).

Definition add_pgtable (va pp : Z) (pd : AddrSpace) : AddrSpace :=
  mkAddrSpace (pd_frame pd) (<[PDX va := mkPageTable pp ∅]> (pd_tables pd)).

(** Modelled from the spec: [pgdir_walk(pgdir, va, 1)] of the absent
    kern/pmap.c: the walk that creates the page table of [va] when it does
    not exist, from a zeroed frame whose count it increments; false when no
    frame is free. *)
Definition pgdir_walk_create (e va : Z) : K bool :=
  env <- deref e ;;
  match pd_tables (env_pgdir env) !! PDX va with
  | Some _ => ret true
  | None =>
      r <- page_alloc true ;;
      match r with
      | None => ret false
      | Some pp =>
          page_incref pp ;;;
          modify (update_env e (fun en => set_env_pgdir (add_pgtable va pp (env_pgdir en)) en)) ;;;
          ret true
      end
  end.

(** Modelled from the spec: [page_lookup] of the absent kern/pmap.c, the
    lookup-with-pte of an address space: the frame mapped at [va] and the
    entry that maps it, NULL ([None]) when no page is mapped there. *)
Definition page_lookup (e va : Z) : K (option (Z * Z)) :=
  env <- deref e ;;
  match pte_read (env_pgdir env) va with
  | Some pte =>
      if Z.land pte PTE_P =? 0 then ret None
      else ret (Some (pa2page (PTE_ADDR pte), pte))
  | None => ret None
  end.

(** Modelled from the spec: [page_remove] of the absent kern/pmap.c:
    unmapping an unmapped address silently succeeds; otherwise the frame's
    count is decremented and the entry cleared. *)
Definition page_remove (e va : Z) : K unit :=
  r <- page_lookup e va ;;
  match r with
  | None => ret tt
  | Some (pp, _) =>
      page_decref pp ;;;
      modify (update_env e (fun en => set_env_pgdir (pte_write va 0 (env_pgdir en)) en))
  end.

(** Modelled from the spec: [page_insert] of the absent kern/pmap.c: installs
    the frame [pp] at [va] with permission [perm | PTE_P], incrementing its
    count; a page already mapped at [va] is unmapped; fails with [-E_NO_MEM]
    when a page table is needed and cannot be allocated. *)
Definition page_insert (e pp va perm : Z) : K Z :=
  ok <- pgdir_walk_create e va ;;
  if negb ok then ret (- E_NO_MEM)
  else
    page_incref pp ;;;
    page_remove e va ;;;
    modify (update_env e (fun en =>
      set_env_pgdir (pte_write va (Z.lor (Z.lor (page2pa pp) perm) PTE_P) (env_pgdir en)) en)) ;;;
    ret 0.

(** ** Environments (kern/env.c) *)

(** [e->field = ...]. *)
Definition env_modify (e : Z) (f : Env -> Env) : K unit := modify (update_env e f).

(** Modelled from the spec: [envid2env] of the absent kern/env.c, the lookup
    by identifier with caller-permission check.  It returns the result code
    and the environment: [-E_BAD_ENV] when the identifier cannot be resolved
    (free slot, or a slot that now holds another identifier) or, with
    [checkperm], when the environment is neither the caller nor a direct
    child of the caller.  Identifier 0 names the caller, as the callers in
    the sources ([sys_page_alloc(0, ...)]) rely on. *)
Definition envid2env (envid : Z) (checkperm : bool) : K (Z * Z) :=
  cur <- gets curenv ;;
  if envid =? 0 then ret (0, cur)
  else
    slot <- gets (fun s => envs s !! ENVX envid) ;;
    match slot with
    | None => ret (- E_BAD_ENV, 0)
    | Some env =>
        if EnvStatus_eqb (env_status env) ENV_FREE || negb (env_id env =? envid)
        then ret (- E_BAD_ENV, 0)
        else if checkperm && negb (ENVX envid =? cur)
        then
          c <- deref cur ;;
          if negb (env_parent_id env =? env_id c)
          then ret (- E_BAD_ENV, 0)
          else ret (0, ENVX envid)
        else ret (0, ENVX envid)
    end.

(** The frame a new environment starts from: user segments with RPL 3,
    interrupts enabled, the stack pointer at the top of the user stack. *)
Definition initial_tf : Trapframe :=
  mkTrapframe (mkPushRegs 0 0 0 0 0 0 0 0)
    (Z.lor GD_UD 3) 0 (Z.lor GD_UD 3) 0 0 0 0 (Z.lor GD_UT 3) 0
    FL_IF USTACKTOP (Z.lor GD_UD 3) 0.

(** Modelled from the spec: [env_alloc] of the absent kern/env.c, the
    allocation of the environment store.  It takes the first free slot
    ([-E_NO_FREE_ENV] when there is none), gives it a page directory
    ([-E_NO_MEM] when no frame is free), a new identifier and the parent's
    identifier, and returns the result code and the environment. *)
Definition env_alloc (parent_id : Z) : K (Z * Z) :=
  fl <- gets env_free_list ;;
  match fl with
  | [] => ret (- E_NO_FREE_ENV, 0)
  | e :: rest =>
      p <- page_alloc true ;;
      match p with
      | None => ret (- E_NO_MEM, 0)
      | Some pp =>
          page_incref pp ;;;
          old <- deref e ;;
          modify (fun s => set_envs (<[e :=
            mkEnv initial_tf (mkenvid (env_id old) e) parent_id ENV_RUNNABLE
              (mkAddrSpace pp ∅) 0 false (env_ipc_dstva old)
              (env_ipc_value old) (env_ipc_from old) (env_ipc_perm old)]>
            (envs s)) s) ;;;
          modify (set_env_free_list rest) ;;;
          ret (0, e)
      end
  end.

(** The collaborator calls that do not return to their caller; the kernel
    state at the call is the state the monad carries. *)
Inductive NoReturn :=
  | env_run (e : Z)
  | env_destroy (e : Z).

(** ** User memory *)

Definition pte_allows (perm : Z) (pd : AddrSpace) (a : Z) : bool :=
  match pte_read pd a with
  | Some pte => Z.land pte (Z.lor perm PTE_P) =? Z.lor perm PTE_P
  | None => false
  end.

(** Modelled from the spec: [user_mem_check] of the absent kern/pmap.c
    validates that the range [va, va+len) is mapped with permission
    [perm | PTE_P] in the address space of [e]; [-E_FAULT] otherwise. *)
Definition user_mem_check (e va len perm : Z) : K Z :=
  env <- deref e ;;
  if (0 <=? va) && (va + len <=? 2 ^ 32)
     && forallb (fun i => pte_allows perm (env_pgdir env) (va + i)) (seqZ 0 len)
  then ret 0
  else ret (- E_FAULT).

(** The kernel reads and writes user memory through the page directory of
    the current environment; an access to an address that is not mapped
    there is a page fault in kernel mode. *)
Definition va2pa (va : Z) : K (Z * Z) :=
  cur <- gets curenv ;;
  r <- page_lookup cur va ;;
  match r with
  | None => panic
  | Some (pp, _) => ret (pp, PGOFF va)
  end.

Definition frame_byte (s : KState) (pp off : Z) : Z :=
  match physmem s !! pp with
  | Some fr => default 0 (fr !! off)
  | None => 0
  end.

Definition load_byte (va : Z) : K Z :=
  pa <- va2pa va ;;
  gets (fun s => frame_byte s (fst pa) (snd pa)).

Definition store_byte (va b : Z) : K unit :=
  pa <- va2pa va ;;
  modify (fun s => set_physmem
    (<[fst pa := <[snd pa := b]> (default ∅ (physmem s !! fst pa))]> (physmem s)) s).

Fixpoint load_bytes (va : Z) (n : nat) : K (list Z) :=
  match n with
  | O => ret []
  | S n' => b <- load_byte va ;; bs <- load_bytes (va + 1) n' ;; ret (b :: bs)
  end.

Fixpoint store_bytes (va : Z) (bs : list Z) : K unit :=
  match bs with
  | [] => ret tt
  | b :: bs' => store_byte va b ;;; store_bytes (va + 1) bs'
  end.

(** Little-endian layout of integers. *)
Definition le_decode (bs : list Z) : Z := foldr (fun b acc => b + 256 * acc) 0 bs.

Fixpoint le_encode (n : nat) (w : Z) : list Z :=
  match n with
  | O => []
  | S n' => w mod 256 :: le_encode n' (w / 256)
  end.

Definition field (bs : list Z) (off len : nat) : Z := le_decode (take len (drop off bs)).

Definition Trapframe_of_bytes (bs : list Z) : Trapframe :=
  mkTrapframe
    (mkPushRegs (field bs 0 4) (field bs 4 4) (field bs 8 4) (field bs 12 4)
                (field bs 16 4) (field bs 20 4) (field bs 24 4) (field bs 28 4))
    (field bs 32 2) (field bs 34 2) (field bs 36 2) (field bs 38 2)
    (field bs 40 4) (field bs 44 4) (field bs 48 4)
    (field bs 52 2) (field bs 54 2) (field bs 56 4) (field bs 60 4)
    (field bs 64 2) (field bs 66 2).

Definition bytes_of_PushRegs (r : PushRegs) : list Z :=
  le_encode 4 (reg_edi r) ++ le_encode 4 (reg_esi r) ++ le_encode 4 (reg_ebp r)
  ++ le_encode 4 (reg_oesp r) ++ le_encode 4 (reg_ebx r) ++ le_encode 4 (reg_edx r)
  ++ le_encode 4 (reg_ecx r) ++ le_encode 4 (reg_eax r).

Definition bytes_of_UTrapframe (u : UTrapframe) : list Z :=
  le_encode 4 (utf_fault_va u) ++ le_encode 4 (utf_err u)
  ++ bytes_of_PushRegs (utf_regs u)
  ++ le_encode 4 (utf_eip u) ++ le_encode 4 (utf_eflags u) ++ le_encode 4 (utf_esp u).

(** Modelled from the spec: [user_mem_assert] of the absent kern/pmap.c:
    the check of [user_mem_check]; on failure the environment is destroyed
    and the call does not return. *)
Definition user_mem_assert (e va len perm : Z) : K (option NoReturn) :=
  r <- user_mem_check e va len perm ;;
  if r <? 0 then ret (Some (env_destroy e)) else ret None.

(** ** kern/trap.c: the page-fault upcall

    [trap] has copied the trap frame into [curenv->env_tf] and [tf] points
    there; [fault_va] is the value read from [%cr2].  Console output is not
    modelled. *)
Definition page_fault_handler (fault_va : Z) : K NoReturn :=
  cur <- gets curenv ;;
  c <- deref cur ;;
  let tf := env_tf c in
  if Z.land (tf_cs tf) 3 =? 0 then panic
  else if negb (env_pgfault_upcall c =? 0) then
    let utf := mkUTrapframe fault_va (tf_err tf) (tf_regs tf)
                 (tf_eip tf) (tf_eflags tf) (tf_esp tf) in
    (if (UXSTACKTOP - PGSIZE <=? tf_esp tf) && (tf_esp tf <? UXSTACKTOP)
     then env_modify cur (fun en =>
            set_env_tf (set_tf_esp (wrap32 (tf_esp (env_tf en) - 4)) (env_tf en)) en)
     else env_modify cur (fun en =>
            set_env_tf (set_tf_esp UXSTACKTOP (env_tf en)) en)) ;;;
    env_modify cur (fun en =>
      set_env_tf (set_tf_esp (wrap32 (tf_esp (env_tf en) - sizeof_UTrapframe))
                             (env_tf en)) en) ;;;
    c1 <- deref cur ;;
    a <- user_mem_assert cur (tf_esp (env_tf c1)) sizeof_UTrapframe
           (Z.lor (Z.lor PTE_U PTE_W) PTE_P) ;;
    match a with
    | Some stop => ret stop
    | None =>
        store_bytes (tf_esp (env_tf c1)) (bytes_of_UTrapframe utf) ;;;
        env_modify cur (fun en =>
          set_env_tf (set_tf_eip (env_pgfault_upcall en) (env_tf en)) en) ;;;
        ret (env_run cur)
    end
  else ret (env_destroy cur).

(** ** kern/syscall.c *)

Definition sys_exofork : K Z :=
  cur <- gets curenv ;;
  c <- deref cur ;;
  r <- env_alloc (env_id c) ;;
  if fst r <? 0 then ret (fst r)
  else
    let e := snd r in
    env_modify e (set_env_status ENV_NOT_RUNNABLE) ;;;
    c' <- deref cur ;;
    env_modify e (set_env_tf (env_tf c')) ;;;
    env_modify e (fun en => set_env_tf (set_tf_regs (set_reg_eax 0 (tf_regs (env_tf en))) (env_tf en)) en) ;;;
    en <- deref e ;;
    ret (env_id en).

Definition sys_env_set_trapframe (envid tf : Z) : K Z :=
  r <- envid2env envid true ;;
  if fst r <? 0 then ret (fst r)
  else
    let e := snd r in
    r2 <- user_mem_check e tf sizeof_Trapframe PTE_U ;;
    if r2 <? 0 then ret r2
    else
      bs <- load_bytes tf (Z.to_nat sizeof_Trapframe) ;;
      env_modify e (set_env_tf (Trapframe_of_bytes bs)) ;;;
      env_modify e (fun en => set_env_tf (set_tf_ds (Z.lor GD_UD 3) (env_tf en)) en) ;;;
      env_modify e (fun en => set_env_tf (set_tf_es (Z.lor GD_UD 3) (env_tf en)) en) ;;;
      env_modify e (fun en => set_env_tf (set_tf_ss (Z.lor GD_UD 3) (env_tf en)) en) ;;;
      env_modify e (fun en => set_env_tf (set_tf_cs (Z.lor GD_UT 3) (env_tf en)) en) ;;;
      env_modify e (fun en => set_env_tf
        (set_tf_eflags (Z.lor (tf_eflags (env_tf en)) FL_IF) (env_tf en)) en) ;;;
      env_modify e (fun en => set_env_tf
        (set_tf_eflags (Z.land (tf_eflags (env_tf en)) (Z.lnot FL_IOPL_MASK)) (env_tf en)) en) ;;;
      ret 0.

Definition sys_page_alloc (envid va perm : Z) : K Z :=
  r <- envid2env envid true ;;
  if fst r <? 0 then ret (fst r)
  else
    let e := snd r in
    if (UTOP <=? va) || negb (PGOFF va =? 0) then ret (- E_INVAL)
    else if negb (Z.land perm (Z.lor PTE_U PTE_P) =? Z.lor PTE_U PTE_P)
            || negb (Z.land perm (Z.lnot PTE_SYSCALL) =? 0)
    then ret (- E_INVAL)
    else
      p <- page_alloc true ;;
      match p with
      | None => ret (- E_NO_MEM)
      | Some pp =>
          r2 <- page_insert e pp va perm ;;
          if r2 <? 0 then page_free pp ;;; ret r2
          else ret 0
      end.

Definition sys_page_map (srcenvid srcva dstenvid dstva perm : Z) : K Z :=
  r <- envid2env srcenvid true ;;
  if fst r <? 0 then ret (fst r)
  else
    let srcenv := snd r in
    r' <- envid2env dstenvid true ;;
    if fst r' <? 0 then ret (fst r')
    else
      let dstenv := snd r' in
      if (UTOP <=? srcva) || negb (PGOFF srcva =? 0) then ret (- E_INVAL)
      else if (UTOP <=? dstva) || negb (PGOFF dstva =? 0) then ret (- E_INVAL)
      else if negb (Z.land perm (Z.lor PTE_U PTE_P) =? Z.lor PTE_U PTE_P)
              || negb (Z.land perm (Z.lnot PTE_SYSCALL) =? 0)
      then ret (- E_INVAL)
      else
        l <- page_lookup srcenv srcva ;;
        match l with
        | None => ret (- E_INVAL)
        | Some (pp, pte) =>
            if negb (Z.land perm PTE_W =? 0) && (Z.land pte PTE_W =? 0)
            then ret (- E_INVAL)
            else
              r2 <- page_insert dstenv pp dstva perm ;;
              if r2 <? 0 then ret r2 else ret 0
        end.

Definition sys_page_unmap (envid va : Z) : K Z :=
  r <- envid2env envid true ;;
  if fst r <? 0 then ret (fst r)
  else
    let e := snd r in
    if (UTOP <=? va) || negb (PGOFF va =? 0) then ret (- E_INVAL)
    else page_remove e va ;;; ret 0.

(** The label [_update_ipc_fields] of [sys_ipc_try_send]. *)
Definition update_ipc_fields (e value perm : Z) : K Z :=
  env_modify e (set_env_ipc_recving false) ;;;
  cur <- gets curenv ;;
  c <- deref cur ;;
  env_modify e (set_env_ipc_from (env_id c)) ;;;
  env_modify e (set_env_ipc_value value) ;;;
  env_modify e (set_env_ipc_perm perm) ;;;
  env_modify e (set_env_status ENV_RUNNABLE) ;;;
  env_modify e (fun en => set_env_tf (set_tf_regs (set_reg_eax 0 (tf_regs (env_tf en))) (env_tf en)) en) ;;;
  ret 0.

Definition sys_ipc_try_send (envid value srcva perm : Z) : K Z :=
  r <- envid2env envid false ;;
  if fst r <? 0 then ret (fst r)
  else
    let e := snd r in
    en <- deref e ;;
    if negb (env_ipc_recving en) then ret (- E_IPC_NOT_RECV)
    else if negb (env_ipc_dstva en <? UTOP) then update_ipc_fields e value 0
    else if srcva <? UTOP then
      if negb (PGOFF srcva =? 0) then ret (- E_INVAL)
      else if negb (Z.land perm (Z.lor PTE_U PTE_P) =? Z.lor PTE_U PTE_P)
              || negb (Z.land perm (Z.lnot PTE_SYSCALL) =? 0)
      then ret (- E_INVAL)
      else
        cur <- gets curenv ;;
        l <- page_lookup cur srcva ;;
        match l with
        | None => ret (- E_INVAL)
        | Some (pp, pte) =>
            if negb (Z.land perm PTE_W =? 0) && (Z.lor pte PTE_W =? 0)
            then ret (- E_INVAL)
            else
              r2 <- page_insert e pp (env_ipc_dstva en) perm ;;
              if r2 <? 0 then ret r2
              else update_ipc_fields e value perm
        end
    else update_ipc_fields e value 0.

End Kernel.

(** * The rest of kern/trap.c and kern/syscall.c

    The constants of the headers that only this part needs. *)

From Stdlib Require Import Ascii.
From stdpp Require Import strings.

Local Open Scope Z_scope.

Class TrapHeaders := {
  (* inc/trap.h *)
  T_DEBUG : Z;
  T_BRKPT : Z;
  T_PGFLT : Z;
  T_SYSCALL : Z;
  IRQ_OFFSET : Z;
  IRQ_TIMER : Z;
  IRQ_KBD : Z;
  IRQ_SPURIOUS : Z;
  (* inc/memlayout.h *)
  GD_KT : Z;
  GD_KD : Z;
  GD_TSS0 : Z;
  KSTACKTOP : Z;
  KSTKSIZE : Z;
  KSTKGAP : Z;
  (* inc/mmu.h *)
  STS_T32A : Z;
  sizeof_Taskstate : Z;
  (* inc/error.h *)
  E_NO_SYS : Z;
  (* inc/env.h: the values of the enumeration of the statuses *)
  ENV_STATUS : EnvStatus -> Z;
  (* inc/syscall.h *)
  SYS_cputs : Z;
  SYS_cgetc : Z;
  SYS_getenvid : Z;
  SYS_env_destroy : Z;
  SYS_page_alloc : Z;
  SYS_page_map : Z;
  SYS_page_unmap : Z;
  SYS_exofork : Z;
  SYS_env_set_status : Z;
  SYS_env_set_trapframe : Z;
  SYS_env_set_pgfault_upcall : Z;
  SYS_yield : Z;
  SYS_ipc_try_send : Z;
  SYS_ipc_recv : Z
}.

(** Values in the style of the JOS headers, for running the code. *)
Definition jos_trap_headers : TrapHeaders := {|
  T_DEBUG := 1;
  T_BRKPT := 3;
  T_PGFLT := 14;
  T_SYSCALL := 48;
  IRQ_OFFSET := 32;
  IRQ_TIMER := 0;
  IRQ_KBD := 1;
  IRQ_SPURIOUS := 7;
  GD_KT := 0x08;
  GD_KD := 0x10;
  GD_TSS0 := 0x28;
  KSTACKTOP := 0xf0000000;
  KSTKSIZE := 0x8000;
  KSTKGAP := 0x8000;
  STS_T32A := 0x9;
  sizeof_Taskstate := 104;
  E_NO_SYS := 8;
  ENV_STATUS := fun st =>
    match st with
    | ENV_FREE => 0
    | ENV_DYING => 1
    | ENV_RUNNABLE => 2
    | ENV_RUNNING => 3
    | ENV_NOT_RUNNABLE => 4
    end;
  SYS_cputs := 0;
  SYS_cgetc := 1;
  SYS_getenvid := 2;
  SYS_env_destroy := 3;
  SYS_page_alloc := 4;
  SYS_page_map := 5;
  SYS_page_unmap := 6;
  SYS_exofork := 7;
  SYS_env_set_status := 8;
  SYS_env_set_trapframe := 9;
  SYS_env_set_pgfault_upcall := 10;
  SYS_yield := 11;
  SYS_ipc_try_send := 12;
  SYS_ipc_recv := 13
|}.

(** How a kernel function ends: it returns, or it calls a function that
    takes the processor over.  [sched_yield] and [monitor] stand for the
    calls [sched_yield()] and [monitor(tf)]; [hlt] for the halt instruction
    with interrupts disabled. *)
Inductive Ctl (A : Type) :=
  | returns (a : A)
  | no_return (n : NoReturn)
  | sched_yield
  | monitor
  | hlt.

Arguments returns {A} a.
Arguments no_return {A} n.
Arguments sched_yield {A}.
Arguments monitor {A}.
Arguments hlt {A}.

(** The collaborators of kern/console.c and kern/env.c whose code is absent
    and not described: reading a character from the console, what
    [env_destroy] does to an environment that is not the current one, and
    [env_free]. *)
Class Collaborators := {
  cons_getc : K Z;
  env_destroy_other : Z -> K unit;
  env_free : Z -> K unit
}.

(** Collaborators for running the code: no character is waiting, and an
    environment that is destroyed or freed becomes a free slot. *)
Definition idle_collaborators : Collaborators := {|
  cons_getc := ret 0;
  env_destroy_other := fun e => env_modify e (set_env_status ENV_FREE);
  env_free := fun e => env_modify e (set_env_status ENV_FREE)
|}.

Section KernelRest.

Context `{HD : Headers} `{HT : TrapHeaders} `{HC : Collaborators}.

Notation "x <- c1 ;; c2" := (bind c1 (fun x => c2))
  (at level 100, c1 at next level, right associativity).
Notation "c1 ;;; c2" := (bind c1 (fun _ => c2))
  (at level 100, right associativity).

(** [(int32_t) x] for a 32-bit word. *)
Definition int32 (x : Z) : Z := (x + 2 ^ 31) mod 2 ^ 32 - 2 ^ 31.

Definition set_env_pgfault_upcall (v : Z) (e : Env) : Env :=
  mkEnv (env_tf e) (env_id e) (env_parent_id e) (env_status e) (env_pgdir e)
    v (env_ipc_recving e) (env_ipc_dstva e)
    (env_ipc_value e) (env_ipc_from e) (env_ipc_perm e).

Definition set_env_ipc_dstva (v : Z) (e : Env) : Env :=
  mkEnv (env_tf e) (env_id e) (env_parent_id e) (env_status e) (env_pgdir e)
    (env_pgfault_upcall e) (env_ipc_recving e) v
    (env_ipc_value e) (env_ipc_from e) (env_ipc_perm e).

(** Sequencing of a function that may not return. *)
Definition bindc {A B : Type} (m : K (Ctl A)) (f : A -> K (Ctl B)) : K (Ctl B) :=
  r <- m ;;
  match r with
  | returns a => f a
  | no_return n => ret (no_return n)
  | sched_yield => ret sched_yield
  | monitor => ret monitor
  | hlt => ret hlt
  end.

(** NULL as an environment pointer: the slot that holds no environment. *)
Definition NULL : Z := -1.

(** [env_destroy(e)]: for the current environment it does not return (as
    in [user_mem_assert]); for another one it is the collaborator's work. *)
Definition env_destroy_call (e : Z) : K (Ctl unit) :=
  cur <- gets curenv ;;
  if e =? cur then ret (no_return (env_destroy e))
  else env_destroy_other e ;;; ret (returns tt).

(** ** kern/syscall.c, continued.  Console output is not modelled. *)

Definition sys_cputs (s len : Z) : K (Ctl unit) :=
  cur <- gets curenv ;;
  a <- user_mem_assert cur s len (Z.lor PTE_U PTE_P) ;;
  match a with
  | Some stop => ret (no_return stop)
  | None => ret (returns tt)
  end.

Definition sys_cgetc : K Z := cons_getc.

Definition sys_getenvid : K Z :=
  cur <- gets curenv ;;
  c <- deref cur ;;
  ret (env_id c).

Definition sys_env_destroy (envid : Z) : K (Ctl Z) :=
  r <- envid2env envid true ;;
  if fst r <? 0 then ret (returns (fst r))
  else bindc (env_destroy_call (snd r)) (fun _ => ret (returns 0)).

Definition sys_yield : K (Ctl unit) := ret sched_yield.

Definition sys_env_set_status (envid status : Z) : K Z :=
  r <- envid2env envid true ;;
  if fst r <? 0 then ret (fst r)
  else
    let e := snd r in
    if negb (status =? ENV_STATUS ENV_RUNNABLE)
       && negb (status =? ENV_STATUS ENV_NOT_RUNNABLE)
    then ret (- E_INVAL)
    else
      env_modify e (set_env_status
        (if status =? ENV_STATUS ENV_RUNNABLE then ENV_RUNNABLE else ENV_NOT_RUNNABLE)) ;;;
      ret 0.

Definition sys_env_set_pgfault_upcall (envid func : Z) : K Z :=
  r <- envid2env envid true ;;
  if fst r <? 0 then ret (fst r)
  else
    env_modify (snd r) (set_env_pgfault_upcall func) ;;;
    ret 0.

Definition sys_ipc_recv (dstva : Z) : K (Ctl Z) :=
  if (dstva <? UTOP) && negb (PGOFF dstva =? 0) then ret (returns (- E_INVAL))
  else
    cur <- gets curenv ;;
    _ <- deref cur ;;
    env_modify cur (set_env_ipc_recving true) ;;;
    env_modify cur (set_env_ipc_dstva dstva) ;;;
    env_modify cur (set_env_status ENV_NOT_RUNNABLE) ;;;
    ret sched_yield.

(** The dispatcher.  The arguments are 32-bit words; an [envid_t] or [int]
    parameter receives the word as a signed integer. *)
Definition syscall (syscallno a1 a2 a3 a4 a5 : Z) : K (Ctl Z) :=
  if syscallno =? SYS_cputs then
    bindc (sys_cputs a1 a2) (fun _ => ret (returns 0))
  else if syscallno =? SYS_cgetc then
    r <- sys_cgetc ;; ret (returns r)
  else if syscallno =? SYS_env_destroy then sys_env_destroy (int32 a1)
  else if syscallno =? SYS_getenvid then
    r <- sys_getenvid ;; ret (returns r)
  else if syscallno =? SYS_yield then
    bindc sys_yield (fun _ => ret (returns 0))
  else if syscallno =? SYS_page_alloc then
    r <- sys_page_alloc (int32 a1) a2 (int32 a3) ;; ret (returns r)
  else if syscallno =? SYS_page_map then
    r <- sys_page_map (int32 a1) a2 (int32 a3) a4 (int32 a5) ;; ret (returns r)
  else if syscallno =? SYS_page_unmap then
    r <- sys_page_unmap (int32 a1) a2 ;; ret (returns r)
  else if syscallno =? SYS_exofork then
    r <- sys_exofork ;; ret (returns r)
  else if syscallno =? SYS_env_set_status then
    r <- sys_env_set_status (int32 a1) (int32 a2) ;; ret (returns r)
  else if syscallno =? SYS_env_set_pgfault_upcall then
    r <- sys_env_set_pgfault_upcall (int32 a1) a2 ;; ret (returns r)
  else if syscallno =? SYS_ipc_try_send then
    r <- sys_ipc_try_send (int32 a1) a2 a3 a4 ;; ret (returns r)
  else if syscallno =? SYS_ipc_recv then sys_ipc_recv a1
  else ret (returns (- E_NO_SYS)).

(** ** kern/trap.c: dispatch

    Where the frame that [tf] points to lives: in [curenv->env_tf] after a
    trap from user mode, on the kernel stack otherwise. *)
Inductive TfPtr :=
  | tf_curenv
  | tf_kstack (tf : Trapframe).

Definition tf_read (p : TfPtr) : K Trapframe :=
  match p with
  | tf_curenv => cur <- gets curenv ;; c <- deref cur ;; ret (env_tf c)
  | tf_kstack t => ret t
  end.

(** [page_fault_handler] on a frame of the kernel stack: the changes it
    makes to the frame stay on that stack. *)
Definition page_fault_handler_kstack (fault_va : Z) (tf : Trapframe) : K NoReturn :=
  if Z.land (tf_cs tf) 3 =? 0 then panic
  else
    cur <- gets curenv ;;
    c <- deref cur ;;
    if negb (env_pgfault_upcall c =? 0) then
      let utf := mkUTrapframe fault_va (tf_err tf) (tf_regs tf)
                   (tf_eip tf) (tf_eflags tf) (tf_esp tf) in
      let esp1 := if (UXSTACKTOP - PGSIZE <=? tf_esp tf) && (tf_esp tf <? UXSTACKTOP)
                  then wrap32 (tf_esp tf - 4) else UXSTACKTOP in
      let esp2 := wrap32 (esp1 - sizeof_UTrapframe) in
      a <- user_mem_assert cur esp2 sizeof_UTrapframe
             (Z.lor (Z.lor PTE_U PTE_W) PTE_P) ;;
      match a with
      | Some stop => ret stop
      | None => store_bytes esp2 (bytes_of_UTrapframe utf) ;;; ret (env_run cur)
      end
    else ret (env_destroy cur).

(** [trap_dispatch]; [cr2] is what [rcr2()] reads.  The calls to the
    interrupt controller and to the keyboard driver touch devices only.  The
    [int32_t] that [syscall] returns is stored in the 32-bit register
    [reg_eax]. *)
Definition trap_dispatch (p : TfPtr) (cr2 : Z) : K (Ctl unit) :=
  tf <- tf_read p ;;
  if tf_trapno tf =? T_PGFLT then
    n <- match p with
         | tf_curenv => page_fault_handler cr2
         | tf_kstack t => page_fault_handler_kstack cr2 t
         end ;;
    ret (no_return n)
  else if tf_trapno tf =? T_BRKPT then ret monitor
  else if tf_trapno tf =? T_DEBUG then ret monitor
  else if tf_trapno tf =? T_SYSCALL then
    cur <- gets curenv ;;
    bindc (syscall (reg_eax (tf_regs tf)) (reg_edx (tf_regs tf)) (reg_ecx (tf_regs tf))
                   (reg_ebx (tf_regs tf)) (reg_edi (tf_regs tf)) (reg_esi (tf_regs tf)))
      (fun r =>
         match p with
         | tf_curenv =>
             env_modify cur (fun en =>
               set_env_tf (set_tf_regs (set_reg_eax (wrap32 r) (tf_regs (env_tf en)))
                             (env_tf en)) en)
         | tf_kstack _ => ret tt
         end ;;;
         ret (returns tt))
  else if tf_trapno tf =? IRQ_OFFSET + IRQ_SPURIOUS then ret (returns tt)
  else if tf_trapno tf =? IRQ_OFFSET + IRQ_TIMER then ret sched_yield
  else if tf_trapno tf =? IRQ_OFFSET + IRQ_KBD then ret (returns tt)
  else if tf_cs tf =? GD_KT then panic
  else
    cur <- gets curenv ;;
    bindc (env_destroy_call cur) (fun _ => ret (returns tt)).

(** [trap]; [tf] is the frame the entry code built on the kernel stack,
    [panicstr] whether the kernel has panicked, [eflags] what
    [read_eflags()] reads.  The big kernel lock and the status word of the
    processor are not part of the state. *)
Definition trap (tf : Trapframe) (cr2 : Z) (panicstr : bool) (eflags : Z) : K (Ctl unit) :=
  if panicstr then ret hlt
  else if negb (Z.land eflags FL_IF =? 0) then panic
  else
    bindc
      (if Z.land (tf_cs tf) 3 =? 3 then
         cur <- gets curenv ;;
         if cur =? NULL then panic
         else
           c <- deref cur ;;
           if EnvStatus_eqb (env_status c) ENV_DYING then
             env_free cur ;;;
             modify (set_curenv NULL) ;;;
             ret sched_yield
           else
             env_modify cur (set_env_tf tf) ;;;
             ret (returns tf_curenv)
       else ret (returns (tf_kstack tf)))
      (fun p =>
         bindc (trap_dispatch p cr2) (fun _ =>
           cur <- gets curenv ;;
           if cur =? NULL then ret sched_yield
           else
             c <- deref cur ;;
             if EnvStatus_eqb (env_status c) ENV_RUNNING
             then ret (no_return (env_run cur))
             else ret sched_yield)).

End KernelRest.

(** * The entry into the kernel: kern/trapentry.S and the tables of
    kern/trap.c *)

Section Entry.

Context `{HD : Headers} `{HT : TrapHeaders}.

(** ** kern/trapentry.S

    The entry points the file defines; [th 0] ... [th 47] are the symbols
    [th0] ... [th47]. *)
Inductive Handler :=
  | th (n : Z)
  | t_syscall.

#[export] Instance Handler_eq_dec : EqDecision Handler.
Proof. solve_decision. Defined.

(** The instructions the file uses. *)
Inductive Instr :=
  | pushl_imm (n : Z)
  | pushl_ds
  | pushl_es
  | pushal
  | popl_ds
  | popl_es
  | pushl_esp
  | jmp_alltraps
  | call_trap.

Definition TRAPHANDLER (num : Z) : list Instr :=
  [pushl_imm num; jmp_alltraps].

Definition TRAPHANDLER_NOEC (num : Z) : list Instr :=
  [pushl_imm 0; pushl_imm num; jmp_alltraps].

(** The handlers, in the order of the file.  The lines for [th2], [th17],
    [th18] and [th19] are commented out there. *)
Definition trapentry : list (Handler * list Instr) :=
  [ (th 0, TRAPHANDLER_NOEC 0);
    (th 1, TRAPHANDLER_NOEC 1);
    (th 3, TRAPHANDLER_NOEC 3);
    (th 4, TRAPHANDLER_NOEC 4);
    (th 5, TRAPHANDLER_NOEC 5);
    (th 6, TRAPHANDLER_NOEC 6);
    (th 7, TRAPHANDLER_NOEC 7);
    (th 8, TRAPHANDLER 8);
    (th 9, TRAPHANDLER_NOEC 9);
    (th 10, TRAPHANDLER 10);
    (th 11, TRAPHANDLER 11);
    (th 12, TRAPHANDLER 12);
    (th 13, TRAPHANDLER 13);
    (th 14, TRAPHANDLER 14);
    (th 16, TRAPHANDLER_NOEC 16);
    (t_syscall, TRAPHANDLER_NOEC T_SYSCALL);
    (th 32, TRAPHANDLER_NOEC IRQ_OFFSET);
    (th 33, TRAPHANDLER_NOEC (IRQ_OFFSET + 1));
    (th 34, TRAPHANDLER_NOEC (IRQ_OFFSET + 2));
    (th 35, TRAPHANDLER_NOEC (IRQ_OFFSET + 3));
    (th 36, TRAPHANDLER_NOEC (IRQ_OFFSET + 4));
    (th 37, TRAPHANDLER_NOEC (IRQ_OFFSET + 5));
    (th 38, TRAPHANDLER_NOEC (IRQ_OFFSET + 6));
    (th 39, TRAPHANDLER_NOEC (IRQ_OFFSET + 7));
    (th 40, TRAPHANDLER_NOEC (IRQ_OFFSET + 8));
    (th 41, TRAPHANDLER_NOEC (IRQ_OFFSET + 9));
    (th 42, TRAPHANDLER_NOEC (IRQ_OFFSET + 10));
    (th 43, TRAPHANDLER_NOEC (IRQ_OFFSET + 11));
    (th 44, TRAPHANDLER_NOEC (IRQ_OFFSET + 12));
    (th 45, TRAPHANDLER_NOEC (IRQ_OFFSET + 13));
    (th 46, TRAPHANDLER_NOEC (IRQ_OFFSET + 14));
    (th 47, TRAPHANDLER_NOEC (IRQ_OFFSET + 15)) ].

Definition _alltraps : list Instr :=
  [ pushl_ds; pushl_es; pushal;
    pushl_imm GD_KD; popl_ds;
    pushl_imm GD_KD; popl_es;
    pushl_esp; call_trap ].

(** The code at a symbol. *)
Definition code_of (h : Handler) : option (list Instr) :=
  snd <$> (snd <$> list_find (fun p => bool_decide (fst p = h)) trapentry).

(** The part of the processor the entry code works on: the general
    registers, two segment registers, and the stack as the list of the
    32-bit words from [esp] upwards.  A push of a 16-bit segment register
    fills the lower half of a word; [cpu_seg_hi] is what the upper half
    at an address holds then, which the processor leaves open. *)
Record Cpu := mkCpu {
  cpu_eax : Z;
  cpu_ecx : Z;
  cpu_edx : Z;
  cpu_ebx : Z;
  cpu_esp : Z;
  cpu_ebp : Z;
  cpu_esi : Z;
  cpu_edi : Z;
  cpu_ds : Z;
  cpu_es : Z;
  cpu_stack : list Z;
  cpu_seg_hi : Z -> Z
}.

Definition push (w : Z) (c : Cpu) : Cpu :=
  mkCpu (cpu_eax c) (cpu_ecx c) (cpu_edx c) (cpu_ebx c)
    (wrap32 (cpu_esp c - 4)) (cpu_ebp c) (cpu_esi c) (cpu_edi c)
    (cpu_ds c) (cpu_es c) (w :: cpu_stack c) (cpu_seg_hi c).

Definition pop (c : Cpu) : option (Z * Cpu) :=
  match cpu_stack c with
  | [] => None
  | w :: st =>
      Some (w, mkCpu (cpu_eax c) (cpu_ecx c) (cpu_edx c) (cpu_ebx c)
                 (wrap32 (cpu_esp c + 4)) (cpu_ebp c) (cpu_esi c) (cpu_edi c)
                 (cpu_ds c) (cpu_es c) st (cpu_seg_hi c))
  end.

Definition set_cpu_ds (v : Z) (c : Cpu) : Cpu :=
  mkCpu (cpu_eax c) (cpu_ecx c) (cpu_edx c) (cpu_ebx c)
    (cpu_esp c) (cpu_ebp c) (cpu_esi c) (cpu_edi c)
    v (cpu_es c) (cpu_stack c) (cpu_seg_hi c).

Definition set_cpu_es (v : Z) (c : Cpu) : Cpu :=
  mkCpu (cpu_eax c) (cpu_ecx c) (cpu_edx c) (cpu_ebx c)
    (cpu_esp c) (cpu_ebp c) (cpu_esi c) (cpu_edi c)
    (cpu_ds c) v (cpu_stack c) (cpu_seg_hi c).

(** The word a push of the segment register value [seg] stores. *)
Definition seg_word (seg : Z) (c : Cpu) : Z :=
  seg mod 2 ^ 16 + 2 ^ 16 * (cpu_seg_hi c (wrap32 (cpu_esp c - 4)) mod 2 ^ 16).

(** One instruction that falls through to the next. *)
Definition step (i : Instr) (c : Cpu) : option Cpu :=
  match i with
  | pushl_imm n => Some (push (wrap32 n) c)
  | pushl_ds => Some (push (seg_word (cpu_ds c) c) c)
  | pushl_es => Some (push (seg_word (cpu_es c) c) c)
  | pushal =>
      let temp := cpu_esp c in
      Some (push (cpu_edi c) (push (cpu_esi c) (push (cpu_ebp c) (push temp
           (push (cpu_ebx c) (push (cpu_edx c) (push (cpu_ecx c)
           (push (cpu_eax c) c))))))))
  | popl_ds => '(w, c') ← pop c; Some (set_cpu_ds (w mod 2 ^ 16) c')
  | popl_es => '(w, c') ← pop c; Some (set_cpu_es (w mod 2 ^ 16) c')
  | pushl_esp => Some (push (cpu_esp c) c)
  | jmp_alltraps | call_trap => None
  end.

(** How a piece of code ends. *)
Inductive Outcome :=
  | falls_through (c : Cpu)
  | at_alltraps (c : Cpu)
  | in_trap (c : Cpu).

Fixpoint exec (code : list Instr) (c : Cpu) : option Outcome :=
  match code with
  | [] => Some (falls_through c)
  | jmp_alltraps :: _ => Some (at_alltraps c)
  | call_trap :: _ => Some (in_trap c)
  | i :: rest => c' ← step i c; exec rest c'
  end.

(** The processor enters the kernel at the symbol [h]: the machine when
    [trap] is called, and the argument [tf] of the call, the word on top of
    the stack. *)
Definition enter (h : Handler) (c : Cpu) : option (Z * Cpu) :=
  code ← code_of h;
  o ← exec code c;
  match o with
  | at_alltraps c1 =>
      o' ← exec _alltraps c1;
      match o' with
      | in_trap c2 =>
          match cpu_stack c2 with
          | tf :: _ => Some (tf, c2)
          | [] => None
          end
      | _ => None
      end
  | _ => None
  end.

(** The bytes of the stack from the address [a] on, least significant byte
    of a word first. *)
Definition stack_bytes (c : Cpu) (a : Z) : list Z :=
  flat_map (le_encode 4) (drop (Z.to_nat ((a - cpu_esp c) / 4)) (cpu_stack c)).

(** [*tf] for a pointer into the stack. *)
Definition read_Trapframe (c : Cpu) (tf : Z) : Trapframe :=
  Trapframe_of_bytes (take (Z.to_nat sizeof_Trapframe) (stack_bytes c tf)).

(** ** kern/trap.c: the descriptor tables

    [SETGATE] belongs to the absent inc/mmu.h: a gate is the record of the
    arguments it is built from; a vector without a gate is absent from the
    table (the all-zero descriptor, which is not present). *)
Record Gatedesc := mkGatedesc {
  gd_istrap : Z;
  gd_sel : Z;
  gd_off : Handler;
  gd_dpl : Z
}.

Definition SETGATE (v istrap sel : Z) (off : Handler) (dpl : Z)
    (idt : gmap Z Gatedesc) : gmap Z Gatedesc :=
  <[v := mkGatedesc istrap sel off dpl]> idt.

(** [SEG16] belongs to the absent inc/mmu.h as well: a segment descriptor
    is the record of its arguments and of the field [sd_s], which is as
    the macro left it ([None]) until [trap_init_percpu] writes it. *)
Record Segdesc := mkSegdesc {
  sd_type : Z;
  sd_base : Z;
  sd_lim : Z;
  sd_dpl : Z;
  sd_s : option Z
}.

Definition SEG16 (type base lim dpl : Z) : Segdesc := mkSegdesc type base lim dpl None.

Definition set_sd_s (v : Z) (d : Segdesc) : Segdesc :=
  mkSegdesc (sd_type d) (sd_base d) (sd_lim d) (sd_dpl d) (Some v).

(** The tables and the per-processor registers that [trap_init] and
    [trap_init_percpu] write.  [cpu_ts] holds [ts_esp0] and [ts_ss0] of the
    task state of every processor, [tr] and [idtr] what [ltr] and [lidt]
    have loaded on it. *)
Record Tables := mkTables {
  idt : gmap Z Gatedesc;
  gdt : gmap Z Segdesc;
  cpu_ts : gmap Z (Z * Z);
  tr : gmap Z Z;
  idtr : gmap Z bool
}.

Definition set_idt (v : gmap Z Gatedesc) (t : Tables) : Tables :=
  mkTables v (gdt t) (cpu_ts t) (tr t) (idtr t).

(** [trap_init_percpu] on the processor [i] (what [cpunum()] returns);
    [ts_addr] is the address of [thiscpu->cpu_ts]. *)
Definition trap_init_percpu (i : Z) (ts_addr : Z) (t : Tables) : Tables :=
  let ts := (wrap32 (KSTACKTOP - i * (KSTKSIZE + KSTKGAP)), GD_KD) in
  let slot := Z.shiftr GD_TSS0 3 + i in
  let d := SEG16 STS_T32A ts_addr (sizeof_Taskstate - 1) 0 in
  mkTables (idt t)
    (<[slot := set_sd_s 0 d]> (gdt t))
    (<[i := ts]> (cpu_ts t))
    (<[i := (GD_TSS0 + 8 * i) mod 2 ^ 16]> (tr t))
    (<[i := true]> (idtr t)).

(** [trap_init], on the processor that boots. *)
Definition trap_init (i : Z) (ts_addr : Z) (t : Tables) : Tables :=
  let t1 := set_idt
    (SETGATE T_SYSCALL 0 GD_KT t_syscall 3
    (SETGATE (IRQ_OFFSET + 15) 0 GD_KT (th 47) 0
    (SETGATE (IRQ_OFFSET + 14) 0 GD_KT (th 46) 0
    (SETGATE (IRQ_OFFSET + 13) 0 GD_KT (th 45) 0
    (SETGATE (IRQ_OFFSET + 12) 0 GD_KT (th 44) 0
    (SETGATE (IRQ_OFFSET + 11) 0 GD_KT (th 43) 0
    (SETGATE (IRQ_OFFSET + 10) 0 GD_KT (th 42) 0
    (SETGATE (IRQ_OFFSET + 9) 0 GD_KT (th 41) 0
    (SETGATE (IRQ_OFFSET + 8) 0 GD_KT (th 40) 0
    (SETGATE (IRQ_OFFSET + 7) 0 GD_KT (th 39) 0
    (SETGATE (IRQ_OFFSET + 6) 0 GD_KT (th 38) 0
    (SETGATE (IRQ_OFFSET + 5) 0 GD_KT (th 37) 0
    (SETGATE (IRQ_OFFSET + 4) 0 GD_KT (th 36) 0
    (SETGATE (IRQ_OFFSET + 3) 0 GD_KT (th 35) 0
    (SETGATE (IRQ_OFFSET + 2) 0 GD_KT (th 34) 0
    (SETGATE (IRQ_OFFSET + 1) 0 GD_KT (th 33) 0
    (SETGATE IRQ_OFFSET 0 GD_KT (th 32) 0
    (SETGATE 16 0 GD_KT (th 16) 0
    (SETGATE 14 0 GD_KT (th 14) 0
    (SETGATE 13 0 GD_KT (th 13) 0
    (SETGATE 12 0 GD_KT (th 12) 0
    (SETGATE 11 0 GD_KT (th 11) 0
    (SETGATE 10 0 GD_KT (th 10) 0
    (SETGATE 9 0 GD_KT (th 9) 0
    (SETGATE 8 0 GD_KT (th 8) 0
    (SETGATE 7 0 GD_KT (th 7) 0
    (SETGATE 6 0 GD_KT (th 6) 0
    (SETGATE 5 0 GD_KT (th 5) 0
    (SETGATE 4 0 GD_KT (th 4) 0
    (SETGATE 3 0 GD_KT (th 3) 3
    (SETGATE 1 0 GD_KT (th 1) 0
    (SETGATE 0 0 GD_KT (th 0) 0 (idt t))))))))))))))))))))))))))))))))) t in
  trap_init_percpu i ts_addr t1.

(** The tables before [trap_init]: [idt] is all zero, no processor has
    loaded anything. *)
Definition boot_tables (gdt0 : gmap Z Segdesc) : Tables :=
  mkTables ∅ gdt0 ∅ ∅ ∅.

(** ** [trapname] *)



End Entry.

(** * The kernel monitor: kern/monitor.c *)

(** [strtol] of the absent lib/string.c, with its arguments the string and
    the base: the number and the rest of the string, where [endptr] points
    afterwards. *)
Class LibString := {
  strtol : string -> Z -> Z * string
}.

Section Monitor.

Context `{HD : Headers} `{HT : TrapHeaders} `{HL : LibString}.

(** The functions of the commands. *)
Inductive MonFunc :=
  | mon_help_f
  | mon_kerninfo_f
  | mon_backtrace_f
  | mon_color_f
  | mon_showmappings_f
  | mon_setperm_f
  | mon_dumpvm_f.

Record Command := mkCommand {
  cmd_name : string;
  cmd_desc : string;
  cmd_func : MonFunc
}.

Definition commands : list Command :=
  [ mkCommand "help" "Display this list of commands" mon_help_f;
    mkCommand "kerninfo" "Display information about the kernel" mon_kerninfo_f;
    mkCommand "backtrace" "Display a listing of function call frames" mon_backtrace_f;
    mkCommand "show" "Display colorful ASCII art" mon_color_f;
    mkCommand "showmappings"
      "Display physical page mappings and permissions for a range of virtual addresses"
      mon_showmappings_f;
    mkCommand "setperm" "Set or clear permission bits of a mapping" mon_setperm_f;
    mkCommand "dumpvm" "Dump memory contents of a virtual address range" mon_dumpvm_f
  ]%string.

(** ** [runcmd]

    A buffer is the string of its characters; as in C, a character 0 ends
    it. *)
Definition NUL : Ascii.ascii := "000"%char.

Definition WHITESPACE : string :=
  String "009"%char (String "013"%char (String "010"%char (String " "%char EmptyString))).

Definition MAXARGS : Z := 16.

(** [strchr(s, c) != NULL]: the terminator of [s] counts as a character of
    [s]. *)
Fixpoint strchr (s : string) (c : Ascii.ascii) : bool :=
  match s with
  | EmptyString => Ascii.eqb c NUL
  | String d s' => Ascii.eqb c d || strchr s' c
  end.

(** The test that [buf] points to the terminator. *)
Definition at_end (buf : string) : bool :=
  match buf with
  | EmptyString => true
  | String c _ => Ascii.eqb c NUL
  end.

(** The loop that gobbles whitespace, writing 0 over it: where [buf]
    points afterwards. *)
Fixpoint gobble (buf : string) : string :=
  match buf with
  | EmptyString => buf
  | String c r =>
      if negb (Ascii.eqb c NUL) && strchr WHITESPACE c then gobble r else buf
  end.

(** The loop that scans past an argument: the characters passed, which
    are the argument once its end is overwritten with 0, and where [buf]
    points afterwards. *)
Fixpoint scan (buf : string) : string * string :=
  match buf with
  | EmptyString => (EmptyString, buf)
  | String c r =>
      if negb (Ascii.eqb c NUL) && negb (strchr WHITESPACE c)
      then (String c (scan r).1, (scan r).2)
      else (EmptyString, buf)
  end.

(** The loop that fills [argv]; [fuel] bounds its rounds.  [Some None]:
    too many arguments. *)
Fixpoint parse (fuel : nat) (buf : string) (argv : list string)
    : option (option (list string)) :=
  match fuel with
  | O => None
  | S fuel' =>
      let buf := gobble buf in
      if at_end buf then Some (Some argv)
      else if Z.of_nat (length argv) =? MAXARGS - 1 then Some None
      else parse fuel' (scan buf).2 (argv ++ [(scan buf).1])
  end.

(** How [runcmd] ends: it returns a number itself, or it returns what the
    function of a command returns for [argc] and [argv]. *)
Inductive Ran :=
  | ran_returns (r : Z)
  | ran_calls (f : MonFunc) (argc : Z) (argv : list string).

(** [runcmd]; every round of the loop passes a character of the buffer,
    so its length bounds the rounds. *)
Definition runcmd (buf : string) : option Ran :=
  r ← parse (S (String.length buf)) buf [];
  match r with
  | None => Some (ran_returns 0)
  | Some argv =>
      match argv with
      | [] => Some (ran_returns 0)
      | a0 :: _ =>
          match List.find (fun c => String.eqb a0 (cmd_name c)) commands with
          | Some c => Some (ran_calls (cmd_func c) (Z.of_nat (length argv)) argv)
          | None => Some (ran_returns 0)
          end
      end
  end.

(** ** The commands on mappings

    They work on [kern_pgdir], the address space of the kernel; what they
    print is not modelled beyond the lines of [mon_showmappings]. *)

(** Modelled from the spec: the macro [ROUNDDOWN] of the absent inc/types.h
    rounds down to a multiple of [n]. *)
Definition ROUNDDOWN (a n : Z) : Z := a - a mod n.

(** [argv[2][0]] and [argv[2][1]]; reading the second character of an
    empty string is a read past its end. *)
Definition char0 (s : string) : Ascii.ascii :=
  match s with
  | EmptyString => NUL
  | String c _ => c
  end.

Definition char1 (s : string) : option Ascii.ascii :=
  match s with
  | EmptyString => None
  | String _ r => Some (char0 r)
  end.

(** [mon_setperm]: the number it returns and [kern_pgdir] afterwards;
    [None] is a read outside [argv] or outside a string.  The TLB is not
    modelled. *)
Definition mon_setperm (argc : Z) (argv : list string) (kern_pgdir : AddrSpace)
    : option (Z * AddrSpace) :=
  if negb (argc =? 4) then Some (0, kern_pgdir)
  else
    a1 ← argv !! 1%nat;
    let va := wrap32 (strtol a1 0).1 in
    if negb (at_end (strtol a1 0).2) then Some (0, kern_pgdir)
    else
      a2 ← argv !! 2%nat;
      let perm := char0 a2 in
      c1 ← char1 a2;
      if negb (Ascii.eqb c1 NUL)
         || (negb (Ascii.eqb perm "P"%char) && negb (Ascii.eqb perm "W"%char)
             && negb (Ascii.eqb perm "U"%char))
      then Some (0, kern_pgdir)
      else
        a3 ← argv !! 3%nat;
        let action := int32 (strtol a3 0).1 in
        if negb (at_end (strtol a3 0).2)
           || (negb (action =? 0) && negb (action =? 1))
        then Some (0, kern_pgdir)
        else
          match pte_read kern_pgdir va with
          | None => Some (0, kern_pgdir)
          | Some pte =>
              if Z.land pte PTE_P =? 0 then Some (0, kern_pgdir)
              else
                let perm_bit :=
                  if Ascii.eqb perm "P"%char then PTE_P
                  else if Ascii.eqb perm "W"%char then PTE_W else PTE_U in
                let pte' :=
                  if action =? 1 then Z.lor pte perm_bit
                  else Z.land pte (wrap32 (Z.lnot perm_bit)) in
                Some (0, pte_write va pte' kern_pgdir)
          end.

(** A line of [mon_showmappings]: the address, and the entry when a page
    is mapped there. *)
Definition mapping_line (kern_pgdir : AddrSpace) (va : Z) : Z * option Z :=
  match pte_read kern_pgdir va with
  | Some pte => if Z.land pte PTE_P =? 0 then (va, None) else (va, Some pte)
  | None => (va, None)
  end.

(** [for (va = va_start; va <= va_end; va += PGSIZE)] on 32-bit
    addresses: the lines printed, [None] when [fuel] rounds do not end the
    loop. *)
Fixpoint showmappings_loop (fuel : nat) (va va_end : Z) (kern_pgdir : AddrSpace)
    : option (list (Z * option Z)) :=
  match fuel with
  | O => None
  | S fuel' =>
      if va <=? va_end
      then (mapping_line kern_pgdir va ::.)
             <$> showmappings_loop fuel' (wrap32 (va + PGSIZE)) va_end kern_pgdir
      else Some []
  end.

(** [mon_showmappings]: the number it returns and the lines. *)
Definition mon_showmappings (fuel : nat) (argc : Z) (argv : list string)
    (kern_pgdir : AddrSpace) : option (Z * list (Z * option Z)) :=
  if negb (argc =? 3) then Some (0, [])
  else
    a1 ← argv !! 1%nat;
    let va_start := wrap32 (strtol a1 0).1 in
    if negb (at_end (strtol a1 0).2) then Some (0, [])
    else
      a2 ← argv !! 2%nat;
      let va_end := wrap32 (strtol a2 0).1 in
      if negb (at_end (strtol a2 0).2) then Some (0, [])
      else
        let '(va_start, va_end) :=
          if va_end <? va_start then (va_end, va_start) else (va_start, va_end) in
        let va_start := ROUNDDOWN va_start PGSIZE in
        let va_end := ROUNDDOWN va_end PGSIZE in
        ls ← showmappings_loop fuel va_start va_end kern_pgdir;
        Some (0, ls).

End Monitor.

(** * The block cache of the file system: fs/bc.c

    (delivered in [src/kern/monitor.c]).  The code runs in the environment
    of the file system; its system calls are the kernel functions, called
    with that environment as the current one. *)

(** The constants of the absent fs/fs.h and inc/fs.h, and the dirty bit of
    inc/mmu.h. *)
Class FsHeaders := {
  DISKMAP : Z;
  DISKSIZE : Z;
  BLKSIZE : Z;
  BLKSECTS : Z;
  PTE_D : Z
}.

(** Values in the style of the JOS headers, for running the code. *)
Definition jos_fs_headers : FsHeaders := {|
  DISKMAP := 0x10000000;
  DISKSIZE := 0xC0000000;
  BLKSIZE := 4096;
  BLKSECTS := 8;
  PTE_D := 0x040
|}.

(** The disk driver of the absent fs/ide.c, with the arguments the sector,
    the address and the number of sectors. *)
Class IdeDriver := {
  ide_read : Z -> Z -> Z -> K Z;
  ide_write : Z -> Z -> Z -> K Z
}.

Section BlockCache.

Context `{HD : Headers} `{HF : FsHeaders} `{HI : IdeDriver}.

Notation "x <- c1 ;; c2" := (bind c1 (fun x => c2))
  (at level 100, c1 at next level, right associativity).
Notation "c1 ;;; c2" := (bind c1 (fun _ => c2))
  (at level 100, right associativity).

(** [diskaddr]; [super] is the number of blocks of the super block, when
    the super block is loaded.  [None]: panic. *)
Definition diskaddr (super : option Z) (blockno : Z) : option Z :=
  if (blockno =? 0)
     || match super with
        | Some s_nblocks => s_nblocks <=? blockno
        | None => false
        end
  then None
  else Some (wrap32 (DISKMAP + wrap32 (blockno * BLKSIZE))).

(** Modelled from the spec: [uvpt] of the absent inc/memlayout.h, the
    window through which an environment reads the entries of its own page
    tables; an entry whose page table does not exist cannot be read. *)
Definition uvpt (va : Z) : K Z :=
  cur <- gets curenv ;;
  c <- deref cur ;;
  match pte_read (env_pgdir c) va with
  | Some pte => ret pte
  | None => panic
  end.

(** Modelled from the spec: [uvpd] of the absent inc/memlayout.h; its
    entry is present when the page table exists. *)
Definition uvpd_present (va : Z) : K bool :=
  cur <- gets curenv ;;
  c <- deref cur ;;
  ret (bool_decide (is_Some (pd_tables (env_pgdir c) !! PDX va))).

Definition va_is_mapped (va : Z) : K bool :=
  p <- uvpd_present va ;;
  if p then pte <- uvpt va ;; ret (negb (Z.land pte PTE_P =? 0))
  else ret false.

Definition va_is_dirty (va : Z) : K bool :=
  pte <- uvpt va ;;
  ret (negb (Z.land pte PTE_D =? 0)).

(** [flush_block] *)
Definition flush_block (addr : Z) : K unit :=
  let blockno := wrap32 (addr - DISKMAP) / BLKSIZE in
  if (addr <? DISKMAP) || (wrap32 (DISKMAP + DISKSIZE) <=? addr) then panic
  else
    let addr := ROUNDDOWN addr PGSIZE in
    m <- va_is_mapped addr ;;
    clean <- (if negb m then ret true else d <- va_is_dirty addr ;; ret (negb d)) ;;
    if clean then ret tt
    else
      r <- ide_write (wrap32 (blockno * BLKSECTS)) addr BLKSECTS ;;
      if r <? 0 then panic
      else
        pte <- uvpt addr ;;
        r' <- sys_page_map 0 addr 0 addr (Z.land pte PTE_SYSCALL) ;;
        if r' <? 0 then panic else ret tt.

End BlockCache.

(** * Vocabulary of the properties *)

Section Vocabulary.

Context `{HD : Headers}.

(** A relation kept between the state before and the state after. *)
Definition kpre {A : Type} (R : KState -> KState -> Prop) (m : K A) : Prop :=
  forall s a s', m s = Some (a, s') -> R s s'.

Definition forget_pgdir (en : Env) : Env := set_env_pgdir (mkAddrSpace 0 ∅) en.

(** Two states with the same environments up to their page directories. *)
Definition same_envs (s1 s2 : KState) : Prop :=
  curenv s1 = curenv s2 /\ env_free_list s1 = env_free_list s2 /\
  forall e, forget_pgdir <$> envs s1 !! e = forget_pgdir <$> envs s2 !! e.

(** The page table of [va] exists in the address space of [e]. *)
Definition has_table (e va : Z) (s : KState) : Prop :=
  exists en, envs s !! e = Some en /\ is_Some (pd_tables (env_pgdir en) !! PDX va).

Definition keeps_table (e va : Z) (s s' : KState) : Prop :=
  has_table e va s -> has_table e va s'.

(** The error codes are positive, so that a negative result is an error. *)
Definition errnos_positive : Prop :=
  0 < E_BAD_ENV /\ 0 < E_INVAL /\ 0 < E_NO_MEM /\ 0 < E_NO_FREE_ENV
  /\ 0 < E_FAULT /\ 0 < E_IPC_NOT_RECV.

(** The receiver after a delivery from [from]. *)
Definition ipc_delivered (from value perm : Z) (en : Env) : Env :=
  mkEnv (set_tf_regs (set_reg_eax 0 (tf_regs (env_tf en))) (env_tf en))
    (env_id en) (env_parent_id en) ENV_RUNNABLE (env_pgdir en)
    (env_pgfault_upcall en) false (env_ipc_dstva en) value from perm.

(** A send transfers a page when both sides name an address below UTOP. *)
Definition page_transferred (dstva srcva : Z) : bool :=
  (dstva <? UTOP) && (srcva <? UTOP).

(** The effect of [pp->pp_ref++] and of [page_decref(pp)] on the state. *)
Definition incref_state (pp : Z) (s : KState) : KState :=
  set_pages (<[pp := pp_ref s pp + 1]> (pages s)) s.

Definition decref_state (pp : Z) (s : KState) : KState :=
  let s1 := set_pages (<[pp := pp_ref s pp - 1]> (pages s)) s in
  if pp_ref s1 pp =? 0 then set_page_free_list (pp :: page_free_list s1) s1 else s1.

(** The frame [sys_env_set_trapframe] stores for the supplied frame [uf]:
    user segments with RPL 3, interrupts enabled, IOPL 0. *)
Definition clamped_tf (uf : Trapframe) : Trapframe :=
  mkTrapframe (tf_regs uf)
    (Z.lor GD_UD 3) (tf_padding1 uf) (Z.lor GD_UD 3) (tf_padding2 uf)
    (tf_trapno uf) (tf_err uf) (tf_eip uf)
    (Z.lor GD_UT 3) (tf_padding3 uf)
    (Z.land (Z.lor (tf_eflags uf) FL_IF) (Z.lnot FL_IOPL_MASK))
    (tf_esp uf) (Z.lor GD_UD 3) (tf_padding4 uf).

(** The physical byte an address of [pd] names, when a page is mapped. *)
Definition translate (pd : AddrSpace) (a : Z) : option (Z * Z) :=
  match pte_read pd a with
  | Some pte =>
      if Z.land pte PTE_P =? 0 then None
      else Some (pa2page (PTE_ADDR pte), PGOFF a)
  | None => None
  end.

(** Where the spec places the user trap frame for a trap-time stack
    pointer [esp]. *)
Definition upcall_frame_addr (esp : Z) : Z :=
  if (UXSTACKTOP - PGSIZE <=? esp) && (esp <? UXSTACKTOP)
  then esp - 4 - sizeof_UTrapframe
  else UXSTACKTOP - sizeof_UTrapframe.

End Vocabulary.

(** * Vocabulary of the further properties *)

Section Vocabulary2.

Context `{HD : Headers} `{HT : TrapHeaders}.

(** The entry of [va] in the address space of the environment in slot [x]. *)
Definition pte_at (x va : Z) (s : KState) : option Z :=
  match envs s !! x with
  | Some en => pte_read (env_pgdir en) va
  | None => None
  end.

(** Two addresses of two environments that do not share a page-table
    entry. *)
Definition diff_entry (e va x va' : Z) : Prop :=
  e <> x \/ PDX va <> PDX va' \/ PTX va <> PTX va'.

(** An entry that exists is kept. *)
Definition keeps_pte (x va : Z) (s s' : KState) : Prop :=
  forall pte, pte_at x va s = Some pte -> pte_at x va s' = Some pte.

(** The permission bits a system call may set lie below the frame address
    of an entry. *)
Definition perm_bits_low : Prop :=
  0 <= PGSHIFT /\ Z.land PTE_SYSCALL (Z.lnot (PGSIZE - 1)) = 0.

(** The frames keep their counts. *)
Definition same_counts (s s' : KState) : Prop :=
  forall pp, pp_ref s' pp = pp_ref s pp.

(** The numbers for which [syscall] has a case. *)
Definition syscall_cases : list Z :=
  [SYS_cputs; SYS_cgetc; SYS_env_destroy; SYS_getenvid; SYS_yield;
   SYS_page_alloc; SYS_page_map; SYS_page_unmap; SYS_exofork;
   SYS_env_set_status; SYS_env_set_pgfault_upcall; SYS_ipc_try_send;
   SYS_ipc_recv].

(** The trap numbers that [trap_dispatch] tells apart are different
    numbers. *)
Definition trap_numbers_distinct : Prop :=
  NoDup [T_PGFLT; T_BRKPT; T_DEBUG; T_SYSCALL;
         IRQ_OFFSET + IRQ_SPURIOUS; IRQ_OFFSET + IRQ_TIMER; IRQ_OFFSET + IRQ_KBD].

(** [trap] finds a trap from user mode in order: the kernel has not
    panicked, interrupts are off, the frame [tf] comes from ring 3, and
    the current environment [c] exists and is not dying. *)
Definition user_trap (tf : Trapframe) (eflags : Z) (c : Env) (s : KState) : Prop :=
  Z.land eflags FL_IF = 0
  /\ Z.land (tf_cs tf) 3 = 3
  /\ curenv s <> NULL
  /\ envs s !! curenv s = Some c
  /\ env_status c <> ENV_DYING.

(** The state once [trap] has copied the frame into the environment. *)
Definition frame_saved (tf : Trapframe) (s : KState) : KState :=
  update_env (curenv s) (set_env_tf tf) s.

(** What [trap] does after [trap_dispatch] has returned. *)
Definition resume (s : KState) : Ctl unit :=
  match envs s !! curenv s with
  | Some c =>
      if EnvStatus_eqb (env_status c) ENV_RUNNING
      then no_return (env_run (curenv s)) else sched_yield
  | None => sched_yield
  end.

End Vocabulary2.

(** * Vocabulary of the entry code *)

Section Vocabulary3.

Context `{HD : Headers} `{HT : TrapHeaders}.

(** A 32-bit word. *)
Definition word (w : Z) : Prop := 0 <= w < 2 ^ 32.

(** What the processor has pushed when it enters a handler after a change
    of privilege level: the old [ss] and [esp], [eflags], [cs], [eip] and,
    for the exceptions that have one, the error code on top. *)
Definition hardware_frame (err : option Z) (eip cs eflags esp ss : Z) : list Z :=
  match err with
  | Some e => [e]
  | None => []
  end ++ [eip; cs; eflags; esp; ss].

(** The general registers of the processor as [pushal] stores them, with
    [oesp] in the slot of [esp]. *)
Definition pushed_regs (oesp : Z) (c : Cpu) : PushRegs :=
  mkPushRegs (cpu_edi c) (cpu_esi c) (cpu_ebp c) oesp
    (cpu_ebx c) (cpu_edx c) (cpu_ecx c) (cpu_eax c).

(** The general registers are 32-bit words, the segment registers 16-bit
    ones. *)
Definition cpu_in_range (c : Cpu) : Prop :=
  word (cpu_eax c) /\ word (cpu_ecx c) /\ word (cpu_edx c) /\ word (cpu_ebx c)
  /\ word (cpu_ebp c) /\ word (cpu_esi c) /\ word (cpu_edi c)
  /\ 0 <= cpu_ds c < 2 ^ 16 /\ 0 <= cpu_es c < 2 ^ 16.


End Vocabulary3.

(** * Vocabulary of the monitor *)

Section Vocabulary4.

Context `{HD : Headers} `{HT : TrapHeaders} `{HL : LibString}.

(** A word: a string that is not empty and holds neither whitespace nor a
    character 0. *)
Fixpoint no_blank (w : string) : Prop :=
  match w with
  | EmptyString => True
  | String c r => c <> NUL /\ strchr WHITESPACE c = false /\ no_blank r
  end.

Definition is_word (w : string) : Prop := w <> EmptyString /\ no_blank w.

(** The words after a space each. *)
Fixpoint spaced (ws : list string) : string :=
  match ws with
  | [] => EmptyString
  | w :: ws' => String " " (w +:+ spaced ws')
  end.

(** A command line: the words with single spaces between them. *)
Definition command_line (ws : list string) : string :=
  match ws with
  | [] => EmptyString
  | w :: ws' => w +:+ spaced ws'
  end.

End Vocabulary4.

(** * Concrete kernel states, with the constants of the JOS headers *)

Module Examples.

#[local] Existing Instance jos_headers.

Definition user_regs : PushRegs := mkPushRegs 1 2 3 4 5 6 7 8.

(** A frame saved on a trap from user mode. *)
Definition user_tf : Trapframe :=
  mkTrapframe user_regs 0x23 0 0x23 0 48 0 0x800020 0x1b 0 0x202 0xeebfdf00 0x23 0.

(** Environment 0x1000 in slot 0: the page at 0x2000 is mapped read-only
    ([PTE_U | PTE_P]) on frame 5. *)
Definition sender_pgdir : AddrSpace :=
  mkAddrSpace 2 {[ 0 := mkPageTable 3 {[ 2 := 0x5005 ]} ]}.

Definition sender : Env :=
  mkEnv user_tf 0x1000 0 ENV_RUNNING sender_pgdir 0 false 0 0 0 0.

(** Environment 0x1001 in slot 1, child of 0x1000, blocked in
    [sys_ipc_recv] and willing to receive a page at 0x1000. *)
Definition receiver : Env :=
  mkEnv user_tf 0x1001 0x1000 ENV_NOT_RUNNABLE (mkAddrSpace 6 ∅) 0 true 0x1000 0 0 0.

(** A free slot of the environment table. *)
Definition free_env : Env :=
  mkEnv (mkTrapframe (mkPushRegs 0 0 0 0 0 0 0 0) 0 0 0 0 0 0 0 0 0 0 0 0 0)
    0 0 ENV_FREE (mkAddrSpace 0 ∅) 0 false 0 0 0 0.

(** The sender is the current environment; slots 2 and 3 and frames 7 and 8
    are free. *)
Definition ipc_state : KState :=
  mkKState {[ 0 := sender; 1 := receiver; 2 := free_env; 3 := free_env ]} [2; 3] 0
    {[ 2 := 1; 3 := 1; 5 := 1; 6 := 1 ]} [7; 8] ∅.

(** The state a call leaves, [d] when the kernel stops. *)
Definition after {A : Type} (r : option (A * KState)) (d : KState) : KState :=
  match r with
  | Some (_, s) => s
  | None => d
  end.

(** After the sender sent 42 and its page at 0x2000, read-only. *)
Definition ipc_state_sent : KState :=
  after (sys_ipc_try_send 0x1001 42 0x2000 5 ipc_state) ipc_state.

(** The receiver blocked without asking for a page: [dstva] is UTOP. *)
Definition receiver_no_page : Env :=
  mkEnv user_tf 0x1001 0x1000 ENV_NOT_RUNNABLE (mkAddrSpace 6 ∅) 0 true UTOP 0 0 0.

Definition ipc_state_no_page : KState :=
  mkKState {[ 0 := sender; 1 := receiver_no_page ]} [] 0
    {[ 2 := 1; 3 := 1; 5 := 1; 6 := 1 ]} [7; 8] ∅.

(** An environment with a registered upcall that faults with its stack
    pointer at [UXSTACKTOP - 1]; its exception stack is frame 9, mapped
    [PTE_U | PTE_W | PTE_P] at [UXSTACKTOP - PGSIZE]. *)
Definition fault_tf : Trapframe :=
  mkTrapframe user_regs 0x23 0 0x23 0 14 6 0x800020 0x1b 0 0x202 0xeebfffff 0x23 0.

Definition fault_pgdir : AddrSpace :=
  mkAddrSpace 2 {[ 0 := mkPageTable 3 {[ 2 := 0x5005 ]};
                   954 := mkPageTable 4 {[ 1023 := 0x9007 ]} ]}.

Definition faulting : Env :=
  mkEnv fault_tf 0x1000 0 ENV_RUNNING fault_pgdir 0x800100 false 0 0 0 0.

Definition fault_state : KState :=
  mkKState {[ 0 := faulting ]} [] 0
    {[ 2 := 1; 3 := 1; 4 := 1; 5 := 1; 9 := 1 ]} [7; 8] ∅.

(** An environment with a registered upcall but no exception stack, that
    faults on its normal stack. *)
Definition faulting_no_stack : Env :=
  mkEnv user_tf 0x1000 0 ENV_RUNNING sender_pgdir 0x800100 false 0 0 0 0.

Definition fault_state_no_stack : KState :=
  mkKState {[ 0 := faulting_no_stack ]} [] 0
    {[ 2 := 1; 3 := 1; 5 := 1 ]} [7; 8] ∅.

End Examples.

(** * Concrete inputs for the rest of the code *)

Module Examples2.

#[local] Existing Instance jos_headers.
#[local] Existing Instance jos_trap_headers.
#[local] Existing Instance idle_collaborators.
#[local] Existing Instance jos_fs_headers.

(** What [read_eflags()] reads in the kernel: interrupts are off. *)
Definition kernel_eflags : Z := 0x2.

(** The frame of [int $T_SYSCALL] with the number of a system call in
    [eax] and its first argument in [edx]. *)
Definition syscall_tf (no a1 : Z) : Trapframe :=
  mkTrapframe (mkPushRegs 1 2 3 4 5 a1 7 no)
    0x23 0 0x23 0 48 0 0x800020 0x1b 0 0x202 0xeebfdf00 0x23 0.

(** The frame of the trap [no] from user mode, and from the kernel. *)
Definition user_trap_tf (no : Z) : Trapframe :=
  mkTrapframe Examples.user_regs
    0x23 0 0x23 0 no 0 0x800020 0x1b 0 0x202 0xeebfdf00 0x23 0.

Definition kernel_trap_tf (no : Z) : Trapframe :=
  mkTrapframe Examples.user_regs
    0x10 0 0x10 0 no 0 0xf0100020 0x08 0 0x2 0 0 0.

(** The two environments of [Examples.ipc_state] with no frame free. *)
Definition no_memory : KState := set_page_free_list [] Examples.ipc_state.

(** And with one frame free. *)
Definition one_frame : KState := set_page_free_list [7] Examples.ipc_state.

(** Environment 0x1001 runs and is about to receive; environment 0x1000
    is runnable. *)
Definition receiving : KState :=
  mkKState
    {[ 0 := set_env_status ENV_RUNNABLE Examples.sender;
       1 := mkEnv Examples.user_tf 0x1001 0x1000 ENV_RUNNING (mkAddrSpace 6 ∅)
              0 false 0 0 0 0 ]}
    [] 1 {[ 2 := 1; 3 := 1; 5 := 1; 6 := 1 ]} [7; 8] ∅.

(** The processor at the entry of a handler, with the frame of a page
    fault from user mode on the kernel stack. *)
Definition cpu_at_entry : Cpu :=
  mkCpu 8 7 6 5 0xefffffe8 3 2 1 0x23 0x23
    (hardware_frame (Some 6) 0x800020 0x1b 0x202 0xeebfdf00 0x23)
    (fun _ => 0xabcd).

(** A [strtol] for running the code: it reads decimal digits. *)
Fixpoint digits (s : string) (acc : Z) : Z * string :=
  match s with
  | EmptyString => (acc, s)
  | String c r =>
      let n := Z.of_nat (nat_of_ascii c) - 48 in
      if (0 <=? n) && (n <=? 9) then digits r (acc * 10 + n) else (acc, s)
  end.

Definition decimal_strtol : LibString := {| strtol := fun s _ => digits s 0 |}.

(** A disk driver for running the code: every transfer succeeds. *)
Definition idle_ide : IdeDriver := {|
  ide_read := fun _ _ _ => ret 0;
  ide_write := fun _ _ _ => ret 0
|}.

(** The environment of the file system, with block 1 of the disk in its
    cache: frame 9 at [DISKMAP + BLKSIZE], writable and dirty. *)
Definition fs_env : Env :=
  mkEnv Examples.user_tf 0x1000 0 ENV_RUNNING
    (mkAddrSpace 2 {[ 64 := mkPageTable 3 {[ 1 := 0x9047 ]} ]})
    0 false 0 0 0 0.

Definition fs_state : KState :=
  mkKState {[ 0 := fs_env ]} [] 0 {[ 2 := 1; 3 := 1; 9 := 1 ]} [7; 8] ∅.

End Examples2.

(** * Properties *)

Section Proofs.

Context `{HD : Headers}.

Ltac kred :=
  unfold bind, ret, gets, modify, deref, panic, env_modify in *; simpl in *.

(** ** Updates of one environment *)

Lemma lookup_update_env_eq (e : Z) (f : Env -> Env) (s : KState) :
  envs (update_env e f s) !! e = f <$> envs s !! e.
Proof. simpl. rewrite lookup_alter. by rewrite decide_True. Qed.

Lemma lookup_update_env_ne (e e' : Z) (f : Env -> Env) (s : KState) :
  e <> e' -> envs (update_env e f s) !! e' = envs s !! e'.
Proof. intros. simpl. rewrite lookup_alter. by rewrite decide_False. Qed.

Lemma update_env_Some (e : Z) (f : Env -> Env) (s : KState) (x : Env) :
  envs s !! e = Some x -> update_env e f s = set_envs (<[e := f x]> (envs s)) s.
Proof.
  intros H. unfold update_env. f_equal. apply map_eq. intros i.
  rewrite lookup_alter, lookup_insert.
  case_decide; [subst; rewrite H|]; reflexivity.
Qed.

Lemma update_env_compose (e : Z) (f g : Env -> Env) (s : KState) :
  update_env e f (update_env e g s) = update_env e (fun x => f (g x)) s.
Proof.
  unfold update_env, set_envs. simpl. f_equal.
  apply map_eq. intros i. rewrite !lookup_alter.
  repeat case_decide; simplify_eq; try done.
  by destruct (envs s !! i).
Qed.

(** ** A relation kept between the state before and the state after *)

Section Kpre.

Context (R : KState -> KState -> Prop) `{!Reflexive R} `{!Transitive R}.

Lemma kpre_ret {A : Type} (a : A) : kpre R (ret a).
Proof. intros s a' s' H. injection H as _ <-. reflexivity. Qed.

Lemma kpre_gets {A : Type} (f : KState -> A) : kpre R (gets f).
Proof. intros s a' s' H. injection H as _ <-. reflexivity. Qed.

Lemma kpre_panic {A : Type} : kpre R (@panic A).
Proof. intros s a' s' H. discriminate. Qed.

Lemma kpre_deref (e : Z) : kpre R (deref e).
Proof.
  intros s a' s' H. unfold deref in H.
  destruct (envs s !! e); simplify_eq. reflexivity.
Qed.

Lemma kpre_modify (f : KState -> KState) :
  (forall s, R s (f s)) -> kpre R (modify f).
Proof. intros Hf s a' s' H. injection H as _ <-. apply Hf. Qed.

Lemma kpre_bind {A B : Type} (m : K A) (f : A -> K B) :
  kpre R m -> (forall a, kpre R (f a)) -> kpre R (bind m f).
Proof.
  intros Hm Hf s b s' H. unfold bind in H.
  destruct (m s) as [[a s1]|] eqn:E; [|discriminate].
  etransitivity; [exact (Hm _ _ _ E)|exact (Hf _ _ _ _ H)].
Qed.

End Kpre.

Ltac kpre_step :=
  first
    [ apply kpre_ret; solve [typeclasses eauto]
    | apply kpre_gets; solve [typeclasses eauto]
    | apply kpre_panic
    | apply kpre_deref; solve [typeclasses eauto]
    | apply kpre_bind; [typeclasses eauto | | intros ?]
    | match goal with
      | |- kpre _ (match ?x with _ => _ end) => destruct x
      end ].

(** The functions that only read. *)

Lemma envid2env_state (envid : Z) (cp : bool) : kpre eq (envid2env envid cp).
Proof. unfold envid2env. repeat kpre_step. Qed.

Lemma page_lookup_state (e va : Z) : kpre eq (page_lookup e va).
Proof. unfold page_lookup. repeat kpre_step. Qed.

Lemma user_mem_check_state (e va len perm : Z) : kpre eq (user_mem_check e va len perm).
Proof. unfold user_mem_check. repeat kpre_step. Qed.

Lemma load_bytes_state (n : nat) (va : Z) : kpre eq (load_bytes va n).
Proof.
  revert va. induction n as [|n IH]; intros va; simpl.
  - repeat kpre_step.
  - unfold load_byte, va2pa.
    repeat first [kpre_step | apply IH | apply page_lookup_state].
Qed.

(** ** The page functions leave the environments alone *)

#[local] Instance same_envs_refl : Reflexive same_envs.
Proof. intros s. repeat split. Qed.

#[local] Instance same_envs_trans : Transitive same_envs.
Proof.
  intros a b c (H1 & H2 & H3) (G1 & G2 & G3).
  split; [congruence|]. split; [congruence|].
  intros e. rewrite H3. apply G3.
Qed.

Lemma same_envs_pgdir (e : Z) (g : Env -> AddrSpace) (s : KState) :
  same_envs s (update_env e (fun en => set_env_pgdir (g en) en) s).
Proof.
  split; [reflexivity|]. split; [reflexivity|].
  intros i. simpl. rewrite lookup_alter. case_decide; [subst|done].
  by destruct (envs s !! i).
Qed.

Ltac same_envs_tac :=
  repeat first
    [ kpre_step
    | apply kpre_modify; intros ?;
      first [ apply same_envs_pgdir | split; [reflexivity|]; split; reflexivity ] ].

Lemma page_alloc_same_envs (z : bool) : kpre same_envs (page_alloc z).
Proof. unfold page_alloc. same_envs_tac. Qed.

Lemma page_free_same_envs (pp : Z) : kpre same_envs (page_free pp).
Proof. unfold page_free. same_envs_tac. Qed.

Lemma page_incref_same_envs (pp : Z) : kpre same_envs (page_incref pp).
Proof. unfold page_incref. same_envs_tac. Qed.

Lemma page_decref_same_envs (pp : Z) : kpre same_envs (page_decref pp).
Proof.
  unfold page_decref, page_free. same_envs_tac.
Qed.

Lemma page_lookup_same_envs (e va : Z) : kpre same_envs (page_lookup e va).
Proof. unfold page_lookup. same_envs_tac. Qed.

Lemma pgdir_walk_create_same_envs (e va : Z) : kpre same_envs (pgdir_walk_create e va).
Proof.
  unfold pgdir_walk_create.
  repeat first [ apply page_alloc_same_envs | apply page_incref_same_envs | same_envs_tac ].
Qed.

Lemma page_remove_same_envs (e va : Z) : kpre same_envs (page_remove e va).
Proof.
  unfold page_remove.
  repeat first [ apply page_lookup_same_envs | apply page_decref_same_envs | same_envs_tac ].
Qed.

Lemma page_insert_same_envs (e pp va perm : Z) : kpre same_envs (page_insert e pp va perm).
Proof.
  unfold page_insert.
  repeat first [ apply pgdir_walk_create_same_envs | apply page_incref_same_envs
               | apply page_remove_same_envs | same_envs_tac ].
Qed.


Lemma forget_pgdir_eq (a b : Env) :
  forget_pgdir a = forget_pgdir b -> a = set_env_pgdir (env_pgdir a) b.
Proof. destruct a, b. unfold forget_pgdir, set_env_pgdir. simpl. congruence. Qed.

Lemma same_envs_lookup (s1 s2 : KState) (e : Z) (a : Env) :
  same_envs s1 s2 -> envs s1 !! e = Some a ->
  exists b, envs s2 !! e = Some b /\ a = set_env_pgdir (env_pgdir a) b.
Proof.
  intros (_ & _ & H) Ha. specialize (H e). rewrite Ha in H.
  destruct (envs s2 !! e) as [b|]; [|discriminate].
  exists b. split; [reflexivity|]. apply forget_pgdir_eq. simpl in H. congruence.
Qed.

Lemma same_envs_lookup_None (s1 s2 : KState) (e : Z) :
  same_envs s1 s2 -> envs s1 !! e = None -> envs s2 !! e = None.
Proof.
  intros (_ & _ & H) Ha. specialize (H e). rewrite Ha in H.
  destruct (envs s2 !! e) as [b|]; [discriminate|reflexivity].
Qed.

Lemma envid2env_same_envs (s1 s2 : KState) (envid : Z) (cp : bool) (r : Z * Z) :
  same_envs s1 s2 ->
  envid2env envid cp s1 = Some (r, s1) -> envid2env envid cp s2 = Some (r, s2).
Proof.
  intros Hs. pose proof Hs as (Hc & _ & _).
  unfold envid2env. kred. rewrite <- Hc.
  destruct (envid =? 0); [intros; simplify_eq; reflexivity|].
  destruct (envs s1 !! ENVX envid) as [a|] eqn:Ea.
  - destruct (same_envs_lookup _ _ _ _ Hs Ea) as (b & -> & Hab).
    rewrite Hab. simpl.
    destruct (EnvStatus_eqb (env_status b) ENV_FREE || negb (env_id b =? envid));
      [intros; simplify_eq; reflexivity|].
    destruct (cp && negb (ENVX envid =? curenv s1)); [|intros; simplify_eq; reflexivity].
    destruct (envs s1 !! curenv s1) as [c|] eqn:Ec; [|discriminate].
    destruct (same_envs_lookup _ _ _ _ Hs Ec) as (c' & -> & Hcc).
    rewrite Hcc. simpl.
    destruct (negb (env_parent_id b =? env_id c')); intros; simplify_eq; reflexivity.
  - rewrite (same_envs_lookup_None _ _ _ Hs Ea). intros; simplify_eq; reflexivity.
Qed.

(** [envid2env] returns 0 and the environment, or [-E_BAD_ENV] and NULL. *)
Lemma envid2env_result (s s' : KState) (envid : Z) (cp : bool) (r : Z * Z) :
  envid2env envid cp s = Some (r, s') ->
  s' = s /\ (fst r = 0 \/ r = (- E_BAD_ENV, 0)).
Proof.
  intros H. split; [symmetry; exact (envid2env_state _ _ _ _ _ H)|].
  unfold envid2env in H. kred.
  repeat case_match; simplify_eq; auto.
Qed.


(** ** The page table of an address survives the page functions *)

#[local] Instance keeps_table_refl (e va : Z) : Reflexive (keeps_table e va).
Proof. intros s H. exact H. Qed.

#[local] Instance keeps_table_trans (e va : Z) : Transitive (keeps_table e va).
Proof. intros a b c H1 H2 H. exact (H2 (H1 H)). Qed.

Lemma keeps_table_pte_write (e va e' va' v : Z) (s : KState) :
  keeps_table e va s
    (update_env e' (fun en => set_env_pgdir (pte_write va' v (env_pgdir en)) en) s).
Proof.
  intros (en & He & Ht). unfold has_table. simpl. rewrite lookup_alter.
  case_decide; [subst e'|eauto]. rewrite He. simpl.
  eexists. split; [reflexivity|]. simpl. rewrite lookup_alter.
  case_decide; [|exact Ht]. destruct Ht as [pt Hpt].
  replace (PDX va') with (PDX va) by done. rewrite Hpt. simpl. eauto.
Qed.

Lemma keeps_table_add_pgtable (e va e' va' pp : Z) (s : KState) :
  keeps_table e va s
    (update_env e' (fun en => set_env_pgdir (add_pgtable va' pp (env_pgdir en)) en) s).
Proof.
  intros (en & He & Ht). unfold has_table. simpl. rewrite lookup_alter.
  case_decide; [subst e'|eauto]. rewrite He. simpl.
  eexists. split; [reflexivity|]. simpl. rewrite lookup_insert.
  case_decide; [eauto|exact Ht].
Qed.

Ltac keeps_table_tac :=
  repeat first
    [ kpre_step
    | apply kpre_modify; intros ?;
      first [ apply keeps_table_pte_write | apply keeps_table_add_pgtable
            | intros Ht; exact Ht ] ].

Lemma page_alloc_keeps_table (e va : Z) (z : bool) : kpre (keeps_table e va) (page_alloc z).
Proof. unfold page_alloc. keeps_table_tac. Qed.

Lemma page_incref_keeps_table (e va pp : Z) : kpre (keeps_table e va) (page_incref pp).
Proof. unfold page_incref. keeps_table_tac. Qed.

Lemma page_decref_keeps_table (e va pp : Z) : kpre (keeps_table e va) (page_decref pp).
Proof. unfold page_decref, page_free. keeps_table_tac. Qed.

Lemma page_remove_keeps_table (e va e' va' : Z) :
  kpre (keeps_table e va) (page_remove e' va').
Proof.
  unfold page_remove, page_lookup.
  repeat first [ apply page_decref_keeps_table | keeps_table_tac ].
Qed.

Lemma pgdir_walk_create_has_table (e va : Z) (s s' : KState) :
  pgdir_walk_create e va s = Some (true, s') -> has_table e va s'.
Proof.
  unfold pgdir_walk_create, page_alloc, page_incref. kred.
  destruct (envs s !! e) as [en|] eqn:He; [|discriminate].
  destruct (pd_tables (env_pgdir en) !! PDX va) as [pt|] eqn:Hpt.
  - intros H. simplify_eq. exists en. eauto.
  - destruct (page_free_list s) as [|pp rest]; [discriminate|]. simpl.
    intros H. simplify_eq. unfold has_table. simpl.
    rewrite lookup_alter, decide_True, He by done. simpl.
    eexists. split; [reflexivity|]. simpl. rewrite lookup_insert_eq. eauto.
Qed.

Lemma pte_read_pte_write (pd : AddrSpace) (va v : Z) :
  is_Some (pd_tables pd !! PDX va) -> pte_read (pte_write va v pd) va = Some v.
Proof.
  intros [pt Hpt]. unfold pte_read, pte_write. simpl.
  rewrite lookup_alter, decide_True, Hpt by done. simpl.
  by rewrite lookup_insert_eq.
Qed.

(** [page_insert] fails with [-E_NO_MEM] or installs the entry. *)
Lemma page_insert_result (e pp va perm r : Z) (s s' : KState) :
  page_insert e pp va perm s = Some (r, s') ->
  r = - E_NO_MEM \/
  (r = 0 /\ exists en', envs s' !! e = Some en' /\
     pte_read (env_pgdir en') va = Some (Z.lor (Z.lor (page2pa pp) perm) PTE_P)).
Proof.
  unfold page_insert. unfold bind at 1.
  destruct (pgdir_walk_create e va s) as [[[|] s1]|] eqn:Ew; [|simpl|discriminate].
  2: { intros H. injection H as <- _. by left. }
  simpl. apply pgdir_walk_create_has_table in Ew.
  unfold bind at 1.
  destruct (page_incref pp s1) as [[[] s2]|] eqn:Ei; [|discriminate].
  apply (page_incref_keeps_table e va) in Ei. apply Ei in Ew.
  unfold bind at 1.
  destruct (page_remove e va s2) as [[[] s3]|] eqn:Er; [|discriminate].
  apply (page_remove_keeps_table e va) in Er. apply Er in Ew.
  destruct Ew as (en & He & Ht).
  kred. intros H. simplify_eq. right. split; [reflexivity|].
  simpl. rewrite lookup_alter, decide_True, He by done. simpl.
  eexists. split; [reflexivity|]. simpl. by apply pte_read_pte_write.
Qed.


Lemma same_envs_sym (s1 s2 : KState) : same_envs s1 s2 -> same_envs s2 s1.
Proof. intros (H1 & H2 & H3). split; [done|]. split; [done|]. intros e. by rewrite H3. Qed.

(** ** [sys_ipc_try_send] *)

Lemma update_ipc_fields_spec (e value perm : Z) (s : KState) (en c : Env) :
  envs s !! e = Some en ->
  envs s !! curenv s = Some c ->
  update_ipc_fields e value perm s
  = Some (0, update_env e (ipc_delivered (env_id c) value perm) s).
Proof.
  intros He Hc. unfold update_ipc_fields. kred.
  assert (Hc' : exists c', envs (update_env e (set_env_ipc_recving false) s) !! curenv s = Some c'
                           /\ env_id c' = env_id c).
  { destruct (decide (e = curenv s)) as [->|Hne].
    - rewrite lookup_update_env_eq, Hc. simpl. eauto.
    - rewrite lookup_update_env_ne, Hc by done. eauto. }
  destruct Hc' as (c' & Hc' & Hid). simpl in Hc'. rewrite Hc'.
  rewrite !update_env_compose. rewrite Hid. reflexivity.
Qed.

Lemma update_ipc_fields_inv (e value perm r : Z) (s s' : KState) (en : Env) :
  envs s !! e = Some en ->
  update_ipc_fields e value perm s = Some (r, s') ->
  exists c, envs s !! curenv s = Some c /\ r = 0 /\
            s' = update_env e (ipc_delivered (env_id c) value perm) s.
Proof.
  intros He H. destruct (envs s !! curenv s) as [c|] eqn:Hc.
  - rewrite (update_ipc_fields_spec _ _ _ _ _ _ He Hc) in H. simplify_eq. eauto.
  - exfalso. unfold update_ipc_fields in H. kred.
    rewrite lookup_alter in H.
    case_decide; [subst e; rewrite Hc in He; discriminate|].
    rewrite Hc in H. discriminate.
Qed.

(** The write check of [sys_ipc_try_send] can never fire. *)
Lemma sys_ipc_try_send_write_check_dead (perm pte : Z) :
  PTE_W <> 0 ->
  negb (Z.land perm PTE_W =? 0) && (Z.lor pte PTE_W =? 0) = false.
Proof.
  intros HW. destruct (Z.eqb_spec (Z.lor pte PTE_W) 0) as [H|H].
  - apply Z.lor_eq_0_iff in H as [_ H]. contradiction.
  - apply andb_false_r.
Qed.

Lemma sys_ipc_try_send_not_recving
    (s : KState) (envid value srcva perm e : Z) (en : Env) :
  envid2env envid false s = Some ((0, e), s) ->
  envs s !! e = Some en ->
  env_ipc_recving en = false ->
  sys_ipc_try_send envid value srcva perm s = Some (- E_IPC_NOT_RECV, s).
Proof.
  intros Hr He Hrecv.
  unfold sys_ipc_try_send, bind at 1. rewrite Hr. simpl.
  unfold bind at 1, deref at 1. rewrite He, Hrecv. reflexivity.
Qed.

(** C2: after a successful [sys_ipc_try_send] the destination has
    [env_ipc_recving] 0, [env_ipc_from] the identifier of the caller,
    [env_ipc_value] the value, [env_ipc_perm] [perm] when a page was
    transferred and 0 otherwise, status [ENV_RUNNABLE] and saved [eax] 0;
    every later send that resolves to the same destination, from whatever
    current environment, fails with [-E_IPC_NOT_RECV] until the receive flag
    is set again. *)
Theorem sys_ipc_try_send_success
    (s s' : KState) (envid value srcva perm : Z) :
  errnos_positive ->
  sys_ipc_try_send envid value srcva perm s = Some (0, s') ->
  exists (e : Z) (en c en' : Env),
    envid2env envid false s = Some ((0, e), s)
    /\ envs s !! e = Some en
    /\ envs s !! curenv s = Some c
    /\ envs s' !! e = Some en'
    /\ env_ipc_recving en' = false
    /\ env_ipc_from en' = env_id c
    /\ env_ipc_value en' = value
    /\ env_ipc_perm en'
       = (if page_transferred (env_ipc_dstva en) srcva then perm else 0)
    /\ env_status en' = ENV_RUNNABLE
    /\ reg_eax (tf_regs (env_tf en')) = 0
    /\ (if page_transferred (env_ipc_dstva en) srcva
        then exists pp pte,
               page_lookup (curenv s) srcva s = Some (Some (pp, pte), s)
               /\ pte_read (env_pgdir en') (env_ipc_dstva en)
                  = Some (Z.lor (Z.lor (page2pa pp) perm) PTE_P)
        else s' = update_env e (ipc_delivered (env_id c) value 0) s)
    /\ forall cur2 envid2 value2 srcva2 perm2 : Z,
         envid2env envid2 false (set_curenv cur2 s')
           = Some ((0, e), set_curenv cur2 s') ->
         sys_ipc_try_send envid2 value2 srcva2 perm2 (set_curenv cur2 s')
           = Some (- E_IPC_NOT_RECV, set_curenv cur2 s').
Proof.
  intros (Hbad & Hinval & Hnomem & _ & _ & Hnotrecv) H.
  unfold sys_ipc_try_send in H. unfold bind at 1 in H.
  destruct (envid2env envid false s) as [[[r0 e] s0]|] eqn:Er; [|discriminate].
  destruct (envid2env_result _ _ _ _ _ Er) as [-> [Hr0|Hr0]]; simpl in Hr0;
    [subst r0 | injection Hr0 as -> ->].
  2: { simpl in H. destruct (Z.ltb_spec (- E_BAD_ENV) 0); [|lia].
       injection H as H _. lia. }
  simpl in H. unfold bind at 1, deref at 1 in H.
  destruct (envs s !! e) as [en|] eqn:He; [|discriminate].
  destruct (env_ipc_recving en) eqn:Hrecv; simpl in H;
    [|injection H as H _; lia].
  assert (Hsecond : forall en', envs s' !! e = Some en' -> env_ipc_recving en' = false ->
    forall cur2 envid2 value2 srcva2 perm2 : Z,
      envid2env envid2 false (set_curenv cur2 s') = Some ((0, e), set_curenv cur2 s') ->
      sys_ipc_try_send envid2 value2 srcva2 perm2 (set_curenv cur2 s')
        = Some (- E_IPC_NOT_RECV, set_curenv cur2 s')).
  { intros en' He' Hn cur2 envid2 value2 srcva2 perm2 Hr2.
    by apply sys_ipc_try_send_not_recving with (e := e) (en := en'). }
  unfold page_transferred.
  destruct (env_ipc_dstva en <? UTOP) eqn:Hdst; simpl in H |- *.
  2: { destruct (update_ipc_fields_inv _ _ _ _ _ _ _ He H) as (c & Hc & _ & ->).
       exists e, en, c, (ipc_delivered (env_id c) value 0 en).
       assert (He' : envs (update_env e (ipc_delivered (env_id c) value 0) s) !! e
                     = Some (ipc_delivered (env_id c) value 0 en))
         by (rewrite lookup_update_env_eq, He; reflexivity).
       rewrite ?Hdst, ?Hsrc. simpl.
       repeat (split; [done|]). by apply Hsecond with (en' := ipc_delivered (env_id c) value 0 en). }
  destruct (srcva <? UTOP) eqn:Hsrc; simpl in H |- *.
  2: { destruct (update_ipc_fields_inv _ _ _ _ _ _ _ He H) as (c & Hc & _ & ->).
       exists e, en, c, (ipc_delivered (env_id c) value 0 en).
       assert (He' : envs (update_env e (ipc_delivered (env_id c) value 0) s) !! e
                     = Some (ipc_delivered (env_id c) value 0 en))
         by (rewrite lookup_update_env_eq, He; reflexivity).
       rewrite ?Hdst, ?Hsrc. simpl.
       repeat (split; [done|]). by apply Hsecond with (en' := ipc_delivered (env_id c) value 0 en). }
  destruct (negb (PGOFF srcva =? 0)); [injection H as H _; lia|].
  destruct (negb (Z.land perm (Z.lor PTE_U PTE_P) =? Z.lor PTE_U PTE_P)
            || negb (Z.land perm (Z.lnot PTE_SYSCALL) =? 0));
    [injection H as H _; lia|].
  unfold bind at 1, gets at 1 in H. unfold bind at 1 in H.
  destruct (page_lookup (curenv s) srcva s) as [[l s1]|] eqn:El; [|discriminate].
  pose proof (page_lookup_state _ _ _ _ _ El) as <-.
  destruct l as [[pp pte]|]; [|injection H as H _; lia].
  destruct (negb (Z.land perm PTE_W =? 0) && (Z.lor pte PTE_W =? 0));
    [injection H as H _; lia|].
  unfold bind at 1 in H.
  destruct (page_insert e pp (env_ipc_dstva en) perm s) as [[r2 s2]|] eqn:Ei;
    [|discriminate].
  pose proof (page_insert_same_envs _ _ _ _ _ _ _ Ei) as Hsame.
  destruct (page_insert_result _ _ _ _ _ _ _ Ei) as [->|(-> & en2 & He2 & Hpte)].
  { destruct (Z.ltb_spec (- E_NO_MEM) 0); [|lia]. injection H as H _. lia. }
  simpl in H.
  destruct (update_ipc_fields_inv _ _ _ _ _ _ _ He2 H) as (c2 & Hc2 & _ & ->).
  destruct (same_envs_lookup _ _ _ _ (same_envs_sym _ _ Hsame) Hc2) as (c & Hc & Hcc).
  destruct Hsame as (Hcur & _ & _). rewrite <- Hcur in Hc.
  assert (Hid : env_id c2 = env_id c) by (rewrite Hcc; reflexivity).
  exists e, en, c, (ipc_delivered (env_id c2) value perm en2).
  assert (He' : envs (update_env e (ipc_delivered (env_id c2) value perm) s2) !! e
                = Some (ipc_delivered (env_id c2) value perm en2))
    by (rewrite lookup_update_env_eq, He2; reflexivity).
  rewrite Hdst. simpl.
  repeat (split; [done|]).
  split; [eauto|].
  by apply Hsecond with (en' := ipc_delivered (env_id c2) value perm en2).
Qed.

(** C6: [sys_page_map] with resolved environments, addresses and [perm] that
    pass the checks, [perm] asking for write and a source entry without the
    write bit returns [-E_INVAL] and leaves the whole kernel state, the
    destination's address space included, as it was. *)
Theorem sys_page_map_write_guard
    (s : KState) (srcenvid srcva dstenvid dstva perm se de pp pte : Z) :
  envid2env srcenvid true s = Some ((0, se), s) ->
  envid2env dstenvid true s = Some ((0, de), s) ->
  srcva < UTOP -> PGOFF srcva = 0 ->
  dstva < UTOP -> PGOFF dstva = 0 ->
  Z.land perm (Z.lor PTE_U PTE_P) = Z.lor PTE_U PTE_P ->
  Z.land perm (Z.lnot PTE_SYSCALL) = 0 ->
  Z.land perm PTE_W <> 0 ->
  page_lookup se srcva s = Some (Some (pp, pte), s) ->
  Z.land pte PTE_W = 0 ->
  sys_page_map srcenvid srcva dstenvid dstva perm s = Some (- E_INVAL, s).
Proof.
  intros Hs Hd Hsv Hso Hdv Hdo Hp1 Hp2 Hw Hl Hpte.
  unfold sys_page_map, bind at 1. rewrite Hs. simpl.
  unfold bind at 1. rewrite Hd. simpl.
  rewrite Hso, Hdo, Hp1, Hp2, !Z.eqb_refl. simpl.
  destruct (Z.leb_spec UTOP srcva); [lia|].
  destruct (Z.leb_spec UTOP dstva); [lia|]. simpl.
  unfold bind. rewrite Hl. rewrite Hpte.
  destruct (Z.eqb_spec (Z.land perm PTE_W) 0); [contradiction|]. reflexivity.
Qed.

(** C9: when the destination resolves and is receive-blocked with an
    advertised address at or above UTOP, [sys_ipc_try_send] succeeds for
    every [srcva] and every [perm]: nothing is checked, no page is mapped,
    and the recorded permissions are 0. *)
Theorem sys_ipc_try_send_no_page_wanted
    (s : KState) (envid value srcva perm e : Z) (en c : Env) :
  envid2env envid false s = Some ((0, e), s) ->
  envs s !! e = Some en ->
  envs s !! curenv s = Some c ->
  env_ipc_recving en = true ->
  UTOP <= env_ipc_dstva en ->
  sys_ipc_try_send envid value srcva perm s
    = Some (0, update_env e (ipc_delivered (env_id c) value 0) s)
  /\ envs (update_env e (ipc_delivered (env_id c) value 0) s) !! e
     = Some (ipc_delivered (env_id c) value 0 en)
  /\ env_ipc_perm (ipc_delivered (env_id c) value 0 en) = 0
  /\ env_pgdir (ipc_delivered (env_id c) value 0 en) = env_pgdir en.
Proof.
  intros Hr He Hc Hrecv Hdst.
  split; [|split; [|split; reflexivity]].
  - unfold sys_ipc_try_send, bind at 1. rewrite Hr. simpl.
    unfold bind at 1, deref at 1. rewrite He, Hrecv. simpl.
    destruct (Z.ltb_spec (env_ipc_dstva en) UTOP); [lia|]. simpl.
    by apply update_ipc_fields_spec with (en := en).
  - rewrite lookup_update_env_eq, He. reflexivity.
Qed.

(** ** [sys_page_unmap] *)

Lemma PGOFF_mod (va : Z) : 0 <= PGSHIFT -> PGOFF va = va mod PGSIZE.
Proof.
  intros H. unfold PGOFF, PGSIZE.
  rewrite <- (Z.land_ones va PGSHIFT H). f_equal.
  rewrite Z.ones_equiv. lia.
Qed.

Lemma page_decref_total (pp : Z) (s : KState) :
  exists s', page_decref pp s = Some (tt, s') /\ envs s' = envs s.
Proof.
  unfold page_decref, page_free. kred.
  destruct (pp_ref _ pp =? 0); eexists; split; reflexivity.
Qed.

Lemma page_lookup_unfold (e va : Z) (s : KState) (en : Env) :
  envs s !! e = Some en ->
  page_lookup e va s
  = Some (match pte_read (env_pgdir en) va with
          | Some pte => if Z.land pte PTE_P =? 0 then None
                        else Some (pa2page (PTE_ADDR pte), pte)
          | None => None
          end, s).
Proof.
  intros He. unfold page_lookup. kred. rewrite He.
  destruct (pte_read (env_pgdir en) va) as [pte|]; [|reflexivity].
  destruct (Z.land pte PTE_P =? 0); reflexivity.
Qed.

Lemma page_remove_unmapped (e va : Z) (s : KState) :
  page_lookup e va s = Some (None, s) -> page_remove e va s = Some (tt, s).
Proof. intros H. unfold page_remove, bind. rewrite H. reflexivity. Qed.

(** After [page_remove] nothing is mapped at the address. *)
Lemma page_remove_total (e va : Z) (s : KState) (en : Env) :
  envs s !! e = Some en ->
  exists s', page_remove e va s = Some (tt, s')
             /\ page_lookup e va s' = Some (None, s').
Proof.
  intros He. unfold page_remove, bind at 1.
  rewrite (page_lookup_unfold _ _ _ _ He).
  destruct (pte_read (env_pgdir en) va) as [pte|] eqn:Hpte.
  2: { exists s. split; [reflexivity|].
       by rewrite (page_lookup_unfold _ _ _ _ He), Hpte. }
  destruct (Z.land pte PTE_P =? 0) eqn:Hp.
  { exists s. split; [reflexivity|].
    by rewrite (page_lookup_unfold _ _ _ _ He), Hpte, Hp. }
  destruct (page_decref_total (pa2page (PTE_ADDR pte)) s) as (s1 & Hd & He1).
  unfold bind at 1. rewrite Hd. kred.
  eexists. split; [reflexivity|].
  assert (Ht : is_Some (pd_tables (env_pgdir en) !! PDX va)).
  { unfold pte_read in Hpte. destruct (pd_tables (env_pgdir en) !! PDX va); [eauto|discriminate]. }
  erewrite page_lookup_unfold.
  2: { rewrite lookup_update_env_eq, He1, He. reflexivity. }
  simpl. rewrite (pte_read_pte_write _ _ _ Ht). reflexivity.
Qed.

(** C8: for an identifier that resolves with caller permission and a
    page-aligned [va] below UTOP, [sys_page_unmap] returns 0, also when
    nothing is mapped at [va] (the state is then unchanged); a second call
    with the same arguments returns 0 again and leaves the state the first
    call produced. *)
Theorem sys_page_unmap_idempotent (s : KState) (envid va e : Z) (en : Env) :
  0 <= PGSHIFT ->
  envid2env envid true s = Some ((0, e), s) ->
  envs s !! e = Some en ->
  va < UTOP ->
  va mod PGSIZE = 0 ->
  exists s1,
    sys_page_unmap envid va s = Some (0, s1)
    /\ sys_page_unmap envid va s1 = Some (0, s1)
    /\ (page_lookup e va s = Some (None, s) -> s1 = s).
Proof.
  intros Hsh Hr He Hva Hal.
  destruct (page_remove_total e va s en He) as (s1 & Hrm & Hl1).
  assert (Hchk : (UTOP <=? va) || negb (PGOFF va =? 0) = false).
  { rewrite (PGOFF_mod _ Hsh), Hal. simpl.
    destruct (Z.leb_spec UTOP va); [lia|reflexivity]. }
  exists s1. split; [|split].
  - unfold sys_page_unmap, bind at 1. rewrite Hr. simpl. rewrite Hchk.
    unfold bind. rewrite Hrm. reflexivity.
  - pose proof (page_remove_same_envs _ _ _ _ _ Hrm) as Hsame.
    unfold sys_page_unmap, bind at 1.
    rewrite (envid2env_same_envs _ _ _ _ _ Hsame Hr). simpl. rewrite Hchk.
    unfold bind. rewrite (page_remove_unmapped _ _ _ Hl1). reflexivity.
  - intros Hn. rewrite (page_remove_unmapped _ _ _ Hn) in Hrm. congruence.
Qed.

(** ** [sys_page_alloc] *)

Lemma land_covers_lor (a b c : Z) :
  Z.land a (Z.lor b c) = Z.lor b c <-> Z.land a b = b /\ Z.land a c = c.
Proof.
  split.
  - intros H.
    split; apply Z.bits_inj'; intros n Hn;
      apply (f_equal (fun x => Z.testbit x n)) in H;
      rewrite Z.land_spec, Z.lor_spec in H; rewrite Z.land_spec;
      destruct (Z.testbit a n), (Z.testbit b n), (Z.testbit c n);
      simpl in *; congruence.
  - intros [H1 H2]. rewrite Z.land_lor_distr_r. congruence.
Qed.

Lemma perm_check_spec (perm : Z) :
  negb (Z.land perm (Z.lor PTE_U PTE_P) =? Z.lor PTE_U PTE_P)
  || negb (Z.land perm (Z.lnot PTE_SYSCALL) =? 0) = true
  <-> (Z.land perm PTE_U <> PTE_U \/ Z.land perm PTE_P <> PTE_P
       \/ Z.land perm (Z.lnot PTE_SYSCALL) <> 0).
Proof.
  rewrite orb_true_iff, !negb_true_iff, !Z.eqb_neq, land_covers_lor.
  destruct (Z.eq_dec (Z.land perm PTE_U) PTE_U), (Z.eq_dec (Z.land perm PTE_P) PTE_P);
    tauto.
Qed.

Lemma addr_check_spec (va : Z) :
  0 <= PGSHIFT ->
  (UTOP <=? va) || negb (PGOFF va =? 0) = true
  <-> (UTOP <= va \/ va mod PGSIZE <> 0).
Proof.
  intros H. rewrite orb_true_iff, negb_true_iff, Z.eqb_neq, Z.leb_le, (PGOFF_mod _ H).
  reflexivity.
Qed.

Lemma sys_page_alloc_checked (s : KState) (envid va perm e : Z) :
  envid2env envid true s = Some ((0, e), s) ->
  sys_page_alloc envid va perm s
  = if (UTOP <=? va) || negb (PGOFF va =? 0) then Some (- E_INVAL, s)
    else if negb (Z.land perm (Z.lor PTE_U PTE_P) =? Z.lor PTE_U PTE_P)
            || negb (Z.land perm (Z.lnot PTE_SYSCALL) =? 0)
    then Some (- E_INVAL, s)
    else match page_free_list s with
         | [] => Some (- E_NO_MEM, s)
         | pp :: rest =>
             let s1 := set_physmem (<[pp := ∅]> (physmem s)) (set_page_free_list rest s) in
             match page_insert e pp va perm s1 with
             | Some (r2, s2) =>
                 if r2 <? 0
                 then Some (r2, set_page_free_list (pp :: page_free_list s2) s2)
                 else Some (0, s2)
             | None => None
             end
         end.
Proof.
  intros Hr. unfold sys_page_alloc, bind at 1. rewrite Hr. simpl.
  destruct ((UTOP <=? va) || negb (PGOFF va =? 0)); [reflexivity|].
  destruct (negb (Z.land perm (Z.lor PTE_U PTE_P) =? Z.lor PTE_U PTE_P)
            || negb (Z.land perm (Z.lnot PTE_SYSCALL) =? 0)); [reflexivity|].
  unfold page_alloc, page_free. kred.
  destruct (page_free_list s) as [|pp rest]; [reflexivity|]. simpl.
  destruct (page_insert e pp va perm _) as [[r2 s2]|]; [|reflexivity].
  destruct (r2 <? 0); reflexivity.
Qed.

(** C4: for an identifier that resolves with caller permission,
    [sys_page_alloc] returns [-E_INVAL] exactly when [va >= UTOP], or [va]
    is not page-aligned, or [perm] lacks [PTE_U] or [PTE_P], or [perm] has a
    bit outside [PTE_SYSCALL]; [va = UTOP] fails with [-E_INVAL], and at
    [va = UTOP - PGSIZE] the address check passes: only [perm] can still
    cause [-E_INVAL]. *)
Theorem sys_page_alloc_inval_iff (s : KState) (envid va perm e : Z) :
  0 <= PGSHIFT -> 0 < E_INVAL -> E_INVAL <> E_NO_MEM ->
  envid2env envid true s = Some ((0, e), s) ->
  ((exists s', sys_page_alloc envid va perm s = Some (- E_INVAL, s'))
   <-> (UTOP <= va \/ va mod PGSIZE <> 0
        \/ Z.land perm PTE_U <> PTE_U \/ Z.land perm PTE_P <> PTE_P
        \/ Z.land perm (Z.lnot PTE_SYSCALL) <> 0))
  /\ sys_page_alloc envid UTOP perm s = Some (- E_INVAL, s)
  /\ (UTOP mod PGSIZE = 0 ->
      ((exists s', sys_page_alloc envid (UTOP - PGSIZE) perm s = Some (- E_INVAL, s'))
       <-> (Z.land perm PTE_U <> PTE_U \/ Z.land perm PTE_P <> PTE_P
            \/ Z.land perm (Z.lnot PTE_SYSCALL) <> 0))).
Proof.
  intros Hsh Hinv Hne Hr.
  assert (Hiff : forall va,
    (exists s', sys_page_alloc envid va perm s = Some (- E_INVAL, s'))
    <-> (UTOP <= va \/ va mod PGSIZE <> 0
         \/ Z.land perm PTE_U <> PTE_U \/ Z.land perm PTE_P <> PTE_P
         \/ Z.land perm (Z.lnot PTE_SYSCALL) <> 0)).
  { clear va. intros va.
    rewrite (sys_page_alloc_checked _ _ _ _ _ Hr).
    pose proof (addr_check_spec va Hsh) as Ha.
    pose proof (perm_check_spec perm) as Hp.
    destruct ((UTOP <=? va) || negb (PGOFF va =? 0)).
    { split; [intros _; tauto | intros _; eauto]. }
    destruct (negb (Z.land perm (Z.lor PTE_U PTE_P) =? Z.lor PTE_U PTE_P)
              || negb (Z.land perm (Z.lnot PTE_SYSCALL) =? 0)).
    { split; [intros _; tauto | intros _; eauto]. }
    split.
    - intros [s' H]. exfalso.
      destruct (page_free_list s) as [|pp rest]; [injection H as H _; lia|].
      simpl in H.
      destruct (page_insert e pp va perm _) as [[r2 s2]|] eqn:Ei; [|discriminate].
      destruct (page_insert_result _ _ _ _ _ _ _ Ei) as [->|[-> _]].
      + destruct (- E_NO_MEM <? 0); injection H as H _; lia.
      + simpl in H. injection H as H _; lia.
    - intros H. exfalso.
      assert (false = true) as Hf; [|discriminate Hf].
      destruct H as [H|[H|H]]; [apply Ha; tauto | apply Ha; tauto | apply Hp; tauto]. }
  split; [apply Hiff|]. split.
  - rewrite (sys_page_alloc_checked _ _ _ _ _ Hr).
    destruct (Z.leb_spec UTOP UTOP); [reflexivity|lia].
  - intros Hal. rewrite Hiff.
    assert (0 < PGSIZE) by (unfold PGSIZE; apply Z.pow_pos_nonneg; lia).
    assert ((UTOP - PGSIZE) mod PGSIZE = 0).
    { replace (UTOP - PGSIZE) with (UTOP + (-1) * PGSIZE) by lia.
      rewrite Z.mod_add by lia. exact Hal. }
    split; [intros [?|[?|?]]; [lia|contradiction|assumption] | tauto].
Qed.

Lemma page_decref_unfold (pp : Z) (s : KState) :
  page_decref pp s = Some (tt, decref_state pp s).
Proof.
  unfold page_decref, page_free, decref_state. kred.
  destruct (pp_ref _ pp =? 0); reflexivity.
Qed.

Lemma pgdir_walk_create_existing (e va : Z) (s : KState) (en : Env) :
  envs s !! e = Some en ->
  is_Some (pd_tables (env_pgdir en) !! PDX va) ->
  pgdir_walk_create e va s = Some (true, s).
Proof.
  intros He [pt Hpt]. unfold pgdir_walk_create. kred. by rewrite He, Hpt.
Qed.

Lemma pte_read_table (pd : AddrSpace) (va pte : Z) :
  pte_read pd va = Some pte -> is_Some (pd_tables pd !! PDX va).
Proof.
  unfold pte_read. destruct (pd_tables pd !! PDX va); [eauto|discriminate].
Qed.

Lemma page_remove_mapped (e va pte : Z) (s : KState) (en : Env) :
  envs s !! e = Some en ->
  pte_read (env_pgdir en) va = Some pte ->
  (Z.land pte PTE_P =? 0) = false ->
  page_remove e va s
  = Some (tt, update_env e (fun en => set_env_pgdir (pte_write va 0 (env_pgdir en)) en)
                (decref_state (pa2page (PTE_ADDR pte)) s)).
Proof.
  intros He Hpte Hp. unfold page_remove, bind at 1.
  rewrite (page_lookup_unfold _ _ _ _ He), Hpte, Hp.
  unfold bind at 1. rewrite page_decref_unfold. reflexivity.
Qed.

Lemma envs_decref_state (pp : Z) (s : KState) : envs (decref_state pp s) = envs s.
Proof. unfold decref_state. simpl. by destruct (_ =? 0). Qed.

Lemma pages_decref_state (pp : Z) (s : KState) :
  pages (decref_state pp s) = <[pp := pp_ref s pp - 1]> (pages s).
Proof. unfold decref_state. simpl. by destruct (_ =? 0). Qed.

Lemma physmem_decref_state (pp : Z) (s : KState) :
  physmem (decref_state pp s) = physmem s.
Proof. unfold decref_state. simpl. by destruct (_ =? 0). Qed.

Lemma free_list_decref_state (pp : Z) (s : KState) :
  page_free_list (decref_state pp s)
  = if pp_ref s pp - 1 =? 0 then pp :: page_free_list s else page_free_list s.
Proof.
  unfold decref_state, pp_ref. simpl. rewrite lookup_insert_eq. simpl.
  by destruct (_ =? 0).
Qed.

Lemma pte_write_table (pd : AddrSpace) (va v x : Z) :
  is_Some (pd_tables pd !! x) -> is_Some (pd_tables (pte_write va v pd) !! x).
Proof.
  intros H. unfold pte_write. simpl. rewrite lookup_alter.
  case_decide; [|exact H]. subst x. by rewrite fmap_is_Some.
Qed.

Lemma page_insert_mapped (e pp va perm pte : Z) (s : KState) (en : Env) :
  envs s !! e = Some en ->
  pte_read (env_pgdir en) va = Some pte ->
  (Z.land pte PTE_P =? 0) = false ->
  page_insert e pp va perm s
  = Some (0, update_env e
               (fun en => set_env_pgdir
                  (pte_write va (Z.lor (Z.lor (page2pa pp) perm) PTE_P)
                     (pte_write va 0 (env_pgdir en))) en)
               (decref_state (pa2page (PTE_ADDR pte)) (incref_state pp s))).
Proof.
  intros He Hpte Hp. unfold page_insert, bind at 1.
  rewrite (pgdir_walk_create_existing _ _ _ _ He (pte_read_table _ _ _ Hpte)).
  simpl. unfold bind at 1, page_incref at 1, modify at 1.
  unfold bind at 1.
  rewrite (page_remove_mapped e va pte (set_pages _ s) en He Hpte Hp).
  kred. rewrite update_env_compose. reflexivity.
Qed.

Lemma lor_absorb (a b : Z) : Z.land a b = b -> Z.lor a b = a.
Proof.
  intros H. apply Z.bits_inj'. intros n Hn.
  apply (f_equal (fun x => Z.testbit x n)) in H.
  rewrite Z.land_spec in H. rewrite Z.lor_spec.
  destruct (Z.testbit a n), (Z.testbit b n); simpl in *; congruence.
Qed.

(** C10: a successful [sys_page_alloc] at an address where a page is
    mapped replaces the mapping: the frame taken from the free list is
    zeroed and installed at [va] with permission [perm] and its count goes up
    by one; the count of the frame mapped before goes down by one, and that
    frame returns to the free list when the count reaches zero.  A mapped
    frame is not on the free list (the ownership invariant of the spec). *)
Theorem sys_page_alloc_replaces_mapping
    (s s' : KState) (envid va perm e old pte0 : Z) :
  0 < E_INVAL -> 0 < E_NO_MEM ->
  envid2env envid true s = Some ((0, e), s) ->
  page_lookup e va s = Some (Some (old, pte0), s) ->
  old ∉ page_free_list s ->
  sys_page_alloc envid va perm s = Some (0, s') ->
  exists (new : Z) (rest : list Z) (en' : Env),
    page_free_list s = new :: rest
    /\ envs s' !! e = Some en'
    /\ pte_read (env_pgdir en') va = Some (Z.lor (Z.lor (page2pa new) perm) PTE_P)
    /\ Z.lor (Z.lor (page2pa new) perm) PTE_P = Z.lor (page2pa new) perm
    /\ (forall off, frame_byte s' new off = 0)
    /\ pp_ref s' new = pp_ref s new + 1
    /\ pp_ref s' old = pp_ref s old - 1
    /\ page_free_list s' = (if pp_ref s old =? 1 then old :: rest else rest).
Proof.
  intros Hinv Hnomem Hr Hl Hfree H.
  rewrite (sys_page_alloc_checked _ _ _ _ _ Hr) in H.
  destruct ((UTOP <=? va) || negb (PGOFF va =? 0)); [injection H as H _; lia|].
  destruct (negb (Z.land perm (Z.lor PTE_U PTE_P) =? Z.lor PTE_U PTE_P)
            || negb (Z.land perm (Z.lnot PTE_SYSCALL) =? 0)) eqn:Hperm;
    [injection H as H _; lia|].
  apply orb_false_iff in Hperm as [Hup _].
  apply negb_false_iff, Z.eqb_eq, land_covers_lor in Hup as [_ HP].
  destruct (page_free_list s) as [|new rest] eqn:Hfl; [injection H as H _; lia|].
  simpl in H.
  (* the page mapped before the call *)
  unfold page_lookup in Hl. kred.
  destruct (envs s !! e) as [en|] eqn:He; [|discriminate].
  destruct (pte_read (env_pgdir en) va) as [pte|] eqn:Hpte; [|discriminate].
  destruct (Z.land pte PTE_P =? 0) eqn:Hp; [discriminate|].
  injection Hl as <- <-.
  set (old := pa2page (PTE_ADDR pte)) in *.
  assert (Hne : old <> new).
  { intros ->. apply Hfree. left. }
  match type of H with
  | context [page_insert e new va perm ?s1] =>
      rewrite (page_insert_mapped e new va perm pte s1 en He Hpte Hp) in H
  end.
  simpl in H. injection H as <-. fold old.
  exists new, rest.
  eexists. split; [reflexivity|].
  split.
  { rewrite lookup_update_env_eq, envs_decref_state. simpl. rewrite He. reflexivity. }
  split.
  { simpl. apply pte_read_pte_write, pte_write_table.
    exact (pte_read_table _ _ _ Hpte). }
  split.
  { rewrite <- Z.lor_assoc. f_equal. by apply lor_absorb. }
  split.
  { intros off. unfold frame_byte. simpl. rewrite physmem_decref_state. simpl.
    rewrite lookup_insert_eq. reflexivity. }
  split.
  { unfold pp_ref at 1. simpl. rewrite pages_decref_state. simpl.
    rewrite lookup_insert_ne, lookup_insert_eq by done. reflexivity. }
  split.
  { unfold pp_ref at 1. simpl. rewrite pages_decref_state. simpl.
    rewrite lookup_insert_eq. unfold pp_ref. simpl.
    rewrite lookup_insert_ne by done. reflexivity. }
  simpl. rewrite free_list_decref_state. simpl.
  unfold pp_ref at 1. simpl. rewrite lookup_insert_ne by done.
  fold (pp_ref s old).
  destruct (Z.eqb_spec (pp_ref s old - 1) 0), (Z.eqb_spec (pp_ref s old) 1);
    first [reflexivity | lia].
Qed.

(** ** [sys_exofork] *)

(** C7: a successful [sys_exofork] takes a free slot for a new environment
    whose status is [ENV_NOT_RUNNABLE] and whose saved frame is the caller's
    saved frame with [eax] set to 0, and returns the identifier of the new
    environment; the caller itself is unchanged.  The child is resumed from
    its saved frame, so the result it observes is the saved [eax], 0.  The
    current environment is not on the free list. *)
Theorem sys_exofork_success (s s' : KState) (r : Z) :
  0 < E_NO_FREE_ENV -> 0 < E_NO_MEM ->
  curenv s ∉ env_free_list s ->
  sys_exofork s = Some (r, s') ->
  0 <= r ->
  exists (e : Z) (rest : list Z) (c child : Env),
    envs s !! curenv s = Some c
    /\ env_free_list s = e :: rest
    /\ env_free_list s' = rest
    /\ envs s' !! e = Some child
    /\ env_id child = r
    /\ env_parent_id child = env_id c
    /\ env_status child = ENV_NOT_RUNNABLE
    /\ env_tf child = set_tf_regs (set_reg_eax 0 (tf_regs (env_tf c))) (env_tf c)
    /\ reg_eax (tf_regs (env_tf child)) = 0
    /\ envs s' !! curenv s' = Some c.
Proof.
  intros Hnf Hnm Hcur H Hr.
  unfold sys_exofork, env_alloc, page_alloc, page_incref in H. kred.
  destruct (envs s !! curenv s) as [c|] eqn:Hc; [|discriminate].
  destruct (env_free_list s) as [|e rest] eqn:Hfl; simpl in H.
  { destruct (Z.ltb_spec (- E_NO_FREE_ENV) 0); [|lia]. injection H as H _. lia. }
  destruct (page_free_list s) as [|pp prest] eqn:Hpl; simpl in H.
  { destruct (Z.ltb_spec (- E_NO_MEM) 0); [|lia]. injection H as H _. lia. }
  destruct (envs s !! e) as [old|] eqn:Ho; [|discriminate]. simpl in H.
  assert (Hne : e <> curenv s).
  { intros ->. apply Hcur. left. }
  rewrite lookup_alter_ne, lookup_insert_ne, Hc in H by done. simpl in H.
  rewrite !lookup_alter_eq, lookup_insert_eq in H. simpl in H.
  injection H as <- <-.
  exists e, rest, c. eexists.
  split; [reflexivity|]. split; [reflexivity|]. split; [reflexivity|].
  split.
  { simpl. rewrite !lookup_alter_eq, lookup_insert_eq. reflexivity. }
  simpl. repeat (split; [reflexivity|]).
  rewrite !lookup_alter_ne, lookup_insert_ne by done. exact Hc.
Qed.

(** ** [sys_env_set_trapframe] *)

Lemma eflags_clamp_IF (f : Z) :
  Z.land FL_IF FL_IOPL_MASK = 0 ->
  Z.land (Z.land (Z.lor f FL_IF) (Z.lnot FL_IOPL_MASK)) FL_IF = FL_IF.
Proof.
  intros H. apply Z.bits_inj'. intros n Hn.
  apply (f_equal (fun x => Z.testbit x n)) in H.
  rewrite Z.land_spec, Z.bits_0 in H.
  rewrite !Z.land_spec, Z.lor_spec, Z.lnot_spec by exact Hn.
  destruct (Z.testbit f n), (Z.testbit FL_IF n), (Z.testbit FL_IOPL_MASK n);
    simpl in *; congruence.
Qed.

Lemma eflags_clamp_IOPL (f : Z) :
  Z.land (Z.land (Z.lor f FL_IF) (Z.lnot FL_IOPL_MASK)) FL_IOPL_MASK = 0.
Proof.
  rewrite <- Z.land_assoc, (Z.land_comm (Z.lnot _)), Z.land_lnot_diag.
  apply Z.land_0_r.
Qed.

Lemma eflags_clamp_other (f n : Z) :
  Z.testbit FL_IF n = false -> Z.testbit FL_IOPL_MASK n = false ->
  Z.testbit (Z.land (Z.lor f FL_IF) (Z.lnot FL_IOPL_MASK)) n = Z.testbit f n.
Proof.
  intros H1 H2. destruct (Z.neg_nonneg_cases n) as [Hn|Hn].
  - by rewrite !Z.testbit_neg_r.
  - rewrite Z.land_spec, Z.lor_spec, Z.lnot_spec, H1, H2 by exact Hn.
    by destruct (Z.testbit f n).
Qed.

(** C5: after a successful [sys_env_set_trapframe] the saved frame of the
    target is the supplied frame (the bytes at [tf], read through the
    caller's page directory) except that [ds], [es] and [ss] are [GD_UD | 3],
    [cs] is [GD_UT | 3], the flag [FL_IF] is set and the IOPL bits are zero;
    every other bit of the flags is the supplied one. *)
Theorem sys_env_set_trapframe_success (s s' : KState) (envid tf : Z) :
  0 < E_BAD_ENV -> 0 < E_FAULT ->
  Z.land FL_IF FL_IOPL_MASK = 0 ->
  sys_env_set_trapframe envid tf s = Some (0, s') ->
  exists (e : Z) (bs : list Z) (en' : Env),
    envid2env envid true s = Some ((0, e), s)
    /\ user_mem_check e tf sizeof_Trapframe PTE_U s = Some (0, s)
    /\ load_bytes tf (Z.to_nat sizeof_Trapframe) s = Some (bs, s)
    /\ envs s' !! e = Some en'
    /\ env_tf en' = clamped_tf (Trapframe_of_bytes bs)
    /\ tf_ds (env_tf en') = Z.lor GD_UD 3
    /\ tf_es (env_tf en') = Z.lor GD_UD 3
    /\ tf_ss (env_tf en') = Z.lor GD_UD 3
    /\ tf_cs (env_tf en') = Z.lor GD_UT 3
    /\ Z.land (tf_eflags (env_tf en')) FL_IF = FL_IF
    /\ Z.land (tf_eflags (env_tf en')) FL_IOPL_MASK = 0
    /\ forall n, Z.testbit FL_IF n = false -> Z.testbit FL_IOPL_MASK n = false ->
         Z.testbit (tf_eflags (env_tf en')) n
         = Z.testbit (tf_eflags (Trapframe_of_bytes bs)) n.
Proof.
  intros Hbad Hfault Hdisj H.
  unfold sys_env_set_trapframe in H.
  remember (load_bytes tf (Z.to_nat sizeof_Trapframe)) as lb eqn:Hlb.
  unfold bind at 1 in H.
  destruct (envid2env envid true s) as [[[r0 e] s0]|] eqn:Er; [|discriminate].
  destruct (envid2env_result _ _ _ _ _ Er) as [-> [Hr0|Hr0]]; simpl in Hr0;
    [subst r0 | injection Hr0 as -> ->].
  2: { simpl in H. destruct (Z.ltb_spec (- E_BAD_ENV) 0); [|lia].
       injection H as H _. lia. }
  simpl in H. unfold bind at 1 in H.
  destruct (user_mem_check e tf sizeof_Trapframe PTE_U s) as [[r2 s1]|] eqn:Ec;
    [|discriminate].
  pose proof (user_mem_check_state _ _ _ _ _ _ _ Ec) as <-.
  assert (Hr2 : r2 = 0 \/ r2 = - E_FAULT).
  { unfold user_mem_check in Ec. kred.
    destruct (envs s !! e); [|discriminate].
    destruct (_ && _); injection Ec as <-; auto. }
  assert (He : exists en, envs s !! e = Some en).
  { unfold user_mem_check in Ec. kred.
    destruct (envs s !! e); [eauto|discriminate]. }
  destruct He as [en He].
  destruct Hr2 as [->| ->].
  2: { destruct (Z.ltb_spec (- E_FAULT) 0); [|lia]. unfold ret in H. injection H as H _. lia. }
  simpl in H. unfold bind at 1 in H.
  destruct (lb s) as [[bs s1]|] eqn:El; [|discriminate].
  subst lb.
  pose proof (load_bytes_state _ _ _ _ _ El) as <-.
  unfold bind, env_modify, modify, ret in H. simpl in H. injection H as <-.
  exists e, bs. eexists.
  split; [reflexivity|]. split; [exact Ec|]. split; [reflexivity|].
  split.
  { simpl. rewrite !lookup_alter_eq, He. reflexivity. }
  simpl. repeat (split; [reflexivity|]).
  split; [by apply eflags_clamp_IF|].
  split; [apply eflags_clamp_IOPL|].
  apply eflags_clamp_other.
Qed.

(** ** User memory *)

Lemma va2pa_unfold (a : Z) (s : KState) (c : Env) :
  envs s !! curenv s = Some c ->
  va2pa a s = match translate (env_pgdir c) a with
              | Some pa => Some (pa, s)
              | None => None
              end.
Proof.
  intros Hc. unfold va2pa, bind at 1, gets at 1. unfold bind.
  rewrite (page_lookup_unfold _ _ _ _ Hc). unfold translate.
  destruct (pte_read (env_pgdir c) a) as [pte|]; [|reflexivity].
  destruct (Z.land pte PTE_P =? 0); reflexivity.
Qed.

Lemma pte_allows_translate (perm : Z) (pd : AddrSpace) (a : Z) :
  PTE_P <> 0 -> pte_allows perm pd a = true -> is_Some (translate pd a).
Proof.
  intros HP. unfold pte_allows, translate.
  destruct (pte_read pd a) as [pte|]; [|discriminate].
  intros H. apply Z.eqb_eq, land_covers_lor in H as [_ H].
  destruct (Z.eqb_spec (Z.land pte PTE_P) 0); [congruence|eauto].
Qed.

Lemma store_byte_unfold (a b : Z) (s : KState) (c : Env) (pa : Z * Z) :
  envs s !! curenv s = Some c ->
  translate (env_pgdir c) a = Some pa ->
  store_byte a b s
  = Some (tt, set_physmem
       (<[fst pa := <[snd pa := b]> (default ∅ (physmem s !! fst pa))]> (physmem s)) s).
Proof.
  intros Hc Ht. unfold store_byte, bind. by rewrite (va2pa_unfold _ _ _ Hc), Ht.
Qed.

Lemma load_byte_unfold (a : Z) (s : KState) (c : Env) (pa : Z * Z) :
  envs s !! curenv s = Some c ->
  translate (env_pgdir c) a = Some pa ->
  load_byte a s = Some (frame_byte s (fst pa) (snd pa), s).
Proof.
  intros Hc Ht. unfold load_byte, bind. by rewrite (va2pa_unfold _ _ _ Hc), Ht.
Qed.

Lemma frame_byte_poke (s : KState) (pa pb : Z * Z) (b : Z) :
  frame_byte (set_physmem
    (<[fst pa := <[snd pa := b]> (default ∅ (physmem s !! fst pa))]> (physmem s)) s)
    (fst pb) (snd pb)
  = if decide (pa = pb) then b else frame_byte s (fst pb) (snd pb).
Proof.
  destruct pa as [p o], pb as [p' o']. unfold frame_byte. simpl.
  destruct (decide (p = p')) as [->|Hp].
  - rewrite lookup_insert_eq.
    destruct (decide (o = o')) as [->|Ho].
    + rewrite lookup_insert_eq, decide_True by done. reflexivity.
    + rewrite lookup_insert_ne, decide_False by congruence.
      destruct (physmem s !! p'); reflexivity.
  - rewrite lookup_insert_ne, decide_False by congruence. reflexivity.
Qed.

(** Storing bytes through the current page directory: the store succeeds
    when every address is mapped, touches only the physical bytes the
    addresses name, and reads back when no two addresses name the same
    physical byte. *)
Lemma store_bytes_spec (c : Env) (bs : list Z) :
  forall (a : Z) (s : KState),
    envs s !! curenv s = Some c ->
    (forall i, 0 <= i < Z.of_nat (length bs) -> is_Some (translate (env_pgdir c) (a + i))) ->
    exists s',
      store_bytes a bs s = Some (tt, s')
      /\ envs s' = envs s /\ curenv s' = curenv s
      /\ pages s' = pages s /\ page_free_list s' = page_free_list s
      /\ env_free_list s' = env_free_list s
      /\ (forall pa, (forall i, 0 <= i < Z.of_nat (length bs) ->
                        translate (env_pgdir c) (a + i) <> Some pa) ->
                     frame_byte s' (fst pa) (snd pa) = frame_byte s (fst pa) (snd pa))
      /\ ((forall i j, 0 <= i < j -> j < Z.of_nat (length bs) ->
             translate (env_pgdir c) (a + i) <> translate (env_pgdir c) (a + j)) ->
          load_bytes a (length bs) s' = Some (bs, s')).
Proof.
  induction bs as [|b bs IH]; intros a s Hc Hmap.
  - exists s. simpl. repeat split; intros; reflexivity.
  - destruct (Hmap 0) as [pa Hpa]; [simpl; lia|]. rewrite Z.add_0_r in Hpa.
    set (s1 := set_physmem
       (<[fst pa := <[snd pa := b]> (default ∅ (physmem s !! fst pa))]> (physmem s)) s).
    destruct (IH (a + 1) s1) as (s' & Hst & He & Hcu & Hpg & Hfl & Hefl & Hframe & Hload).
    { exact Hc. }
    { intros i Hi. replace (a + 1 + i) with (a + (i + 1)) by lia.
      apply Hmap. simpl length. lia. }
    exists s'. split.
    { simpl. unfold bind. rewrite (store_byte_unfold _ _ _ _ _ Hc Hpa). exact Hst. }
    repeat (split; [assumption|]).
    split.
    { intros pb Hpb. rewrite Hframe.
      - unfold s1. rewrite frame_byte_poke.
        rewrite decide_False; [reflexivity|].
        intros ->. apply (Hpb 0); [simpl length; lia|]. by rewrite Z.add_0_r.
      - intros i Hi. replace (a + 1 + i) with (a + (i + 1)) by lia.
        apply Hpb. simpl length. lia. }
    intros Hinj.
    assert (Hc' : envs s' !! curenv s' = Some c) by (rewrite He, Hcu; exact Hc).
    simpl. unfold bind at 1.
    rewrite (load_byte_unfold _ _ _ _ Hc' Hpa).
    rewrite Hframe.
    2: { intros i Hi. replace (a + 1 + i) with (a + (i + 1)) by lia.
         rewrite <- Hpa. intros Heq. symmetry in Heq. revert Heq.
         rewrite <- (Z.add_0_r a) at 1. apply Hinj; simpl length; lia. }
    unfold s1. rewrite frame_byte_poke, decide_True by done.
    unfold bind. rewrite Hload; [reflexivity|].
    intros i j Hij Hj.
    replace (a + 1 + i) with (a + (i + 1)) by lia.
    replace (a + 1 + j) with (a + (j + 1)) by lia.
    apply Hinj; simpl length; lia.
Qed.

(** ** [page_fault_handler] *)

Lemma user_mem_check_ok (e va len perm : Z) (s : KState) (en : Env) :
  envs s !! e = Some en ->
  0 <= va -> va + len <= 2 ^ 32 ->
  (forall i, 0 <= i < len -> pte_allows perm (env_pgdir en) (va + i) = true) ->
  user_mem_check e va len perm s = Some (0, s).
Proof.
  intros He H0 H1 Hall. unfold user_mem_check. kred. rewrite He.
  destruct (Z.leb_spec 0 va); [|lia].
  destruct (Z.leb_spec (va + len) (2 ^ 32)); [|lia]. simpl.
  replace (forallb _ _) with true; [reflexivity|].
  symmetry. apply forallb_forall. intros i Hi.
  apply list_elem_of_In, elem_of_seqZ in Hi. apply Hall. lia.
Qed.

Lemma length_bytes_of_UTrapframe (u : UTrapframe) :
  Z.of_nat (length (bytes_of_UTrapframe u)) = sizeof_UTrapframe.
Proof. reflexivity. Qed.

Lemma upcall_esp_wrap (esp : Z) :
  PGSIZE + 4 + sizeof_UTrapframe <= UXSTACKTOP -> UXSTACKTOP <= 2 ^ 32 ->
  wrap32 ((if (UXSTACKTOP - PGSIZE <=? esp) && (esp <? UXSTACKTOP)
           then wrap32 (esp - 4) else UXSTACKTOP) - sizeof_UTrapframe)
  = upcall_frame_addr esp
  /\ 0 <= upcall_frame_addr esp
  /\ upcall_frame_addr esp + sizeof_UTrapframe <= 2 ^ 32.
Proof.
  intros H1 H2. unfold upcall_frame_addr, wrap32, sizeof_UTrapframe in *.
  assert (0 <= PGSIZE) by (unfold PGSIZE; apply Z.pow_nonneg; lia).
  destruct (Z.leb_spec (UXSTACKTOP - PGSIZE) esp), (Z.ltb_spec esp UXSTACKTOP); simpl.
  1: rewrite (Z.mod_small (esp - 4)) by lia.
  all: rewrite Z.mod_small by lia; lia.
Qed.

Lemma load_bytes_frame (n : nat) (a : Z) (s s' : KState) (c c' : Env) (bs : list Z) :
  envs s !! curenv s = Some c ->
  envs s' !! curenv s' = Some c' ->
  env_pgdir c' = env_pgdir c ->
  physmem s' = physmem s ->
  load_bytes a n s = Some (bs, s) ->
  load_bytes a n s' = Some (bs, s').
Proof.
  intros Hc Hc' Hpd Hmem. revert a bs.
  induction n as [|n IH]; intros a bs; simpl.
  - unfold ret. intros H. by simplify_eq.
  - unfold load_byte, bind, gets, ret.
    rewrite (va2pa_unfold _ _ _ Hc), (va2pa_unfold _ _ _ Hc'), Hpd.
    destruct (translate (env_pgdir c) a) as [pa|]; [|discriminate].
    destruct (load_bytes (a + 1) n s) as [[bs1 s1]|] eqn:El; [|discriminate].
    pose proof (load_bytes_state _ _ _ _ _ El) as <-.
    rewrite (IH _ _ El). intros H. simplify_eq.
    unfold frame_byte. rewrite Hmem. reflexivity.
Qed.

(** The upcall when the landing range is mapped user-writable. *)
Lemma upcall_frame_when_mapped (s : KState) (fault_va : Z) (c : Env) :
  PGSIZE + 4 + sizeof_UTrapframe <= UXSTACKTOP -> UXSTACKTOP <= 2 ^ 32 ->
  PTE_P <> 0 ->
  envs s !! curenv s = Some c ->
  Z.land (tf_cs (env_tf c)) 3 <> 0 ->
  env_pgfault_upcall c <> 0 ->
  (forall i, 0 <= i < sizeof_UTrapframe ->
     pte_allows (Z.lor (Z.lor PTE_U PTE_W) PTE_P) (env_pgdir c)
       (upcall_frame_addr (tf_esp (env_tf c)) + i) = true) ->
  let tf := env_tf c in
  let addr := upcall_frame_addr (tf_esp tf) in
  let utf := mkUTrapframe fault_va (tf_err tf) (tf_regs tf)
               (tf_eip tf) (tf_eflags tf) (tf_esp tf) in
  (UXSTACKTOP - PGSIZE <= tf_esp tf < UXSTACKTOP ->
     addr = tf_esp tf - 4 - sizeof_UTrapframe)
  /\ (~ (UXSTACKTOP - PGSIZE <= tf_esp tf < UXSTACKTOP) ->
     addr = UXSTACKTOP - sizeof_UTrapframe)
  /\ exists s1 s',
       page_fault_handler fault_va s = Some (env_run (curenv s), s')
       /\ store_bytes addr (bytes_of_UTrapframe utf)
            (update_env (curenv s) (set_env_tf (set_tf_esp addr tf)) s) = Some (tt, s1)
       /\ physmem s' = physmem s1
       /\ curenv s' = curenv s
       /\ envs s' = <[curenv s :=
            set_env_tf (set_tf_eip (env_pgfault_upcall c) (set_tf_esp addr tf)) c]> (envs s)
       /\ (forall pa,
             (forall i, 0 <= i < sizeof_UTrapframe ->
                translate (env_pgdir c) (addr + i) <> Some pa) ->
             frame_byte s' (fst pa) (snd pa) = frame_byte s (fst pa) (snd pa))
       /\ ((forall i j, 0 <= i < j -> j < sizeof_UTrapframe ->
              translate (env_pgdir c) (addr + i) <> translate (env_pgdir c) (addr + j)) ->
           load_bytes addr (Z.to_nat sizeof_UTrapframe) s'
           = Some (bytes_of_UTrapframe utf, s')).
Proof.
  intros Hlay1 Hlay2 HP Hc Hcs Hup Hmap tf addr utf.
  destruct (upcall_esp_wrap (tf_esp tf) Hlay1 Hlay2) as (Hwrap & Haddr0 & Haddr1).
  fold addr in Hwrap, Haddr0, Haddr1.
  split.
  { intros Hin. unfold addr, upcall_frame_addr.
    destruct (Z.leb_spec (UXSTACKTOP - PGSIZE) (tf_esp tf)); [|lia].
    destruct (Z.ltb_spec (tf_esp tf) UXSTACKTOP); [reflexivity|lia]. }
  split.
  { intros Hout. unfold addr, upcall_frame_addr.
    destruct (Z.leb_spec (UXSTACKTOP - PGSIZE) (tf_esp tf)); [|reflexivity].
    destruct (Z.ltb_spec (tf_esp tf) UXSTACKTOP); [lia|reflexivity]. }
  (* the state once the stack pointer is set *)
  set (c1 := set_env_tf (set_tf_esp addr tf) c).
  set (s0 := update_env (curenv s) (set_env_tf (set_tf_esp addr tf)) s).
  assert (Hs0 : s0 = set_envs (<[curenv s := c1]> (envs s)) s)
    by (apply update_env_Some; exact Hc).
  assert (Hc0 : envs s0 !! curenv s0 = Some c1).
  { rewrite Hs0. simpl. apply lookup_insert_eq. }
  destruct (store_bytes_spec c1 (bytes_of_UTrapframe utf) addr s0 Hc0)
    as (s1 & Hst & He1 & Hcu1 & Hpg1 & Hfl1 & Hefl1 & Hframe & Hload).
  { intros i Hi. rewrite length_bytes_of_UTrapframe in Hi.
    apply (pte_allows_translate _ _ _ HP (Hmap i Hi)). }
  exists s1, (update_env (curenv s)
                (fun en => set_env_tf (set_tf_eip (env_pgfault_upcall en) (env_tf en)) en) s1).
  split.
  { unfold page_fault_handler, bind at 1, gets at 1.
    unfold bind at 1, deref at 1. rewrite Hc. fold tf.
    destruct (Z.eqb_spec (Z.land (tf_cs tf) 3) 0); [contradiction|].
    destruct (Z.eqb_spec (env_pgfault_upcall c) 0); [contradiction|].
    cbv [negb].
    assert (Hmod : forall (k : K NoReturn),
      bind (if (UXSTACKTOP - PGSIZE <=? tf_esp tf) && (tf_esp tf <? UXSTACKTOP)
        then env_modify (curenv s) (fun en =>
               set_env_tf (set_tf_esp (wrap32 (tf_esp (env_tf en) - 4)) (env_tf en)) en)
        else env_modify (curenv s) (fun en =>
               set_env_tf (set_tf_esp UXSTACKTOP (env_tf en)) en))
        (fun _ => bind (env_modify (curenv s) (fun en =>
           set_env_tf (set_tf_esp (wrap32 (tf_esp (env_tf en) - sizeof_UTrapframe))
                                  (env_tf en)) en)) (fun _ => k)) s = k s0).
    { intros k. rewrite Hs0. unfold c1. rewrite <- Hwrap.
      destruct ((UXSTACKTOP - PGSIZE <=? tf_esp tf) && (tf_esp tf <? UXSTACKTOP));
        unfold bind, env_modify, modify; rewrite update_env_compose;
        rewrite (update_env_Some _ _ _ _ Hc); reflexivity. }
    rewrite Hmod.
    unfold bind at 1, deref at 1.
    replace (curenv s) with (curenv s0) by (rewrite Hs0; reflexivity).
    rewrite Hc0.
    unfold bind at 1, user_mem_assert, bind at 1.
    erewrite user_mem_check_ok; [|exact Hc0|exact Haddr0|exact Haddr1|exact Hmap].
    change (0 <? 0) with false. cbv beta iota. unfold ret at 1. cbv beta iota.
    unfold bind at 1. change (tf_esp (env_tf c1)) with addr. fold utf.
    rewrite Hst. reflexivity. }
  split; [exact Hst|]. split; [reflexivity|].
  split; [simpl; rewrite Hcu1, Hs0; reflexivity|].
  split.
  { simpl. rewrite He1, Hs0. simpl.
    apply map_eq. intros i. rewrite lookup_alter, !lookup_insert.
    case_decide; [subst i; rewrite decide_True by done|]; reflexivity. }
  split.
  { intros pa Hpa. transitivity (frame_byte s1 (fst pa) (snd pa)); [reflexivity|].
    rewrite Hframe; [rewrite Hs0; reflexivity|].
    intros i Hi. rewrite length_bytes_of_UTrapframe in Hi. by apply Hpa. }
  intros Hinj.
  assert (Hl1 : load_bytes addr (Z.to_nat sizeof_UTrapframe) s1
                = Some (bytes_of_UTrapframe utf, s1)).
  { apply Hload. intros i j Hij Hj. rewrite length_bytes_of_UTrapframe in Hj.
    by apply Hinj. }
  assert (Hcs1 : envs s1 !! curenv s1 = Some c1) by (rewrite He1, Hcu1; exact Hc0).
  apply (load_bytes_frame _ _ s1 _ c1
           (set_env_tf (set_tf_eip (env_pgfault_upcall c1) (env_tf c1)) c1));
    [exact Hcs1| |reflexivity|reflexivity|exact Hl1].
  simpl. replace (curenv s) with (curenv s1) by (rewrite Hcu1, Hs0; reflexivity).
  rewrite lookup_alter_eq, Hcs1. reflexivity.
Qed.

Lemma user_mem_check_inv (e va len perm r : Z) (s s' : KState) (en : Env) :
  0 < E_FAULT ->
  envs s !! e = Some en ->
  user_mem_check e va len perm s = Some (r, s') ->
  0 <= r ->
  forall i, 0 <= i < len -> pte_allows perm (env_pgdir en) (va + i) = true.
Proof.
  intros Hf He H Hr. unfold user_mem_check in H. kred. rewrite He in H.
  destruct (_ && forallb _ _) eqn:Hb; [|injection H as H _; lia].
  apply andb_true_iff in Hb as [_ Hb]. rewrite forallb_forall in Hb.
  intros i Hi. apply Hb. apply list_elem_of_In, elem_of_seqZ. lia.
Qed.

Lemma user_mem_check_cases (e va len perm : Z) (s : KState) (en : Env) :
  envs s !! e = Some en ->
  user_mem_check e va len perm s = Some (0, s)
  \/ user_mem_check e va len perm s = Some (- E_FAULT, s).
Proof.
  intros He. unfold user_mem_check. kred. rewrite He.
  destruct (_ && forallb _ _); [by left|by right].
Qed.

(** The check depends on the page directory of the environment only. *)
Lemma user_mem_check_same_pgdir
    (e va len perm r : Z) (s s0 : KState) (en en0 : Env) :
  envs s !! e = Some en -> envs s0 !! e = Some en0 ->
  env_pgdir en0 = env_pgdir en ->
  user_mem_check e va len perm s = Some (r, s) ->
  user_mem_check e va len perm s0 = Some (r, s0).
Proof.
  intros He He0 Hpd H. unfold user_mem_check in *. kred.
  rewrite He in H. rewrite He0, Hpd.
  destruct (_ && forallb _ _); by simplify_eq.
Qed.

(** The upcall when the landing range fails the check: the environment is
    destroyed, and nothing has been written. *)
Lemma upcall_frame_when_unmapped (s : KState) (fault_va : Z) (c : Env) :
  PGSIZE + 4 + sizeof_UTrapframe <= UXSTACKTOP -> UXSTACKTOP <= 2 ^ 32 ->
  0 < E_FAULT ->
  envs s !! curenv s = Some c ->
  Z.land (tf_cs (env_tf c)) 3 <> 0 ->
  env_pgfault_upcall c <> 0 ->
  user_mem_check (curenv s) (upcall_frame_addr (tf_esp (env_tf c))) sizeof_UTrapframe
    (Z.lor (Z.lor PTE_U PTE_W) PTE_P) s = Some (- E_FAULT, s) ->
  page_fault_handler fault_va s
  = Some (env_destroy (curenv s),
          update_env (curenv s)
            (set_env_tf (set_tf_esp (upcall_frame_addr (tf_esp (env_tf c))) (env_tf c))) s).
Proof.
  intros Hlay1 Hlay2 Hf Hc Hcs Hup Hchk.
  set (tf := env_tf c) in *. set (addr := upcall_frame_addr (tf_esp tf)) in *.
  destruct (upcall_esp_wrap (tf_esp tf) Hlay1 Hlay2) as (Hwrap & _ & _).
  fold addr in Hwrap.
  set (c1 := set_env_tf (set_tf_esp addr tf) c).
  set (s0 := update_env (curenv s) (set_env_tf (set_tf_esp addr tf)) s).
  assert (Hs0 : s0 = set_envs (<[curenv s := c1]> (envs s)) s)
    by (apply update_env_Some; exact Hc).
  assert (Hc0 : envs s0 !! curenv s = Some c1).
  { rewrite Hs0. simpl. apply lookup_insert_eq. }
  unfold page_fault_handler, bind at 1, gets at 1.
  unfold bind at 1, deref at 1. rewrite Hc. fold tf.
  destruct (Z.eqb_spec (Z.land (tf_cs tf) 3) 0); [contradiction|].
  destruct (Z.eqb_spec (env_pgfault_upcall c) 0); [contradiction|].
  cbv [negb].
  assert (Hmod : forall (k : K NoReturn),
    bind (if (UXSTACKTOP - PGSIZE <=? tf_esp tf) && (tf_esp tf <? UXSTACKTOP)
      then env_modify (curenv s) (fun en =>
             set_env_tf (set_tf_esp (wrap32 (tf_esp (env_tf en) - 4)) (env_tf en)) en)
      else env_modify (curenv s) (fun en =>
             set_env_tf (set_tf_esp UXSTACKTOP (env_tf en)) en))
      (fun _ => bind (env_modify (curenv s) (fun en =>
         set_env_tf (set_tf_esp (wrap32 (tf_esp (env_tf en) - sizeof_UTrapframe))
                                (env_tf en)) en)) (fun _ => k)) s = k s0).
  { intros k. rewrite Hs0. unfold c1. rewrite <- Hwrap.
    destruct ((UXSTACKTOP - PGSIZE <=? tf_esp tf) && (tf_esp tf <? UXSTACKTOP));
      unfold bind, env_modify, modify; rewrite update_env_compose;
      rewrite (update_env_Some _ _ _ _ Hc); reflexivity. }
  rewrite Hmod.
  unfold bind at 1, deref at 1. rewrite Hc0.
  unfold bind at 1, user_mem_assert, bind at 1.
  change (tf_esp (env_tf c1)) with addr.
  rewrite (user_mem_check_same_pgdir _ _ _ _ _ s s0 c c1 Hc Hc0 eq_refl Hchk).
  destruct (Z.ltb_spec (- E_FAULT) 0); [|lia]. reflexivity.
Qed.

(** C3 (amended): for a page fault from user mode in an environment with
    a registered upcall, the user trap frame is placed at
    [esp - 4 - sizeof(UTrapframe)] when the trap-time [esp] lies in
    [UXSTACKTOP - PGSIZE, UXSTACKTOP) (one scratch word is left; the value
    [UXSTACKTOP - 1] is in that interval) and at
    [UXSTACKTOP - sizeof(UTrapframe)] otherwise.  The check of that range
    for a user-writable mapping in the environment's address space either
    passes or fails with [-E_FAULT].  When it passes, the frame is written
    there, nothing else in memory changes, and the environment is resumed
    with [eip] the upcall and [esp] the address of the frame; the frame
    reads back when no two of its addresses share a physical byte.  When it
    fails, for either choice of the address, the environment is destroyed
    and not resumed: nothing is written to memory, and the only change is
    that the saved [esp] has been moved to the address. *)
Theorem page_fault_upcall_frame (s : KState) (fault_va : Z) (c : Env) :
  PGSIZE + 4 + sizeof_UTrapframe <= UXSTACKTOP -> UXSTACKTOP <= 2 ^ 32 ->
  PTE_P <> 0 -> 0 < E_FAULT ->
  envs s !! curenv s = Some c ->
  Z.land (tf_cs (env_tf c)) 3 <> 0 ->
  env_pgfault_upcall c <> 0 ->
  let tf := env_tf c in
  let addr := upcall_frame_addr (tf_esp tf) in
  let utf := mkUTrapframe fault_va (tf_err tf) (tf_regs tf)
               (tf_eip tf) (tf_eflags tf) (tf_esp tf) in
  let check := user_mem_check (curenv s) addr sizeof_UTrapframe
                 (Z.lor (Z.lor PTE_U PTE_W) PTE_P) s in
  (UXSTACKTOP - PGSIZE <= tf_esp tf < UXSTACKTOP ->
     addr = tf_esp tf - 4 - sizeof_UTrapframe)
  /\ (~ (UXSTACKTOP - PGSIZE <= tf_esp tf < UXSTACKTOP) ->
     addr = UXSTACKTOP - sizeof_UTrapframe)
  /\ (check = Some (0, s) \/ check = Some (- E_FAULT, s))
  /\ (check = Some (0, s) ->
      exists s1 s',
        page_fault_handler fault_va s = Some (env_run (curenv s), s')
        /\ store_bytes addr (bytes_of_UTrapframe utf)
             (update_env (curenv s) (set_env_tf (set_tf_esp addr tf)) s) = Some (tt, s1)
        /\ physmem s' = physmem s1
        /\ curenv s' = curenv s
        /\ envs s' = <[curenv s :=
             set_env_tf (set_tf_eip (env_pgfault_upcall c) (set_tf_esp addr tf)) c]> (envs s)
        /\ (forall pa,
              (forall i, 0 <= i < sizeof_UTrapframe ->
                 translate (env_pgdir c) (addr + i) <> Some pa) ->
              frame_byte s' (fst pa) (snd pa) = frame_byte s (fst pa) (snd pa))
        /\ ((forall i j, 0 <= i < j -> j < sizeof_UTrapframe ->
               translate (env_pgdir c) (addr + i) <> translate (env_pgdir c) (addr + j)) ->
            load_bytes addr (Z.to_nat sizeof_UTrapframe) s'
            = Some (bytes_of_UTrapframe utf, s')))
  /\ (check = Some (- E_FAULT, s) ->
      exists s',
        page_fault_handler fault_va s = Some (env_destroy (curenv s), s')
        /\ s' = update_env (curenv s) (set_env_tf (set_tf_esp addr tf)) s
        /\ physmem s' = physmem s).
Proof.
  intros Hlay1 Hlay2 HP Hf Hc Hcs Hup tf addr utf check.
  split.
  { intros Hin. unfold addr, upcall_frame_addr.
    destruct (Z.leb_spec (UXSTACKTOP - PGSIZE) (tf_esp tf)); [|lia].
    destruct (Z.ltb_spec (tf_esp tf) UXSTACKTOP); [reflexivity|lia]. }
  split.
  { intros Hout. unfold addr, upcall_frame_addr.
    destruct (Z.leb_spec (UXSTACKTOP - PGSIZE) (tf_esp tf)); [|reflexivity].
    destruct (Z.ltb_spec (tf_esp tf) UXSTACKTOP); [lia|reflexivity]. }
  split; [exact (user_mem_check_cases _ _ _ _ _ _ Hc)|].
  split.
  - intros Hchk.
    assert (Hmap : forall i, 0 <= i < sizeof_UTrapframe ->
      pte_allows (Z.lor (Z.lor PTE_U PTE_W) PTE_P) (env_pgdir c) (addr + i) = true).
    { apply (user_mem_check_inv _ _ _ _ _ _ _ _ Hf Hc Hchk). lia. }
    exact (proj2 (proj2 (upcall_frame_when_mapped s fault_va c
                           Hlay1 Hlay2 HP Hc Hcs Hup Hmap))).
  - intros Hchk. eexists. split; [|split; reflexivity].
    by apply upcall_frame_when_unmapped.
Qed.

End Proofs.

(** * Further properties *)

Section ProofsRest.

Context `{HD : Headers} `{HT : TrapHeaders} `{HC : Collaborators} `{HL : LibString}
  `{HF : FsHeaders} `{HI : IdeDriver}.

Notation "x <- c1 ;; c2" := (bind c1 (fun x => c2))
  (at level 100, c1 at next level, right associativity).
Notation "c1 ;;; c2" := (bind c1 (fun _ => c2))
  (at level 100, right associativity).

Ltac kred :=
  unfold bind, ret, gets, modify, deref, panic, env_modify in *; simpl in *.

Ltac kpre_step :=
  first
    [ apply kpre_ret; solve [typeclasses eauto]
    | apply kpre_gets; solve [typeclasses eauto]
    | apply kpre_panic
    | apply kpre_deref; solve [typeclasses eauto]
    | apply kpre_bind; [typeclasses eauto | | intros ?]
    | match goal with
      | |- kpre _ (match ?x with _ => _ end) => destruct x
      end ].

Ltac distinct_cases H :=
  let H' := fresh in
  pose proof H as H'; unfold syscall_cases in H';
  repeat (let X := fresh in apply NoDup_cons in H' as [X H'];
          rewrite ?not_elem_of_cons in X);
  clear H'.

Ltac skip_case :=
  match goal with
  | |- context [?a =? ?b] =>
      destruct (Z.eqb_spec a b) as [?|_]; [exfalso; intuition congruence|]
  end.


(** ** Failures leave the state alone *)

Lemma page_insert_fail (e pp va perm r : Z) (s s' : KState) :
  page_insert e pp va perm s = Some (r, s') -> r <> 0 -> r = - E_NO_MEM /\ s' = s.
Proof.
  intros H Hr.
  destruct (page_insert_result _ _ _ _ _ _ _ H) as [->|[-> _]]; [|contradiction].
  split; [reflexivity|].
  unfold page_insert in H. unfold bind at 1 in H.
  destruct (pgdir_walk_create e va s) as [[ok s1]|] eqn:Ew; [|discriminate].
  destruct ok; simpl in H.
  { (* the walk succeeded: the result is 0 *)
    unfold bind, page_incref, modify, ret in H.
    destruct (page_remove e va _) as [[u s3]|]; [|discriminate].
    injection H as H _. congruence. }
  unfold ret in H. assert (s1 = s') as <- by congruence. clear H.
  unfold pgdir_walk_create, page_alloc, page_incref in Ew. kred.
  destruct (envs s !! e); [|discriminate].
  destruct (pd_tables _ !! PDX va); [discriminate|].
  destruct (page_free_list s); simpl in Ew; [|discriminate].
  by injection Ew as <-.
Qed.

(** X1: a [sys_ipc_try_send] that returns an error leaves the kernel state
    exactly as it was: the destination is not marked as served, and no page
    is mapped or counted.  The transfer happens only when no error occurs. *)
Theorem sys_ipc_try_send_failure_frame
    (s s' : KState) (envid value srcva perm r : Z) :
  sys_ipc_try_send envid value srcva perm s = Some (r, s') ->
  r <> 0 -> s' = s.
Proof.
  intros H Hr. unfold sys_ipc_try_send in H. unfold bind at 1 in H.
  destruct (envid2env envid false s) as [[[r0 e] s0]|] eqn:Er; [|discriminate].
  pose proof (envid2env_state _ _ _ _ _ Er) as <-.
  simpl in H. destruct (r0 <? 0); [unfold ret in H; congruence|].
  unfold bind at 1, deref at 1 in H.
  destruct (envs s !! e) as [en|] eqn:He; [|discriminate].
  destruct (env_ipc_recving en); simpl in H; [|unfold ret in H; congruence].
  assert (Hupd : forall p s1, update_ipc_fields e value p s1 = Some (r, s') -> False).
  { intros p s1 Hu. unfold update_ipc_fields in Hu. kred.
    destruct (alter _ e (envs s1) !! curenv s1); [|discriminate].
    injection Hu as Hu _. congruence. }
  destruct (env_ipc_dstva en <? UTOP); simpl in H; [|by apply Hupd in H].
  destruct (srcva <? UTOP); [|by apply Hupd in H].
  destruct (negb (PGOFF srcva =? 0)); [unfold ret in H; congruence|].
  destruct (_ || _); [unfold ret in H; congruence|].
  unfold bind at 1, gets at 1 in H. unfold bind at 1 in H.
  destruct (page_lookup (curenv s) srcva s) as [[l s1]|] eqn:El; [|discriminate].
  pose proof (page_lookup_state _ _ _ _ _ El) as <-.
  destruct l as [[pp pte]|]; [|unfold ret in H; congruence].
  destruct (_ && _); [unfold ret in H; congruence|].
  unfold bind at 1 in H.
  destruct (page_insert e pp (env_ipc_dstva en) perm s) as [[r2 s2]|] eqn:Ei;
    [|discriminate].
  destruct (r2 <? 0) eqn:Hneg; [|by apply Hupd in H].
  unfold ret in H. injection H as -> ->.
  by destruct (page_insert_fail _ _ _ _ _ _ _ Ei Hr) as [_ ->].
Qed.

(** X2: a [sys_page_map] that returns an error leaves the kernel state
    exactly as it was; in particular a mapping that fails for lack of memory
    has not counted the frame. *)
Theorem sys_page_map_failure_frame
    (s s' : KState) (srcenvid srcva dstenvid dstva perm r : Z) :
  sys_page_map srcenvid srcva dstenvid dstva perm s = Some (r, s') ->
  r <> 0 -> s' = s.
Proof.
  intros H Hr. unfold sys_page_map in H. unfold bind at 1 in H.
  destruct (envid2env srcenvid true s) as [[[r0 e] s0]|] eqn:Er; [|discriminate].
  pose proof (envid2env_state _ _ _ _ _ Er) as <-.
  simpl in H. destruct (r0 <? 0); [unfold ret in H; congruence|].
  unfold bind at 1 in H.
  destruct (envid2env dstenvid true s) as [[[r1 de] s0]|] eqn:Er'; [|discriminate].
  pose proof (envid2env_state _ _ _ _ _ Er') as <-.
  simpl in H. destruct (r1 <? 0); [unfold ret in H; congruence|].
  destruct (_ || _); [unfold ret in H; congruence|].
  destruct (_ || _); [unfold ret in H; congruence|].
  destruct (_ || _); [unfold ret in H; congruence|].
  unfold bind at 1 in H.
  destruct (page_lookup e srcva s) as [[l s1]|] eqn:El; [|discriminate].
  pose proof (page_lookup_state _ _ _ _ _ El) as <-.
  destruct l as [[pp pte]|]; [|unfold ret in H; congruence].
  destruct (_ && _); [unfold ret in H; congruence|].
  unfold bind at 1 in H.
  destruct (page_insert de pp dstva perm s) as [[r2 s2]|] eqn:Ei; [|discriminate].
  destruct (r2 <? 0) eqn:Hneg; unfold ret in H; [|congruence]. injection H as -> ->.
  by destruct (page_insert_fail _ _ _ _ _ _ _ Ei Hr) as [_ ->].
Qed.

Lemma pa2page_pte (pp low : Z) :
  0 <= PGSHIFT -> Z.land low (Z.lnot (PGSIZE - 1)) = 0 ->
  pa2page (PTE_ADDR (Z.lor (page2pa pp) low)) = pp.
Proof.
  intros Hk Hlow. unfold pa2page, PTE_ADDR, page2pa, PGSIZE in *.
  replace (2 ^ PGSHIFT - 1) with (Z.ones PGSHIFT) in * by (rewrite Z.ones_equiv; lia).
  apply Z.bits_inj'. intros n Hn.
  apply (f_equal (fun x => Z.testbit x (n + PGSHIFT))) in Hlow.
  rewrite Z.land_spec, Z.lnot_spec, Z.ones_spec_high, Z.bits_0 in Hlow by lia.
  rewrite Z.shiftr_spec, Z.land_spec, Z.lor_spec, Z.shiftl_spec, Z.lnot_spec,
    Z.ones_spec_high by lia.
  replace (n + PGSHIFT - PGSHIFT) with n by lia.
  destruct (Z.testbit pp n), (Z.testbit low (n + PGSHIFT)); simpl in *; congruence.
Qed.

Lemma perm_low (perm : Z) :
  perm_bits_low -> Z.land perm (Z.lnot PTE_SYSCALL) = 0 ->
  Z.land perm (Z.lnot (PGSIZE - 1)) = 0.
Proof.
  intros [Hk Hsys] Hperm. apply Z.bits_inj'. intros n Hn.
  apply (f_equal (fun x => Z.testbit x n)) in Hsys, Hperm.
  rewrite Z.land_spec, Z.lnot_spec, Z.bits_0 in Hsys, Hperm by lia.
  rewrite Z.land_spec, Z.lnot_spec, Z.bits_0 by lia.
  destruct (Z.testbit perm n), (Z.testbit PTE_SYSCALL n),
    (Z.testbit (PGSIZE - 1) n); simpl in *; congruence.
Qed.

(** After [page_insert] the lookup finds the frame again. *)
Lemma page_lookup_inserted (e pp perm va : Z) (s : KState) (en : Env) :
  perm_bits_low -> PTE_P <> 0 ->
  Z.land perm PTE_P = PTE_P -> Z.land perm (Z.lnot PTE_SYSCALL) = 0 ->
  envs s !! e = Some en ->
  pte_read (env_pgdir en) va = Some (Z.lor (Z.lor (page2pa pp) perm) PTE_P) ->
  page_lookup e va s = Some (Some (pp, Z.lor (page2pa pp) perm), s).
Proof.
  intros Hlow HP HpermP Hperm He Hpte.
  rewrite (page_lookup_unfold _ _ _ _ He), Hpte.
  rewrite <- Z.lor_assoc, (lor_absorb _ _ HpermP).
  destruct (Z.eqb_spec (Z.land (Z.lor (page2pa pp) perm) PTE_P) 0) as [H0|_].
  - exfalso. apply HP. rewrite Z.land_lor_distr_l, HpermP in H0.
    apply Z.lor_eq_0_iff in H0. tauto.
  - rewrite pa2page_pte; [reflexivity|apply Hlow|by apply perm_low].
Qed.

#[local] Instance keeps_pte_refl (x va : Z) : Reflexive (keeps_pte x va).
Proof. intros s pte H. exact H. Qed.

#[local] Instance keeps_pte_trans (x va : Z) : Transitive (keeps_pte x va).
Proof. intros a b c H1 H2 pte H. exact (H2 _ (H1 _ H)). Qed.

Lemma keeps_pte_same_envs_eq (x va : Z) (s s' : KState) :
  envs s' = envs s -> keeps_pte x va s s'.
Proof. intros E pte. unfold pte_at. by rewrite E. Qed.

Lemma keeps_pte_pte_write (e va v x va' : Z) (s : KState) :
  diff_entry e va x va' ->
  keeps_pte x va' s
    (update_env e (fun en => set_env_pgdir (pte_write va v (env_pgdir en)) en) s).
Proof.
  intros Hd pte. unfold pte_at. simpl. rewrite lookup_alter.
  case_decide as Hex; [subst x|done].
  destruct (envs s !! e) as [en|]; [|done]. simpl.
  unfold pte_read, pte_write. simpl. rewrite lookup_alter.
  case_decide as Hpd; [|done].
  destruct (pd_tables (env_pgdir en) !! PDX va) as [pt|] eqn:Hpt;
    rewrite <- Hpd, Hpt; [|done]. simpl.
  rewrite lookup_insert_ne; [done|].
  destruct Hd as [?|[?|?]]; congruence.
Qed.

Ltac keeps_pte_tac :=
  repeat first
    [ kpre_step
    | apply kpre_modify; intros ?;
      first [ apply keeps_pte_pte_write; assumption
            | apply keeps_pte_same_envs_eq; reflexivity ] ].

Lemma page_decref_keeps_pte (x va pp : Z) : kpre (keeps_pte x va) (page_decref pp).
Proof. unfold page_decref, page_free. keeps_pte_tac. Qed.

Lemma page_remove_keeps_pte (e va x va' : Z) :
  diff_entry e va x va' -> kpre (keeps_pte x va') (page_remove e va).
Proof.
  intros Hd. unfold page_remove, page_lookup.
  repeat first [ apply page_decref_keeps_pte | keeps_pte_tac ].
Qed.

Lemma pgdir_walk_create_keeps_pte (e va x va' : Z) :
  kpre (keeps_pte x va') (pgdir_walk_create e va).
Proof.
  intros s ok s' H pte Hpte.
  unfold pgdir_walk_create, page_alloc, page_incref in H. kred.
  destruct (envs s !! e) as [en|] eqn:He; [|discriminate].
  destruct (pd_tables (env_pgdir en) !! PDX va) as [pt|] eqn:Hpt.
  { by simplify_eq. }
  destruct (page_free_list s) as [|p rest]; simpl in H; [by simplify_eq|].
  simplify_eq. unfold pte_at in *. simpl. rewrite lookup_alter.
  case_decide as Hex; [subst x|exact Hpte].
  rewrite He in Hpte |- *. simpl. unfold pte_read in *. simpl.
  rewrite lookup_insert. case_decide as Hpd; [|exact Hpte].
  rewrite <- Hpd, Hpt in Hpte. discriminate.
Qed.

Lemma page_incref_keeps_pte (x va pp : Z) : kpre (keeps_pte x va) (page_incref pp).
Proof. unfold page_incref. keeps_pte_tac. Qed.

Lemma page_insert_keeps_pte (e pp va perm x va' : Z) :
  diff_entry e va x va' -> kpre (keeps_pte x va') (page_insert e pp va perm).
Proof.
  intros Hd. unfold page_insert.
  apply kpre_bind; [typeclasses eauto|apply pgdir_walk_create_keeps_pte|intros ok].
  destruct (negb ok); [apply kpre_ret; typeclasses eauto|].
  apply kpre_bind; [typeclasses eauto|apply page_incref_keeps_pte|intros _].
  apply kpre_bind; [typeclasses eauto|by apply page_remove_keeps_pte|intros _].
  keeps_pte_tac.
Qed.

(** The call gets past its checks exactly as the source writes them. *)
Lemma sys_page_map_inv (s s' : KState) (srcenvid srcva dstenvid dstva perm : Z) :
  errnos_positive ->
  sys_page_map srcenvid srcva dstenvid dstva perm s = Some (0, s') ->
  exists se de pp pte,
    envid2env srcenvid true s = Some ((0, se), s)
    /\ envid2env dstenvid true s = Some ((0, de), s)
    /\ srcva < UTOP /\ PGOFF srcva = 0 /\ dstva < UTOP /\ PGOFF dstva = 0
    /\ Z.land perm PTE_U = PTE_U /\ Z.land perm PTE_P = PTE_P
    /\ Z.land perm (Z.lnot PTE_SYSCALL) = 0
    /\ page_lookup se srcva s = Some (Some (pp, pte), s)
    /\ (Z.land perm PTE_W <> 0 -> Z.land pte PTE_W <> 0)
    /\ page_insert de pp dstva perm s = Some (0, s').
Proof.
  intros (Hbad & Hinval & Hnomem & _) H.
  unfold sys_page_map in H. unfold bind at 1 in H.
  destruct (envid2env srcenvid true s) as [[[r0 se] s0]|] eqn:Er; [|discriminate].
  destruct (envid2env_result _ _ _ _ _ Er) as [-> [Hr0|Hr0]]; simpl in Hr0;
    [subst r0 | injection Hr0 as -> ->].
  2: { simpl in H. destruct (Z.ltb_spec (- E_BAD_ENV) 0); [|lia].
       injection H as H _. lia. }
  simpl in H. unfold bind at 1 in H.
  destruct (envid2env dstenvid true s) as [[[r1 de] s0]|] eqn:Er'; [|discriminate].
  destruct (envid2env_result _ _ _ _ _ Er') as [-> [Hr1|Hr1]]; simpl in Hr1;
    [subst r1 | injection Hr1 as -> ->].
  2: { simpl in H. destruct (Z.ltb_spec (- E_BAD_ENV) 0); [|lia].
       injection H as H _. lia. }
  simpl in H.
  destruct ((UTOP <=? srcva) || negb (PGOFF srcva =? 0)) eqn:Hs;
    [injection H as H _; lia|].
  destruct ((UTOP <=? dstva) || negb (PGOFF dstva =? 0)) eqn:Hd;
    [injection H as H _; lia|].
  destruct (negb (Z.land perm (Z.lor PTE_U PTE_P) =? Z.lor PTE_U PTE_P)
            || negb (Z.land perm (Z.lnot PTE_SYSCALL) =? 0)) eqn:Hp;
    [injection H as H _; lia|].
  apply orb_false_iff in Hs as [Hs1 Hs2], Hd as [Hd1 Hd2], Hp as [Hp1 Hp2].
  apply negb_false_iff, Z.eqb_eq in Hs2, Hd2, Hp1, Hp2.
  apply Z.leb_gt in Hs1, Hd1. apply land_covers_lor in Hp1 as [HpU HpP].
  unfold bind at 1 in H.
  destruct (page_lookup se srcva s) as [[l s1]|] eqn:El; [|discriminate].
  pose proof (page_lookup_state _ _ _ _ _ El) as <-.
  destruct l as [[pp pte]|]; [|injection H as H _; lia].
  destruct (negb (Z.land perm PTE_W =? 0) && (Z.land pte PTE_W =? 0)) eqn:Hw;
    [injection H as H _; lia|].
  unfold bind at 1 in H.
  destruct (page_insert de pp dstva perm s) as [[r2 s2]|] eqn:Ei; [|discriminate].
  destruct (page_insert_result _ _ _ _ _ _ _ Ei) as [->|[-> _]].
  { destruct (Z.ltb_spec (- E_NO_MEM) 0); [|lia]. injection H as H _. lia. }
  simpl in H. injection H as <-.
  exists se, de, pp, pte. repeat (split; [done|]). split; [|done].
  intros Hpw. apply andb_false_iff in Hw as [Hw|Hw].
  - apply negb_false_iff, Z.eqb_eq in Hw. contradiction.
  - by apply Z.eqb_neq in Hw.
Qed.

(** X3: a successful [sys_page_map] makes the destination share the frame
    of the source.  Both identifiers resolve with the permission of the
    caller; a lookup of [dstva] in the destination then finds the frame that
    [srcva] names in the source, with the permissions [perm]; the source
    keeps its own mapping when the two addresses are not the same entry of
    the same environment; and a mapping with [PTE_W] comes only from a
    mapping with [PTE_W].  The permission bits of a system call lie below
    the frame address of an entry. *)
Theorem sys_page_map_shares_frame
    (s s' : KState) (srcenvid srcva dstenvid dstva perm : Z) :
  errnos_positive -> perm_bits_low -> PTE_P <> 0 ->
  sys_page_map srcenvid srcva dstenvid dstva perm s = Some (0, s') ->
  exists se de pp pte,
    envid2env srcenvid true s = Some ((0, se), s)
    /\ envid2env dstenvid true s = Some ((0, de), s)
    /\ page_lookup se srcva s = Some (Some (pp, pte), s)
    /\ page_lookup de dstva s' = Some (Some (pp, Z.lor (page2pa pp) perm), s')
    /\ (diff_entry de dstva se srcva ->
        page_lookup se srcva s' = Some (Some (pp, pte), s'))
    /\ (Z.land perm PTE_W <> 0 -> Z.land pte PTE_W <> 0).
Proof.
  intros Hpos Hlow HP H.
  destruct (sys_page_map_inv _ _ _ _ _ _ _ Hpos H)
    as (se & de & pp & pte & Hrs & Hrd & _ & _ & _ & _ & _ & HpP & Hperm & Hl & Hw & Hi).
  exists se, de, pp, pte. repeat (split; [done|]).
  destruct (page_insert_result _ _ _ _ _ _ _ Hi) as [Hr|(_ & en' & He' & Hpte)].
  { destruct Hpos as (_ & _ & ? & _). lia. }
  split; [by apply (page_lookup_inserted _ _ _ _ _ en')|].
  split; [|done].
  intros Hd.
  unfold page_lookup in Hl. kred.
  destruct (envs s !! se) as [en|] eqn:Hse; [|discriminate].
  destruct (pte_read (env_pgdir en) srcva) as [p0|] eqn:Hp0; [|discriminate].
  destruct (Z.land p0 PTE_P =? 0) eqn:Hpres; [discriminate|].
  injection Hl as <- <-.
  pose proof (page_insert_keeps_pte _ _ _ _ _ _ Hd _ _ _ Hi p0) as Hk.
  unfold pte_at in Hk. rewrite Hse in Hk. specialize (Hk Hp0).
  unfold page_lookup. kred.
  destruct (envs s' !! se) as [en2|] eqn:Hse'; [|discriminate].
  by rewrite Hk, Hpres.
Qed.

(** ** [sys_page_alloc]: the frame goes back when the mapping fails *)

(** X4: a [sys_page_alloc] that fails gives back what it took: the
    environments, the reference counts and the free list of frames are as
    before the call, and so are the contents of every frame that was not
    free. *)
Theorem sys_page_alloc_failure_rollback
    (s s' : KState) (envid va perm r : Z) :
  sys_page_alloc envid va perm s = Some (r, s') ->
  r <> 0 ->
  envs s' = envs s /\ curenv s' = curenv s /\ env_free_list s' = env_free_list s
  /\ pages s' = pages s /\ page_free_list s' = page_free_list s
  /\ forall f, f ∉ page_free_list s -> physmem s' !! f = physmem s !! f.
Proof.
  intros H Hr. unfold sys_page_alloc in H. unfold bind at 1 in H.
  destruct (envid2env envid true s) as [[[r0 e] s0]|] eqn:Er; [|discriminate].
  pose proof (envid2env_state _ _ _ _ _ Er) as <-. simpl in H.
  destruct (r0 <? 0); [unfold ret in H; by simplify_eq|].
  destruct (_ || _); [unfold ret in H; by simplify_eq|].
  destruct (_ || _); [unfold ret in H; by simplify_eq|].
  unfold bind at 1, page_alloc at 1 in H. unfold bind at 1, gets at 1 in H.
  destruct (page_free_list s) as [|pp rest] eqn:Hfl.
  { unfold ret in H; by simplify_eq. }
  unfold bind at 1, modify at 1 in H. unfold bind at 1, modify at 1 in H.
  unfold ret at 1 in H. unfold bind at 1 in H.
  destruct (page_insert e pp va perm _) as [[r2 s2]|] eqn:Ei; [|discriminate].
  destruct (r2 <? 0) eqn:Hneg.
  - assert (r2 <> 0) as Hr2 by (apply Z.ltb_lt in Hneg; lia).
    destruct (page_insert_fail _ _ _ _ _ _ _ Ei Hr2) as [_ ->].
    unfold bind, page_free, modify, ret in H. injection H as _ <-. simpl.
    repeat (split; [done|]). intros f Hf.
    rewrite lookup_insert_ne; [done|]. intros ->. apply Hf. left.
  - unfold ret in H. by simplify_eq.
Qed.

(** ** [sys_env_set_status] *)

(** X5: [sys_env_set_status] either leaves the kernel state as it is or
    changes one environment, and of it only the status, to [ENV_RUNNABLE]
    or [ENV_NOT_RUNNABLE], the one that [status] names, and then returns 0:
    it never frees an environment, marks one dying or running, or touches
    anything but the store of the environments. *)
Theorem sys_env_set_status_only_runnable
    (s s' : KState) (envid status r : Z) :
  sys_env_set_status envid status s = Some (r, s') ->
  s' = s
  \/ exists e en st,
       envs s !! e = Some en
       /\ r = 0
       /\ (st = ENV_RUNNABLE \/ st = ENV_NOT_RUNNABLE)
       /\ status = ENV_STATUS st
       /\ s' = set_envs (<[e := set_env_status st en]> (envs s)) s.
Proof.
  intros H. unfold sys_env_set_status in H. unfold bind at 1 in H.
  destruct (envid2env envid true s) as [[[r0 e] s0]|] eqn:Er; [|discriminate].
  pose proof (envid2env_state _ _ _ _ _ Er) as <-. simpl in H.
  destruct (r0 <? 0); [left; unfold ret in H; congruence|].
  destruct (negb (status =? ENV_STATUS ENV_RUNNABLE)
            && negb (status =? ENV_STATUS ENV_NOT_RUNNABLE)) eqn:Hst;
    [left; unfold ret in H; congruence|].
  kred. injection H as <- <-.
  destruct (envs s !! e) as [en|] eqn:Hen.
  - right. exists e, en.
    exists (if status =? ENV_STATUS ENV_RUNNABLE then ENV_RUNNABLE
            else ENV_NOT_RUNNABLE).
    split; [done|]. split; [done|]. split.
    { destruct (status =? ENV_STATUS ENV_RUNNABLE); auto. }
    split.
    { destruct (Z.eqb_spec status (ENV_STATUS ENV_RUNNABLE)) as [->|Hn1]; [done|].
      destruct (Z.eqb_spec status (ENV_STATUS ENV_NOT_RUNNABLE)) as [->|Hn2]; [done|].
      discriminate. }
    unfold update_env. f_equal. apply map_eq. intros k.
    destruct (decide (e = k)) as [->|Hne].
    + by rewrite lookup_alter_eq, lookup_insert_eq, Hen.
    + by rewrite lookup_alter_ne, lookup_insert_ne.
  - left. unfold update_env.
    replace (alter _ e (envs s)) with (envs s); [by destruct s|].
    apply map_eq. intros k. destruct (decide (e = k)) as [->|Hne].
    + by rewrite lookup_alter_eq, Hen.
    + by rewrite lookup_alter_ne.
Qed.

(** ** [sys_exofork] and [sys_env_set_status] together *)

(** What a successful [sys_exofork] leaves. *)
Lemma sys_exofork_inv (s s' : KState) (r : Z) :
  0 < E_NO_FREE_ENV -> 0 < E_NO_MEM ->
  curenv s ∉ env_free_list s ->
  sys_exofork s = Some (r, s') ->
  0 <= r ->
  exists (e : Z) (c old child : Env),
    envs s !! curenv s = Some c
    /\ head (env_free_list s) = Some e
    /\ e <> curenv s
    /\ envs s !! e = Some old
    /\ r = mkenvid (env_id old) e
    /\ curenv s' = curenv s
    /\ envs s' !! e = Some child
    /\ env_id child = r
    /\ env_parent_id child = env_id c
    /\ env_status child = ENV_NOT_RUNNABLE
    /\ env_tf child = set_tf_regs (set_reg_eax 0 (tf_regs (env_tf c))) (env_tf c)
    /\ forall x, x <> e -> envs s' !! x = envs s !! x.
Proof.
  intros Hnf Hnm Hcur H Hr.
  unfold sys_exofork, env_alloc, page_alloc, page_incref in H. kred.
  destruct (envs s !! curenv s) as [c|] eqn:Hc; [|discriminate].
  destruct (env_free_list s) as [|e rest] eqn:Hfl; simpl in H.
  { destruct (Z.ltb_spec (- E_NO_FREE_ENV) 0); [|lia]. injection H as H _. lia. }
  destruct (page_free_list s) as [|pp prest] eqn:Hpl; simpl in H.
  { destruct (Z.ltb_spec (- E_NO_MEM) 0); [|lia]. injection H as H _. lia. }
  destruct (envs s !! e) as [old|] eqn:Ho; [|discriminate]. simpl in H.
  assert (Hne : e <> curenv s).
  { intros ->. apply Hcur. left. }
  rewrite lookup_alter_ne, lookup_insert_ne, Hc in H by done. simpl in H.
  rewrite !lookup_alter_eq, lookup_insert_eq in H. simpl in H.
  injection H as <- <-.
  exists e, c, old. eexists.
  split; [reflexivity|]. split; [reflexivity|]. split; [done|]. split; [done|].
  split; [reflexivity|]. split; [reflexivity|].
  split.
  { simpl. rewrite !lookup_alter_eq, lookup_insert_eq. reflexivity. }
  simpl. repeat (split; [reflexivity|]).
  intros x Hx. rewrite !lookup_alter_ne, lookup_insert_ne by done. reflexivity.
Qed.

(** X6: the parent can start the child it forked.  After a successful
    [sys_exofork] that returned [child], the same caller's
    [sys_env_set_status(child, ENV_RUNNABLE)] returns 0, and then the child
    is runnable with the parent's saved frame but 0 in [eax]; the parent is
    as before.  The identifier of the child leads back to the slot it was
    given, the first free one, and the current environment is not on the
    free list. *)
Theorem exofork_child_can_be_started (s s1 : KState) (child : Z) :
  0 < E_NO_FREE_ENV -> 0 < E_NO_MEM ->
  curenv s ∉ env_free_list s ->
  head (env_free_list s) = Some (ENVX child) ->
  sys_exofork s = Some (child, s1) ->
  0 < child ->
  exists (s2 : KState) (c en : Env),
    sys_env_set_status child (ENV_STATUS ENV_RUNNABLE) s1 = Some (0, s2)
    /\ envs s !! curenv s = Some c
    /\ envs s2 !! ENVX child = Some en
    /\ env_id en = child
    /\ env_parent_id en = env_id c
    /\ env_status en = ENV_RUNNABLE
    /\ env_tf en = set_tf_regs (set_reg_eax 0 (tf_regs (env_tf c))) (env_tf c)
    /\ curenv s2 = curenv s
    /\ envs s2 !! curenv s = Some c.
Proof.
  intros Hnf Hnm Hcur Hid H Hpos.
  destruct (sys_exofork_inv _ _ _ Hnf Hnm Hcur H ltac:(lia))
    as (e & c & old & ch & Hc & He & Hne & Ho & Hr & Hcur' & Hch & Hchid & Hpar
        & Hst & Htf & Hoth).
  assert (Hx : ENVX child = e) by congruence.
  exists (update_env e (set_env_status ENV_RUNNABLE) s1), c, (set_env_status ENV_RUNNABLE ch).
  split.
  { unfold sys_env_set_status, envid2env. kred.
    destruct (Z.eqb_spec child 0); [lia|].
    rewrite Hx, Hch, Hst, Hchid, Z.eqb_refl, Hcur'. simpl.
    destruct (Z.eqb_spec e (curenv s)); [done|]. simpl.
    rewrite Hoth, Hc by done. simpl.
    rewrite Hpar, Z.eqb_refl. simpl.
    rewrite Z.eqb_refl. simpl. reflexivity. }
  split; [done|]. rewrite Hx.
  split; [by rewrite lookup_update_env_eq, Hch|].
  simpl. repeat (split; [done|]).
  rewrite lookup_alter_ne by done. by rewrite Hoth.
Qed.

(** ** The dispatcher *)

(** X7: a system call number without a case returns [-E_NO_SYS] and
    leaves the kernel state alone.  [SYS_env_set_trapframe] is such a
    number: the dispatcher has no case for it, so [sys_env_set_trapframe]
    cannot be reached through [syscall]. *)
Theorem syscall_without_case (n a1 a2 a3 a4 a5 : Z) (s : KState) :
  n ∉ syscall_cases ->
  syscall n a1 a2 a3 a4 a5 s
  = Some (returns (- E_NO_SYS), s).
Proof.
  intros Hn. unfold syscall_cases in Hn. unfold syscall.
  repeat match goal with
  | |- context [n =? ?c] =>
      destruct (Z.eqb_spec n c) as [->|_]; [exfalso; apply Hn; set_solver|]
  end.
  reflexivity.
Qed.

(** X8: [sys_cputs] leaves the kernel state as it is; it ends by
    destroying the caller when the caller may not read the string, and
    returns otherwise. *)
Theorem sys_cputs_checks_the_string (str len : Z) (s s' : KState) (c : Ctl unit) :
  0 < E_FAULT ->
  sys_cputs str len s = Some (c, s') ->
  s' = s
  /\ (c = returns tt \/ c = no_return (env_destroy (curenv s)))
  /\ forall en, envs s !! curenv s = Some en ->
       (c = returns tt <->
        0 <= str /\ str + len <= 2 ^ 32 /\
        forall i, 0 <= i < len ->
          pte_allows (Z.lor PTE_U PTE_P) (env_pgdir en) (str + i) = true).
Proof.
  intros Hf H. unfold sys_cputs, user_mem_assert, user_mem_check in H. kred.
  destruct (envs s !! curenv s) as [en|] eqn:Hen; [|discriminate].
  destruct (_ && forallb _ _) eqn:Hb; simpl in H.
  - injection H as <- <-. split; [done|]. split; [by left|].
    intros en' [= <-]. split; [intros _|done].
    apply andb_true_iff in Hb as [Hb Hall]. apply andb_true_iff in Hb as [H0 H1].
    apply Z.leb_le in H0, H1. repeat (split; [done|]).
    rewrite forallb_forall in Hall. intros i Hi. apply Hall.
    apply list_elem_of_In, elem_of_seqZ. lia.
  - destruct (Z.ltb_spec (- E_FAULT) 0) as [_|?]; [|lia].
    injection H as <- <-. split; [done|]. split; [by right|].
    intros en' [= <-]. split; [discriminate|]. intros (H0 & H1 & Hall).
    exfalso. apply not_true_iff_false in Hb. apply Hb.
    apply andb_true_iff. split.
    { apply andb_true_iff. split; by apply Z.leb_le. }
    apply forallb_forall. intros i Hi.
    apply list_elem_of_In, elem_of_seqZ in Hi. apply Hall. lia.
Qed.

(** ** The trap path *)

Lemma EnvStatus_eqb_eq (a b : EnvStatus) : EnvStatus_eqb a b = true <-> a = b.
Proof. destruct a, b; simpl; split; congruence. Qed.

Lemma frame_saved_lookup (tf : Trapframe) (s : KState) (c : Env) :
  envs s !! curenv s = Some c ->
  envs (frame_saved tf s) !! curenv s = Some (set_env_tf tf c).
Proof. intros Hc. unfold frame_saved. by rewrite lookup_update_env_eq, Hc. Qed.

(** The entry of [trap] for a trap from user mode. *)
Lemma trap_user_entry (tf : Trapframe) (cr2 eflags : Z) (c : Env) (s : KState) :
  user_trap tf eflags c s ->
  trap tf cr2 false eflags s
  = bindc (trap_dispatch tf_curenv cr2)
      (fun _ =>
         cur <- gets curenv ;;
         if cur =? NULL then ret sched_yield
         else
           c <- deref cur ;;
           if EnvStatus_eqb (env_status c) ENV_RUNNING
           then ret (no_return (env_run cur))
           else ret sched_yield)
      (frame_saved tf s).
Proof.
  intros (HIF & Hcs & Hcur & Hc & Hst).
  unfold trap. rewrite HIF. simpl. rewrite Hcs. simpl.
  unfold bindc at 1. unfold bind at 1. unfold bind at 1, gets at 1.
  destruct (Z.eqb_spec (curenv s) NULL) as [|_]; [done|].
  unfold bind at 1, deref at 1. rewrite Hc.
  destruct (EnvStatus_eqb (env_status c) ENV_DYING) eqn:Hd.
  { by apply EnvStatus_eqb_eq in Hd. }
  unfold bind at 1, env_modify at 1, modify at 1. unfold ret at 1.
  reflexivity.
Qed.


Lemma NoDup_cons_ne {A : Type} (x y : A) (l : list A) :
  NoDup (x :: l) -> y ∈ l -> y <> x.
Proof. intros H Hy ->. by apply NoDup_cons in H as [H _]. Qed.

(** [trap_dispatch] on a system call from the current environment. *)
Lemma trap_dispatch_syscall (cr2 : Z) (c : Env) (s : KState) :
  trap_numbers_distinct ->
  envs s !! curenv s = Some c ->
  tf_trapno (env_tf c) = T_SYSCALL ->
  trap_dispatch tf_curenv cr2 s
  = bindc (syscall (reg_eax (tf_regs (env_tf c))) (reg_edx (tf_regs (env_tf c)))
                   (reg_ecx (tf_regs (env_tf c))) (reg_ebx (tf_regs (env_tf c)))
                   (reg_edi (tf_regs (env_tf c))) (reg_esi (tf_regs (env_tf c))))
      (fun r =>
         env_modify (curenv s) (fun en =>
           set_env_tf (set_tf_regs (set_reg_eax (wrap32 r) (tf_regs (env_tf en)))
                         (env_tf en)) en) ;;;
         ret (returns tt)) s.
Proof.
  intros Hd Hc Hno. unfold trap_dispatch, tf_read.
  unfold bind at 1. unfold bind at 1, gets at 1. unfold bind at 1, deref at 1.
  rewrite Hc. unfold ret at 1. rewrite Hno.
  unfold trap_numbers_distinct in Hd.
  destruct (Z.eqb_spec T_SYSCALL T_PGFLT) as [E|_].
  { exfalso. revert E. apply (NoDup_cons_ne _ _ _ Hd). set_solver. }
  apply NoDup_cons in Hd as [_ Hd].
  destruct (Z.eqb_spec T_SYSCALL T_BRKPT) as [E|_].
  { exfalso. revert E. apply (NoDup_cons_ne _ _ _ Hd). set_solver. }
  apply NoDup_cons in Hd as [_ Hd].
  destruct (Z.eqb_spec T_SYSCALL T_DEBUG) as [E|_].
  { exfalso. revert E. apply (NoDup_cons_ne _ _ _ Hd). set_solver. }
  rewrite Z.eqb_refl. unfold bind at 1, gets at 1. reflexivity.
Qed.


(** [sys_exofork] with a free slot and a free frame. *)
Lemma sys_exofork_run (s : KState) (e pp : Z) (rest prest : list Z) (c old : Env) :
  env_free_list s = e :: rest ->
  page_free_list s = pp :: prest ->
  envs s !! curenv s = Some c ->
  envs s !! e = Some old ->
  e <> curenv s ->
  exists s',
    sys_exofork s = Some (mkenvid (env_id old) e, s')
    /\ curenv s' = curenv s
    /\ envs s' !! e = Some
         (mkEnv (set_tf_regs (set_reg_eax 0 (tf_regs (env_tf c))) (env_tf c))
            (mkenvid (env_id old) e) (env_id c) ENV_NOT_RUNNABLE
            (mkAddrSpace pp ∅) 0 false (env_ipc_dstva old)
            (env_ipc_value old) (env_ipc_from old) (env_ipc_perm old))
    /\ forall x, x <> e -> envs s' !! x = envs s !! x.
Proof.
  intros Hfl Hpl Hc Ho Hne.
  unfold sys_exofork, env_alloc, page_alloc, page_incref. kred.
  rewrite Hc, Hfl. simpl. rewrite Hpl. simpl. rewrite Ho. simpl.
  rewrite lookup_alter_ne, lookup_insert_ne, Hc by done. simpl.
  rewrite !lookup_alter_eq, lookup_insert_eq. simpl.
  eexists. split; [reflexivity|]. simpl. split; [done|].
  split.
  { rewrite !lookup_alter_eq, lookup_insert_eq. reflexivity. }
  intros x Hx. by rewrite !lookup_alter_ne, lookup_insert_ne.
Qed.

(** X9: [sys_exofork] through the trap path.  A running environment
    traps from user mode with the number of [sys_exofork] in [eax], a slot
    and a frame being free: [trap] ends in [env_run] of the caller, whose
    saved frame is the frame of the trap with the identifier of the child
    in [eax]; the child is not runnable and its saved frame is the frame of
    the trap with 0 in [eax]. *)
Theorem trap_exofork
    (tf : Trapframe) (cr2 eflags e pp : Z) (rest prest : list Z)
    (c old : Env) (s : KState) :
  trap_numbers_distinct -> NoDup syscall_cases ->
  user_trap tf eflags c s ->
  env_status c = ENV_RUNNING ->
  tf_trapno tf = T_SYSCALL ->
  reg_eax (tf_regs tf) = SYS_exofork ->
  env_free_list s = e :: rest ->
  page_free_list s = pp :: prest ->
  envs s !! e = Some old ->
  e <> curenv s ->
  let child := mkenvid (env_id old) e in
  exists s' ch,
    trap tf cr2 false eflags s = Some (no_return (env_run (curenv s)), s')
    /\ curenv s' = curenv s
    /\ envs s' !! curenv s = Some
         (set_env_tf (set_tf_regs (set_reg_eax (wrap32 child) (tf_regs tf)) tf) c)
    /\ envs s' !! e = Some ch
    /\ env_id ch = child
    /\ env_parent_id ch = env_id c
    /\ env_status ch = ENV_NOT_RUNNABLE
    /\ env_tf ch = set_tf_regs (set_reg_eax 0 (tf_regs tf)) tf.
Proof.
  intros Hd Hnd Hut Hrun Hno Heax Hfl Hpl Ho Hne child.
  pose proof Hut as (_ & _ & Hnull & Hc & _).
  rewrite (trap_user_entry _ _ _ _ _ Hut).
  pose proof (frame_saved_lookup tf s c Hc) as Hc0.
  assert (Hcur0 : curenv (frame_saved tf s) = curenv s) by done.
  unfold bindc at 1. unfold bind at 1.
  rewrite (trap_dispatch_syscall cr2 (set_env_tf tf c)); [|done|exact Hc0|done].
  simpl env_tf. rewrite Heax. change (curenv (frame_saved tf s)) with (curenv s).
  destruct (sys_exofork_run (frame_saved tf s) e pp rest prest (set_env_tf tf c) old)
    as (s1 & Hrun1 & Hcur1 & Hch & Hoth); try done.
  { unfold frame_saved. by rewrite lookup_update_env_ne. }
  unfold syscall. distinct_cases Hnd. repeat skip_case. rewrite Z.eqb_refl.
  unfold bindc at 1. unfold bind at 1. unfold bind at 1. rewrite Hrun1.
  unfold ret at 1. unfold bind at 1, env_modify at 1, modify at 1. unfold ret at 1.
  change (curenv (frame_saved tf s)) with (curenv s).
  set (s2 := update_env (curenv s) _ s1).
  unfold bind at 1, gets at 1.
  assert (Hcur2 : curenv s2 = curenv s) by (unfold s2; simpl; done).
  rewrite Hcur2. destruct (Z.eqb_spec (curenv s) NULL) as [|_]; [done|].
  assert (Hc2 : envs s2 !! curenv s = Some
    (set_env_tf (set_tf_regs (set_reg_eax (wrap32 child) (tf_regs tf)) tf) c)).
  { unfold s2. rewrite lookup_update_env_eq, Hoth by done.
    change (curenv (frame_saved tf s)) with (curenv s) in Hc0. by rewrite Hc0. }
  unfold bind at 1, deref at 1. rewrite Hc2.
  change (env_status (set_env_tf _ c)) with (env_status c). rewrite Hrun.
  exists s2. eexists. split; [reflexivity|]. split; [done|]. split; [done|].
  split.
  { unfold s2. rewrite lookup_update_env_ne by done. exact Hch. }
  done.
Qed.

(** ** The two halves of IPC *)

(** X10: [sys_ipc_recv] through the trap path.  With a destination that is
    page-aligned or at least [UTOP], the environment is blocked: [trap]
    ends in the scheduler, the environment is not runnable and waits with
    [env_ipc_recving] set and [env_ipc_dstva] the destination, and its
    saved frame is the frame of the trap, in which nothing has been written
    to [eax]. *)
Theorem trap_ipc_recv_blocks
    (tf : Trapframe) (cr2 eflags : Z) (c : Env) (s : KState) :
  trap_numbers_distinct -> NoDup syscall_cases ->
  user_trap tf eflags c s ->
  tf_trapno tf = T_SYSCALL ->
  reg_eax (tf_regs tf) = SYS_ipc_recv ->
  UTOP <= reg_edx (tf_regs tf) \/ PGOFF (reg_edx (tf_regs tf)) = 0 ->
  exists s',
    trap tf cr2 false eflags s = Some (sched_yield, s')
    /\ s' = update_env (curenv s) (fun en =>
         set_env_status ENV_NOT_RUNNABLE
           (set_env_ipc_dstva (reg_edx (tf_regs tf))
              (set_env_ipc_recving true (set_env_tf tf en)))) s
    /\ envs s' !! curenv s = Some
         (mkEnv tf (env_id c) (env_parent_id c) ENV_NOT_RUNNABLE (env_pgdir c)
            (env_pgfault_upcall c) true (reg_edx (tf_regs tf))
            (env_ipc_value c) (env_ipc_from c) (env_ipc_perm c)).
Proof.
  intros Hd Hnd Hut Hno Heax Hva.
  pose proof Hut as (_ & _ & Hnull & Hc & _).
  rewrite (trap_user_entry _ _ _ _ _ Hut).
  pose proof (frame_saved_lookup tf s c Hc) as Hc0.
  unfold bindc at 1. unfold bind at 1.
  rewrite (trap_dispatch_syscall cr2 (set_env_tf tf c)); [|done|exact Hc0|done].
  simpl env_tf. rewrite Heax.
  unfold syscall. distinct_cases Hnd. repeat skip_case. rewrite Z.eqb_refl.
  unfold bindc at 1. unfold bind at 1. unfold sys_ipc_recv.
  replace ((reg_edx (tf_regs tf) <? UTOP) && negb (PGOFF (reg_edx (tf_regs tf)) =? 0))
    with false.
  2: { symmetry. apply andb_false_iff. destruct Hva as [Hva|Hva].
       - left. by apply Z.ltb_ge.
       - right. rewrite Hva. reflexivity. }
  unfold bind at 1, gets at 1. unfold bind at 1, deref at 1.
  change (curenv (frame_saved tf s)) with (curenv s). rewrite Hc0.
  kred. eexists. split; [reflexivity|].
  split.
  { unfold frame_saved. rewrite !update_env_compose. reflexivity. }
  simpl. rewrite !lookup_alter_eq, Hc. reflexivity.
Qed.

(** X11: the handshake.  After [sys_ipc_recv] has blocked a receiver, and
    for as long as the record of the receiver is as it left it, a
    [sys_ipc_try_send] to the receiver that carries no page (the receiver
    wants none, or the sender offers none) returns 0; the receiver is then
    runnable, holds the value and the identifier of the sender, and finds 0
    in the [eax] of its saved frame: the result of its [sys_ipc_recv].  A
    further send finds nobody receiving. *)
Theorem ipc_recv_then_send
    (s s1 s2 : KState) (dstva value srcva perm : Z) (r se : Env) :
  sys_ipc_recv dstva s = Some (sched_yield, s1) ->
  envs s !! curenv s = Some r ->
  env_id r <> 0 ->
  ENVX (env_id r) = curenv s ->
  envs s2 !! curenv s = envs s1 !! curenv s ->
  envs s2 !! curenv s2 = Some se ->
  UTOP <= dstva \/ UTOP <= srcva ->
  exists s3,
    sys_ipc_try_send (env_id r) value srcva perm s2 = Some (0, s3)
    /\ envs s3 !! curenv s = Some
         (mkEnv (set_tf_regs (set_reg_eax 0 (tf_regs (env_tf r))) (env_tf r))
            (env_id r) (env_parent_id r) ENV_RUNNABLE (env_pgdir r)
            (env_pgfault_upcall r) false dstva value (env_id se) 0)
    /\ forall value' srcva' perm',
         sys_ipc_try_send (env_id r) value' srcva' perm' s3
         = Some (- E_IPC_NOT_RECV, s3).
Proof.
  intros Hrecv Hr Hid Hx Hsame Hse Hnopage.
  assert (Hr1 : envs s1 !! curenv s = Some
    (set_env_status ENV_NOT_RUNNABLE
       (set_env_ipc_dstva dstva (set_env_ipc_recving true r)))).
  { unfold sys_ipc_recv in Hrecv.
    destruct (_ && _); [discriminate|]. kred. rewrite Hr in Hrecv.
    simpl in Hrecv. injection Hrecv as <-. simpl.
    rewrite !lookup_alter_eq, Hr. reflexivity. }
  rewrite <- Hsame in Hr1.
  assert (Hlook : forall st x, envs st !! curenv s = Some x ->
            env_status x <> ENV_FREE -> env_id x = env_id r ->
            envid2env (env_id r) false st = Some ((0, curenv s), st)).
  { intros st x Hx1 Hx2 Hx3. unfold envid2env. kred.
    destruct (Z.eqb_spec (env_id r) 0); [done|].
    rewrite Hx, Hx1.
    destruct (EnvStatus_eqb (env_status x) ENV_FREE) eqn:Hf.
    { by apply EnvStatus_eqb_eq in Hf. }
    rewrite Hx3, Z.eqb_refl. reflexivity. }
  pose proof (update_ipc_fields_spec (curenv s) value 0 s2 _ _ Hr1 Hse) as Hupd.
  eexists. split; [|split].
  - unfold sys_ipc_try_send. unfold bind at 1.
    rewrite (Hlook s2 _ Hr1); [|done|done]. simpl.
    unfold bind at 1, deref at 1. rewrite Hr1. simpl.
    destruct Hnopage as [Hv|Hv].
    + destruct (Z.ltb_spec dstva UTOP); [lia|]. simpl. exact Hupd.
    + destruct (dstva <? UTOP); simpl; [|exact Hupd].
      destruct (Z.ltb_spec srcva UTOP); [lia|]. exact Hupd.
  - rewrite lookup_update_env_eq, Hr1. reflexivity.
  - intros value' srcva' perm'.
    eapply sys_ipc_try_send_not_recving.
    + eapply Hlook; [by rewrite lookup_update_env_eq, Hr1|done|done].
    + by rewrite lookup_update_env_eq, Hr1.
    + reflexivity.
Qed.

(** ** Page faults and unexpected traps through [trap] *)

(** [trap_dispatch] on a page fault. *)
Lemma trap_dispatch_pgflt (cr2 : Z) (c : Env) (s : KState) :
  envs s !! curenv s = Some c ->
  tf_trapno (env_tf c) = T_PGFLT ->
  trap_dispatch tf_curenv cr2 s
  = (n <- page_fault_handler cr2 ;; ret (no_return n)) s.
Proof.
  intros Hc Hno. unfold trap_dispatch, tf_read.
  unfold bind at 1. unfold bind at 1, gets at 1. unfold bind at 1, deref at 1.
  rewrite Hc. unfold ret at 1. rewrite Hno, Z.eqb_refl. reflexivity.
Qed.

(** X12: registering an upcall and faulting.  After
    [sys_env_set_pgfault_upcall(0, func)] with [func] not 0, a page fault of
    the caller from user mode, with the landing range of the exception
    stack mapped user-writable, makes [trap] end in [env_run] of the
    caller, which resumes at [func] on the frame that was pushed; nothing
    else of the environment changes but the saved frame.  That the landing
    range is mapped is what [user_mem_check] finds. *)
Theorem upcall_registered_then_fault
    (tf : Trapframe) (cr2 eflags func : Z) (c : Env) (s : KState) :
  PGSIZE + 4 + sizeof_UTrapframe <= UXSTACKTOP -> UXSTACKTOP <= 2 ^ 32 ->
  PTE_P <> 0 ->
  user_trap tf eflags c s ->
  tf_trapno tf = T_PGFLT ->
  func <> 0 ->
  0 < E_FAULT ->
  user_mem_check (curenv s) (upcall_frame_addr (tf_esp tf)) sizeof_UTrapframe
    (Z.lor (Z.lor PTE_U PTE_W) PTE_P) s = Some (0, s) ->
  exists s1 s',
    sys_env_set_pgfault_upcall 0 func s = Some (0, s1)
    /\ trap tf cr2 false eflags s1 = Some (no_return (env_run (curenv s)), s')
    /\ curenv s' = curenv s
    /\ envs s' !! curenv s = Some
         (set_env_tf (set_tf_eip func (set_tf_esp (upcall_frame_addr (tf_esp tf)) tf))
            (set_env_pgfault_upcall func c)).
Proof.
  intros Hlay1 Hlay2 HP Hut Hno Hfunc Hfault Hcheck.
  pose proof Hut as (HIF & Hcs & Hnull & Hc & Hst).
  pose proof (user_mem_check_inv _ _ _ _ _ _ _ _ Hfault Hc Hcheck ltac:(lia)) as Hmap.
  set (s1 := update_env (curenv s) (set_env_pgfault_upcall func) s).
  assert (Hc1 : envs s1 !! curenv s = Some (set_env_pgfault_upcall func c)).
  { unfold s1. by rewrite lookup_update_env_eq, Hc. }
  assert (Hut1 : user_trap tf eflags (set_env_pgfault_upcall func c) s1).
  { repeat split; done. }
  pose proof (frame_saved_lookup tf s1 _ Hc1) as Hc0.
  change (curenv s1) with (curenv s) in Hc0.
  destruct (upcall_frame_when_mapped (frame_saved tf s1) cr2
              (set_env_tf tf (set_env_pgfault_upcall func c)))
    as (_ & _ & s2 & s' & Hpf & _ & _ & Hcur' & Henvs & _); try done.
  { simpl. rewrite Hcs. done. }
  exists s1, s'. split.
  { unfold sys_env_set_pgfault_upcall, envid2env. kred. reflexivity. }
  split.
  { rewrite (trap_user_entry _ _ _ _ _ Hut1).
    unfold bindc at 1. unfold bind at 1.
    rewrite (trap_dispatch_pgflt cr2 _ _ Hc0); [|done].
    unfold bind at 1. rewrite Hpf. reflexivity. }
  split; [done|].
  rewrite Henvs. change (curenv (frame_saved tf s1)) with (curenv s).
  rewrite lookup_insert_eq. reflexivity.
Qed.

(** X13: a page fault from user mode in an environment without an upcall
    ends in [env_destroy] of the environment, with the frame of the trap
    saved and nothing else changed. *)
Theorem fault_without_upcall_destroys
    (tf : Trapframe) (cr2 eflags : Z) (c : Env) (s : KState) :
  user_trap tf eflags c s ->
  tf_trapno tf = T_PGFLT ->
  env_pgfault_upcall c = 0 ->
  trap tf cr2 false eflags s
  = Some (no_return (env_destroy (curenv s)), frame_saved tf s).
Proof.
  intros Hut Hno Hup.
  pose proof Hut as (HIF & Hcs & Hnull & Hc & Hst).
  pose proof (frame_saved_lookup tf s _ Hc) as Hc0.
  rewrite (trap_user_entry _ _ _ _ _ Hut).
  unfold bindc at 1. unfold bind at 1.
  rewrite (trap_dispatch_pgflt cr2 _ _ Hc0); [|done].
  unfold bind at 1. unfold page_fault_handler.
  unfold bind at 1, gets at 1. unfold bind at 1, deref at 1.
  change (curenv (frame_saved tf s)) with (curenv s). rewrite Hc0.
  simpl. rewrite Hcs, Hup. reflexivity.
Qed.

(** The numbers for which [trap_dispatch] has a handler. *)
Lemma trap_dispatch_unhandled (p : TfPtr) (cr2 : Z) (tf : Trapframe) (s s0 : KState) :
  tf_read p s = Some (tf, s0) ->
  tf_trapno tf ∉ [T_PGFLT; T_BRKPT; T_DEBUG; T_SYSCALL;
                  IRQ_OFFSET + IRQ_SPURIOUS; IRQ_OFFSET + IRQ_TIMER;
                  IRQ_OFFSET + IRQ_KBD] ->
  trap_dispatch p cr2 s
  = (if tf_cs tf =? GD_KT then panic
     else cur <- gets curenv ;;
          bindc (env_destroy_call cur) (fun _ => ret (returns tt))) s0.
Proof.
  intros Hr Hn. unfold trap_dispatch. unfold bind at 1. rewrite Hr.
  rewrite !not_elem_of_cons in Hn.
  repeat match goal with
  | |- context [tf_trapno tf =? ?c] =>
      destruct (Z.eqb_spec (tf_trapno tf) c) as [?|_]; [exfalso; intuition congruence|]
  end.
  reflexivity.
Qed.

(** X14: a trap that [trap_dispatch] has no handler for.  From user mode
    it costs the environment its life, and the kernel goes on: [trap] ends
    in [env_destroy] of the current environment.  In kernel mode (the
    code segment of the frame is [GD_KT]) the kernel panics. *)
Theorem trap_unexpected
    (tf : Trapframe) (cr2 eflags : Z) (s : KState) :
  tf_trapno tf ∉ [T_PGFLT; T_BRKPT; T_DEBUG; T_SYSCALL;
                  IRQ_OFFSET + IRQ_SPURIOUS; IRQ_OFFSET + IRQ_TIMER;
                  IRQ_OFFSET + IRQ_KBD] ->
  Z.land GD_KT 3 <> 3 ->
  Z.land eflags FL_IF = 0 ->
  (forall c, user_trap tf eflags c s ->
     trap tf cr2 false eflags s
     = Some (no_return (env_destroy (curenv s)), frame_saved tf s))
  /\ (tf_cs tf = GD_KT -> trap tf cr2 false eflags s = None).
Proof.
  intros Hn Hkt HIF. split.
  - intros c Hut. pose proof Hut as (_ & Hcs & Hnull & Hc & Hst).
    pose proof (frame_saved_lookup tf s _ Hc) as Hc0.
    rewrite (trap_user_entry _ _ _ _ _ Hut).
    unfold bindc at 1. unfold bind at 1.
    rewrite (trap_dispatch_unhandled tf_curenv cr2 tf _ (frame_saved tf s)); [| |done].
    2: { unfold tf_read. kred. rewrite lookup_alter_eq, Hc. reflexivity. }
    destruct (Z.eqb_spec (tf_cs tf) GD_KT) as [E|_]; [congruence|].
    unfold env_destroy_call, bindc. kred. rewrite Z.eqb_refl. reflexivity.
  - intros Hcs. unfold trap. rewrite HIF. simpl. rewrite Hcs.
    destruct (Z.eqb_spec (Z.land GD_KT 3) 3); [done|].
    unfold bindc at 1. unfold bind at 1. unfold ret at 1.
    unfold bindc at 1. unfold bind at 1.
    rewrite (trap_dispatch_unhandled _ cr2 tf _ s); [|done|done].
    rewrite Hcs, Z.eqb_refl. reflexivity.
Qed.

(** X15: the clock interrupt in user mode.  [trap] saves the frame of the
    trap in the environment, changes nothing else, and ends in the
    scheduler: the environment can be resumed later from exactly the state
    in which it was interrupted. *)
Theorem trap_timer_preempts
    (tf : Trapframe) (cr2 eflags : Z) (c : Env) (s : KState) :
  trap_numbers_distinct ->
  user_trap tf eflags c s ->
  tf_trapno tf = IRQ_OFFSET + IRQ_TIMER ->
  trap tf cr2 false eflags s = Some (sched_yield, frame_saved tf s)
  /\ envs (frame_saved tf s) !! curenv s = Some (set_env_tf tf c).
Proof.
  intros Hd Hut Hno. pose proof Hut as (_ & Hcs & Hnull & Hc & Hst).
  pose proof (frame_saved_lookup tf s _ Hc) as Hc0.
  split; [|done].
  rewrite (trap_user_entry _ _ _ _ _ Hut).
  unfold bindc at 1. unfold bind at 1.
  unfold trap_dispatch, tf_read.
  unfold bind at 1. unfold bind at 1, gets at 1. unfold bind at 1, deref at 1.
  change (curenv (frame_saved tf s)) with (curenv s). rewrite Hc0.
  unfold ret at 1. change (env_tf (set_env_tf tf c)) with tf. rewrite Hno.
  unfold trap_numbers_distinct in Hd.
  repeat (let X := fresh in apply NoDup_cons in Hd as [X Hd];
          rewrite ?not_elem_of_cons in X).
  repeat match goal with
  | |- context [IRQ_OFFSET + IRQ_TIMER =? ?c] =>
      destruct (Z.eqb_spec (IRQ_OFFSET + IRQ_TIMER) c) as [?|?];
        [first [exfalso; intuition congruence | reflexivity] | try done]
  end.
Qed.

(** ** The entry code and the descriptor tables *)

Lemma le_decode_encode (n : nat) (w : Z) :
  le_decode (le_encode n w) = w mod 256 ^ Z.of_nat n.
Proof.
  revert w. induction n as [|n IH]; intros w.
  - simpl. by rewrite Z.mod_1_r.
  - change (le_encode (S n) w) with (w mod 256 :: le_encode n (w / 256)).
    unfold le_decode in *. simpl foldr. rewrite IH.
    rewrite Nat2Z.inj_succ, Z.pow_succ_r by lia.
    rewrite Z.rem_mul_r by lia. reflexivity.
Qed.

Lemma le_decode_encode_low (w : Z) :
  le_decode (take 2 (le_encode 4 w)) = w mod 2 ^ 16.
Proof. exact (le_decode_encode 2 w). Qed.

Lemma le_decode_encode_high (w : Z) :
  le_decode (drop 2 (le_encode 4 w)) = (w / 2 ^ 16) mod 2 ^ 16.
Proof.
  change (drop 2 (le_encode 4 w)) with (le_encode 2 (w / 256 / 256)).
  rewrite le_decode_encode. rewrite Z.div_div by lia. reflexivity.
Qed.

Lemma seg_word_low (seg : Z) (c : Cpu) : seg_word seg c mod 2 ^ 16 = seg mod 2 ^ 16.
Proof.
  unfold seg_word. rewrite (Z.mul_comm (2 ^ 16)), Z.mod_add by lia.
  apply Z.mod_mod. lia.
Qed.

(** The code at every symbol of the table. *)
Lemma code_of_gate (v istrap sel dpl : Z) (off : Handler) (m : gmap Z Gatedesc)
    (P : Z -> Gatedesc -> Prop) :
  P v (mkGatedesc istrap sel off dpl) ->
  (forall w g, m !! w = Some g -> P w g) ->
  forall w g, SETGATE v istrap sel off dpl m !! w = Some g -> P w g.
Proof.
  intros Hv Hm w g. unfold SETGATE. rewrite lookup_insert.
  case_decide; [intros [= <-]; by subst|apply Hm].
Qed.

(** X16: every gate that [trap_init] installs leads to a handler that
    records the number of its own vector.  For every vector [v] with a gate
    the gate is an interrupt gate in the kernel code segment, and the code
    at its offset is [TRAPHANDLER] or [TRAPHANDLER_NOEC] of [v]: the
    [tf_trapno] that [trap] finds is the vector that was raised. *)
Theorem idt_gate_records_its_vector
    (i ts_addr v : Z) (t : Tables) (g : Gatedesc) :
  idt t = ∅ ->
  idt (trap_init i ts_addr t) !! v = Some g ->
  gd_istrap g = 0 /\ gd_sel g = GD_KT
  /\ exists code,
       code_of (gd_off g) = Some code
       /\ (code = TRAPHANDLER v \/ code = TRAPHANDLER_NOEC v).
Proof.
  intros Hempty. unfold trap_init, trap_init_percpu, set_idt. cbn [idt].
  rewrite Hempty.
  revert v g.
  repeat (apply code_of_gate;
          [cbn [gd_istrap gd_sel gd_off]; split; [done|]; split; [done|]; eexists;
           split; [reflexivity|]; auto|]).
  intros w g. by rewrite lookup_empty.
Qed.


(** X17: the gates user code may use.  When no interrupt line shares the
    vector 3, the gates of [trap_init] have privilege level 3 exactly at
    the vector 3 (breakpoint) and at [T_SYSCALL], and 0 everywhere else: a
    user-mode [int] reaches only these two handlers. *)
Theorem idt_user_gates
    (i ts_addr v : Z) (t : Tables) (g : Gatedesc) :
  idt t = ∅ ->
  ~ (IRQ_OFFSET <= 3 < IRQ_OFFSET + 16) ->
  idt (trap_init i ts_addr t) !! v = Some g ->
  (gd_dpl g = 3 /\ (v = 3 \/ v = T_SYSCALL))
  \/ (gd_dpl g = 0 /\ v <> 3 /\ v <> T_SYSCALL).
Proof.
  intros Hempty Hirq H.
  unfold trap_init, trap_init_percpu, set_idt, SETGATE in H. cbn [idt] in H.
  rewrite Hempty in H.
  repeat (rewrite lookup_insert in H;
          destruct (decide (_ = v)) as [?|?];
          [injection H as <-; cbn [gd_dpl];
           first [left; split; [done|]; solve [auto]
                 | right; split; [done|]; split; [lia|congruence]]|]).
  by rewrite lookup_empty in H.
Qed.

(** ** The frame that the entry code builds *)

Lemma wrap32_id (x : Z) : 0 <= x < 2 ^ 32 -> wrap32 x = x.
Proof. intros H. unfold wrap32. by apply Z.mod_small. Qed.

Lemma length_le_encode (n : nat) (w : Z) : length (le_encode n w) = n.
Proof. revert w. induction n as [|n IH]; intros w; simpl; [done|by rewrite IH]. Qed.

Lemma field_take (bs : list Z) (n off len : nat) :
  (off + len <= n)%nat -> field (take n bs) off len = field bs off len.
Proof.
  intros H. unfold field. f_equal.
  replace n with (off + (n - off))%nat by lia.
  rewrite <- take_drop_commute, take_take. f_equal. lia.
Qed.

Lemma field_skip (w : Z) (bs : list Z) (off len : nat) :
  field (le_encode 4 w ++ bs) (S (S (S (S off)))) len = field bs off len.
Proof.
  reflexivity.
Qed.

Lemma field_word (w : Z) (bs : list Z) :
  field (le_encode 4 w ++ bs) 0 4 = w mod 2 ^ 32.
Proof.
  exact (le_decode_encode 4 w).
Qed.

Lemma field_low (w : Z) (bs : list Z) :
  field (le_encode 4 w ++ bs) 0 2 = w mod 2 ^ 16.
Proof. exact (le_decode_encode 2 w). Qed.

Lemma field_high (w : Z) (bs : list Z) :
  field (le_encode 4 w ++ bs) 2 2 = (w / 2 ^ 16) mod 2 ^ 16.
Proof.
  change (field (le_encode 4 w ++ bs) 2 2) with (le_decode (le_encode 2 (w / 256 / 256))).
  rewrite le_decode_encode, Z.div_div by lia. reflexivity.
Qed.

Lemma flat_map_le_encode_cons (w : Z) (ws : list Z) :
  flat_map (le_encode 4) (w :: ws) = le_encode 4 w ++ flat_map (le_encode 4) ws.
Proof. reflexivity. Qed.

Lemma seg_word_word (seg : Z) (c : Cpu) : word (seg_word seg c).
Proof.
  unfold word, seg_word.
  pose proof (Z.mod_pos_bound seg (2 ^ 16) ltac:(lia)).
  pose proof (Z.mod_pos_bound (cpu_seg_hi c (wrap32 (cpu_esp c - 4))) (2 ^ 16) ltac:(lia)).
  lia.
Qed.

(** X18: the frame the entry code builds is a [struct Trapframe].  The
    processor enters at a symbol of kern/trapentry.S with its frame on the
    stack, with an error code on top exactly when the symbol is a
    [TRAPHANDLER]; the handler and [_alltraps] then call [trap] with a
    pointer [tf] to a stack that reads as a [struct Trapframe]: the number
    of the handler in [tf_trapno], the error code or the 0 of the handler
    in [tf_err], the registers of the moment of the trap in [tf_regs],
    [tf_ds] and [tf_es], and the frame of the processor in the fields from
    [tf_eip] on.  [trap] is entered with [GD_KD] in [ds] and [es] and with
    the general registers unchanged. *)
Theorem entry_builds_trapframe
    (h : Handler) (num : Z) (err : option Z) (eip cs eflags uesp uss : Z)
    (rest : list Z) (c : Cpu) :
  (code_of h = Some (TRAPHANDLER num) /\ is_Some err)
  \/ (code_of h = Some (TRAPHANDLER_NOEC num) /\ err = None) ->
  cpu_stack c = hardware_frame err eip cs eflags uesp uss ++ rest ->
  cpu_in_range c ->
  word num -> word eip -> word cs -> word eflags -> word uesp -> word uss ->
  (forall e, err = Some e -> word e) ->
  64 <= cpu_esp c < 2 ^ 32 ->
  exists tf c',
    enter h c = Some (tf, c')
    /\ tf = cpu_esp c - match err with Some _ => 44 | None => 48 end
    /\ tf_trapno (read_Trapframe c' tf) = num
    /\ tf_err (read_Trapframe c' tf) = default 0 err
    /\ tf_regs (read_Trapframe c' tf) = pushed_regs (tf + 32) c
    /\ tf_ds (read_Trapframe c' tf) = cpu_ds c
    /\ tf_es (read_Trapframe c' tf) = cpu_es c
    /\ tf_eip (read_Trapframe c' tf) = eip
    /\ tf_cs (read_Trapframe c' tf) = cs mod 2 ^ 16
    /\ tf_eflags (read_Trapframe c' tf) = eflags
    /\ tf_esp (read_Trapframe c' tf) = uesp
    /\ tf_ss (read_Trapframe c' tf) = uss mod 2 ^ 16
    /\ cpu_ds c' = GD_KD mod 2 ^ 16 /\ cpu_es c' = GD_KD mod 2 ^ 16
    /\ pushed_regs 0 c' = pushed_regs 0 c.
Proof.
  intros Hcode Hstack Hr Hnum Heip Hcs Hfl Huesp Huss Herr Hesp.
  destruct Hr as (Hax & Hcx & Hdx & Hbx & Hbp & Hsi & Hdi & Hds & Hes).
  destruct c as [ax cx dx bx sp bp si di ds es st hi].
  cbn [cpu_stack cpu_esp cpu_eax cpu_ecx cpu_edx cpu_ebx cpu_ebp cpu_esi cpu_edi
       cpu_ds cpu_es] in *.
  unfold word in *.
  assert (Hw : forall x, 0 <= x < 2 ^ 32 -> wrap32 x = x) by exact wrap32_id.
  destruct Hcode as [[Hcode [e ->]]|[Hcode ->]]; cbn [hardware_frame app] in Hstack;
    subst st.
  - specialize (Herr e eq_refl).
    unfold enter. rewrite Hcode. unfold TRAPHANDLER, _alltraps.
    cbv beta iota zeta delta
      [exec step mbind option_bind push pop cpu_stack cpu_esp cpu_eax cpu_ecx
       cpu_edx cpu_ebx cpu_ebp cpu_esi cpu_edi cpu_ds cpu_es cpu_seg_hi
       set_cpu_ds set_cpu_es].
    repeat match goal with
    | |- context [wrap32 ?x] => rewrite (Hw x) by lia
    end.
    eexists _, _. split; [reflexivity|]. split; [lia|].
    unfold read_Trapframe, stack_bytes. cbn [cpu_esp cpu_stack].
    match goal with
    | |- context [Z.to_nat (?a / 4)] => replace (a / 4) with 1 by (replace a with 4 by lia; reflexivity)
    end.
    change (Z.to_nat 1) with 1%nat. cbn [drop].
    change (Z.to_nat sizeof_Trapframe) with 68%nat.
    unfold Trapframe_of_bytes, pushed_regs.
    cbn [tf_trapno tf_err tf_regs tf_ds tf_es tf_eip tf_cs tf_eflags tf_esp tf_ss
         cpu_eax cpu_ecx cpu_edx cpu_ebx cpu_ebp cpu_esi cpu_edi cpu_ds cpu_es].
    rewrite !field_take by lia.
    rewrite !flat_map_le_encode_cons.
    rewrite ?field_skip, ?field_word, ?field_low, ?field_high.
    rewrite !seg_word_low.
    unfold wrap32. rewrite !(Z.mod_mod_divide GD_KD) by (by exists (2 ^ 16)).
    rewrite !(Z.mod_small _ (2 ^ 32)) by lia.
    rewrite (Z.mod_small ds), (Z.mod_small es) by lia.
    repeat split; try reflexivity; try (f_equal; lia).
  - clear Herr.
    unfold enter. rewrite Hcode. unfold TRAPHANDLER_NOEC, _alltraps.
    cbv beta iota zeta delta
      [exec step mbind option_bind push pop cpu_stack cpu_esp cpu_eax cpu_ecx
       cpu_edx cpu_ebx cpu_ebp cpu_esi cpu_edi cpu_ds cpu_es cpu_seg_hi
       set_cpu_ds set_cpu_es].
    repeat match goal with
    | |- context [wrap32 ?x] => rewrite (Hw x) by lia
    end.
    eexists _, _. split; [reflexivity|]. split; [lia|].
    unfold read_Trapframe, stack_bytes. cbn [cpu_esp cpu_stack].
    match goal with
    | |- context [Z.to_nat (?a / 4)] => replace (a / 4) with 1 by (replace a with 4 by lia; reflexivity)
    end.
    change (Z.to_nat 1) with 1%nat. cbn [drop].
    change (Z.to_nat sizeof_Trapframe) with 68%nat.
    unfold Trapframe_of_bytes, pushed_regs.
    cbn [tf_trapno tf_err tf_regs tf_ds tf_es tf_eip tf_cs tf_eflags tf_esp tf_ss
         cpu_eax cpu_ecx cpu_edx cpu_ebx cpu_ebp cpu_esi cpu_edi cpu_ds cpu_es].
    rewrite !field_take by lia.
    rewrite !flat_map_le_encode_cons.
    rewrite ?field_skip, ?field_word, ?field_low, ?field_high.
    rewrite !seg_word_low.
    unfold wrap32. rewrite !(Z.mod_mod_divide GD_KD) by (by exists (2 ^ 16)).
    rewrite !(Z.mod_small _ (2 ^ 32)) by lia.
    rewrite (Z.mod_small ds), (Z.mod_small es) by lia.
    repeat split; try reflexivity; try (f_equal; lia).
Qed.

(** ** The tables of the processors *)

(** X19: every processor gets a task state of its own.  After
    [trap_init_percpu] has run on two different processors [i] and [j], in
    either order, the task register of each selects the descriptor that
    was built for its own task state, the descriptors lie in different
    slots of the GDT, and the kernel stacks that the two task states point
    to do not overlap. *)
Theorem percpu_task_states_apart (i j tsi tsj : Z) (t : Tables) :
  0 <= i < j ->
  0 <= GD_TSS0 -> GD_TSS0 + 8 * j < 2 ^ 16 ->
  0 < KSTKSIZE -> 0 <= KSTKGAP ->
  (j + 1) * (KSTKSIZE + KSTKGAP) <= KSTACKTOP -> KSTACKTOP < 2 ^ 32 ->
  forall t',
    t' = trap_init_percpu j tsj (trap_init_percpu i tsi t)
    \/ t' = trap_init_percpu i tsi (trap_init_percpu j tsj t) ->
  exists seli selj topi topj,
    tr t' !! i = Some seli /\ tr t' !! j = Some selj
    /\ Z.shiftr seli 3 <> Z.shiftr selj 3
    /\ gdt t' !! Z.shiftr seli 3 = Some (mkSegdesc STS_T32A tsi (sizeof_Taskstate - 1) 0 (Some 0))
    /\ gdt t' !! Z.shiftr selj 3 = Some (mkSegdesc STS_T32A tsj (sizeof_Taskstate - 1) 0 (Some 0))
    /\ cpu_ts t' !! i = Some (topi, GD_KD) /\ cpu_ts t' !! j = Some (topj, GD_KD)
    /\ KSTKSIZE <= topj /\ topj <= topi - KSTKSIZE /\ topi <= KSTACKTOP.
Proof.
  intros Hij H0 Hsel Hsz Hgap Htop Htop32 t' Ht'.
  assert (Hsh : forall k, 0 <= k <= j ->
            Z.shiftr ((GD_TSS0 + 8 * k) mod 2 ^ 16) 3 = Z.shiftr GD_TSS0 3 + k).
  { intros k Hk. rewrite Z.mod_small by lia.
    rewrite !Z.shiftr_div_pow2 by lia. change (2 ^ 3) with 8.
    rewrite (Z.mul_comm 8), Z.div_add by lia. reflexivity. }
  assert (Hwr : forall k, 0 <= k <= j ->
            wrap32 (KSTACKTOP - k * (KSTKSIZE + KSTKGAP))
            = KSTACKTOP - k * (KSTKSIZE + KSTKGAP)).
  { intros k Hk. apply wrap32_id. nia. }
  exists ((GD_TSS0 + 8 * i) mod 2 ^ 16), ((GD_TSS0 + 8 * j) mod 2 ^ 16),
    (KSTACKTOP - i * (KSTKSIZE + KSTKGAP)), (KSTACKTOP - j * (KSTKSIZE + KSTKGAP)).
  rewrite !Hsh by lia.
  assert (Hne : Z.shiftr GD_TSS0 3 + i <> Z.shiftr GD_TSS0 3 + j) by lia.
  destruct Ht' as [-> | ->]; unfold trap_init_percpu, SEG16, set_sd_s;
    cbn [tr gdt cpu_ts sd_type sd_base sd_lim sd_dpl];
    rewrite !Hwr by lia;
    rewrite ?lookup_insert_eq, ?(lookup_insert_ne _ j i), ?(lookup_insert_ne _ i j),
      ?(lookup_insert_ne _ (Z.shiftr GD_TSS0 3 + j) (Z.shiftr GD_TSS0 3 + i)),
      ?(lookup_insert_ne _ (Z.shiftr GD_TSS0 3 + i) (Z.shiftr GD_TSS0 3 + j)),
      ?lookup_insert_eq by lia;
    repeat split; try done; nia.
Qed.

(** ** [trapname] *)


(** ** The command line of the monitor *)

Lemma length_append (s1 s2 : string) :
  String.length (s1 +:+ s2) = (String.length s1 + String.length s2)%nat.
Proof. induction s1 as [|c s1 IH]; simpl; [done|by rewrite IH]. Qed.

Lemma length_spaced (ws : list string) : (length ws <= String.length (spaced ws))%nat.
Proof.
  induction ws as [|w ws IH]; simpl; [done|]. rewrite length_append. lia.
Qed.

Lemma gobble_word (w r : string) : is_word w -> gobble (w +:+ r) = w +:+ r.
Proof.
  intros [Hne Hnb]. destruct w as [|c w]; [done|].
  destruct Hnb as (H0 & Hws & _). simpl in *. rewrite Hws.
  by rewrite andb_false_r.
Qed.

Lemma at_end_word (w r : string) : is_word w -> at_end (w +:+ r) = false.
Proof.
  intros [Hne Hnb]. destruct w as [|c w]; [done|].
  destruct Hnb as (H0 & _). simpl. by apply Ascii.eqb_neq.
Qed.

Lemma scan_word (w : string) (ws : list string) :
  no_blank w -> scan (w +:+ spaced ws) = (w, spaced ws).
Proof.
  intros Hnb. induction w as [|c w IH].
  - simpl. destruct ws; reflexivity.
  - destruct Hnb as (H0 & Hws & Hnb). specialize (IH Hnb).
    change (String c w +:+ spaced ws) with (String c (w +:+ spaced ws)).
    cbn [scan]. rewrite Hws, IH.
    apply Ascii.eqb_neq in H0. rewrite H0. reflexivity.
Qed.

Lemma gobble_spaced (w : string) (ws : list string) :
  is_word w -> gobble (spaced (w :: ws)) = w +:+ spaced ws.
Proof. intros Hw. cbn [spaced gobble]. simpl (_ && _). by apply gobble_word. Qed.

Lemma find_all_false {A : Type} (f : A -> bool) (l : list A) :
  (forall x, x ∈ l -> f x = false) -> List.find f l = None.
Proof.
  induction l as [|a l IH]; intros H; simpl; [done|].
  rewrite H by left. apply IH. intros x Hx. apply H. by right.
Qed.

(** The loop of [runcmd] on words that follow a space each. *)
Lemma parse_spaced (ws : list string) (fuel : nat) (argv : list string) :
  Forall is_word ws ->
  (length ws < fuel)%nat ->
  (length argv <= 15)%nat ->
  parse fuel (spaced ws) argv
  = if decide (length argv + length ws <= 15)%nat
    then Some (Some (argv ++ ws)) else Some None.
Proof.
  revert fuel argv. induction ws as [|w ws IH]; intros fuel argv Hws Hfuel Hargv.
  - destruct fuel as [|fuel]; [simpl in Hfuel; lia|]. simpl.
    rewrite app_nil_r. rewrite decide_True by (simpl; lia). reflexivity.
  - apply Forall_cons in Hws as [Hw Hws].
    destruct fuel as [|fuel]; [simpl in Hfuel; lia|].
    cbn [parse]. rewrite (gobble_spaced _ _ Hw), (at_end_word _ _ Hw).
    unfold MAXARGS. change (16 - 1) with 15.
    destruct (Z.eqb_spec (Z.of_nat (length argv)) 15) as [E|E].
    + rewrite decide_False by (simpl; lia). reflexivity.
    + rewrite (scan_word w ws) by apply Hw. cbn [fst snd].
      rewrite IH; [|done|simpl in Hfuel; lia|rewrite length_app; simpl; lia].
      rewrite length_app. simpl.
      rewrite <- app_assoc. simpl.
      destruct (decide (length argv + 1 + length ws <= 15)%nat),
               (decide (length argv + S (length ws) <= 15)%nat); try lia; reflexivity.
Qed.

(** X21: the words of a command line.  [runcmd] splits a line of words
    with single spaces between them into exactly these words, and gives
    up on a line of 16 words or more, although [MAXARGS] is 16: the last
    slot of [argv] is kept for the terminating null pointer.  A line of at
    most 15 words whose first word is the name of a command ends in the
    function of that command, called on the words; the name has to match
    as a whole ([show] and [showmappings] are two commands). *)
Theorem runcmd_words (w : string) (ws : list string) :
  Forall is_word (w :: ws) ->
  ((15 <= length ws)%nat -> runcmd (command_line (w :: ws)) = Some (ran_returns 0))
  /\ ((length ws < 15)%nat ->
      forall c, c ∈ commands -> w = cmd_name c ->
        runcmd (command_line (w :: ws))
        = Some (ran_calls (cmd_func c) (Z.of_nat (length (w :: ws))) (w :: ws)))
  /\ ((length ws < 15)%nat ->
      (forall c, c ∈ commands -> w <> cmd_name c) ->
      runcmd (command_line (w :: ws)) = Some (ran_returns 0)).
Proof.
  intros Hws. pose proof Hws as [Hw Hws']%Forall_cons.
  assert (Hparse : parse (S (String.length (command_line (w :: ws))))
                     (command_line (w :: ws)) []
                   = if decide (length ws < 15)%nat
                     then Some (Some (w :: ws)) else Some None).
  { cbn [command_line parse]. rewrite (gobble_word _ _ Hw), (at_end_word _ _ Hw).
    cbn [length]. change (Z.of_nat 0 =? MAXARGS - 1) with false. cbv iota.
    rewrite (scan_word w ws) by apply Hw. cbn [fst snd app].
    rewrite parse_spaced; [|done| |simpl; lia].
    2: { rewrite length_append. pose proof (length_spaced ws).
         destruct Hw as [Hne _]. destruct w; [done|]. simpl. lia. }
    simpl. destruct (decide (S (length ws) <= 15)%nat), (decide (length ws < 15)%nat);
      try lia; reflexivity. }
  unfold runcmd. rewrite Hparse.
  split; [|split].
  - intros Hlen. rewrite decide_False by lia. reflexivity.
  - intros Hlen c Hc ->. rewrite decide_True by lia. cbn [mbind option_bind].
    replace (List.find _ commands) with (Some c); [reflexivity|].
    unfold commands in *.
    repeat (apply elem_of_cons in Hc as [->|Hc]; [reflexivity|]).
    by apply elem_of_nil in Hc.
  - intros Hlen Hno. rewrite decide_True by lia. cbn [mbind option_bind].
    replace (List.find _ commands) with (@None Command); [reflexivity|].
    symmetry. apply find_all_false. intros c Hc.
    apply String.eqb_neq. by apply Hno.
Qed.

(** ** [mon_setperm] *)

Lemma land_wrap32_lnot (pte b : Z) :
  Z.land (Z.land pte (wrap32 (Z.lnot b))) b = Z.land (Z.land pte (Z.lnot b)) (Z.land b (Z.ones 32)).
Proof.
  unfold wrap32. rewrite <- Z.land_ones by lia.
  apply Z.bits_inj'. intros n Hn. rewrite !Z.land_spec.
  destruct (Z.testbit pte n), (Z.testbit (Z.lnot b) n), (Z.testbit (Z.ones 32) n),
    (Z.testbit b n); reflexivity.
Qed.

Lemma land_lnot_self (pte b : Z) : Z.land (Z.land pte (wrap32 (Z.lnot b))) b = 0.
Proof.
  rewrite land_wrap32_lnot.
  apply Z.bits_inj'. intros n Hn. rewrite !Z.land_spec, Z.lnot_spec, Z.bits_0 by done.
  destruct (Z.testbit pte n), (Z.testbit b n); reflexivity.
Qed.

(** X22: [setperm] takes the present bit away for good.  For an address
    that is mapped, [setperm va P 0] clears [PTE_P] in its entry; after
    that [setperm va P 1] finds the address not mapped and leaves the entry
    as it is, so the command cannot undo what it did.  [strtol] reads the
    address, "0" and "1" to the end of the string. *)
Theorem setperm_present_is_one_way
    (cmd a1 : string) (va pte : Z) (kern_pgdir : AddrSpace) :
  (strtol a1 0).1 = va -> at_end (strtol a1 0).2 = true ->
  strtol "0" 0 = (0, EmptyString) -> strtol "1" 0 = (1, EmptyString) ->
  pte_read kern_pgdir (wrap32 va) = Some pte ->
  Z.land pte PTE_P <> 0 ->
  exists pd1,
    mon_setperm 4 [cmd; a1; "P"; "0"]%string kern_pgdir = Some (0, pd1)
    /\ pte_read pd1 (wrap32 va) = Some (Z.land pte (wrap32 (Z.lnot PTE_P)))
    /\ mon_setperm 4 [cmd; a1; "P"; "1"]%string pd1 = Some (0, pd1).
Proof.
  intros Hva Hend H0 H1 Hpte HP.
  exists (pte_write (wrap32 va) (Z.land pte (wrap32 (Z.lnot PTE_P))) kern_pgdir).
  assert (Hnew : pte_read (pte_write (wrap32 va) (Z.land pte (wrap32 (Z.lnot PTE_P)))
                             kern_pgdir) (wrap32 va)
                 = Some (Z.land pte (wrap32 (Z.lnot PTE_P)))).
  { apply pte_read_pte_write. exact (pte_read_table _ _ _ Hpte). }
  split; [|split; [exact Hnew|]].
  - unfold mon_setperm. cbn [Z.eqb negb lookup list_lookup mbind option_bind].
    change (4 =? 4) with true. cbn [negb].
    cbn [lookup list_lookup mbind option_bind].
    rewrite Hva, Hend, H0. cbn [negb fst snd char0 char1 at_end].
    change (int32 0) with 0. cbn.
    rewrite Hpte. destruct (Z.eqb_spec (Z.land pte PTE_P) 0); [done|]. reflexivity.
  - unfold mon_setperm. change (4 =? 4) with true. cbn [negb].
    cbn [lookup list_lookup mbind option_bind].
    rewrite Hva, Hend, H1. cbn [negb fst snd char0 char1 at_end].
    change (int32 1) with 1. cbn.
    rewrite Hnew, land_lnot_self. reflexivity.
Qed.

Lemma pte_read_pte_write_ne (pd : AddrSpace) (va va' v : Z) :
  PDX va' <> PDX va \/ PTX va' <> PTX va ->
  pte_read (pte_write va v pd) va' = pte_read pd va'.
Proof.
  intros Hd. unfold pte_read, pte_write. simpl. rewrite lookup_alter.
  case_decide as Hpd; [|done].
  destruct (pd_tables pd !! PDX va) as [pt|] eqn:Hpt; rewrite <- Hpd, Hpt; [|done].
  simpl. rewrite lookup_insert_ne; [done|].
  destruct Hd; congruence.
Qed.

(** X23: [mon_setperm] returns 0 whatever its arguments are, so it never
    makes the monitor exit, and it changes at most one entry of
    [kern_pgdir], the entry of one address that is mapped, and in that
    entry at most one of the bits [PTE_P], [PTE_W] and [PTE_U]. *)
Theorem setperm_touches_one_bit
    (argc r : Z) (argv : list string) (kern_pgdir pd' : AddrSpace) :
  mon_setperm argc argv kern_pgdir = Some (r, pd') ->
  r = 0
  /\ (pd' = kern_pgdir
      \/ exists va pte bit,
           pte_read kern_pgdir va = Some pte
           /\ Z.land pte PTE_P <> 0
           /\ bit ∈ [PTE_P; PTE_W; PTE_U]
           /\ (pte_read pd' va = Some (Z.lor pte bit)
               \/ pte_read pd' va = Some (Z.land pte (wrap32 (Z.lnot bit))))
           /\ forall va', PDX va' <> PDX va \/ PTX va' <> PTX va ->
                pte_read pd' va' = pte_read kern_pgdir va').
Proof.
  intros H. unfold mon_setperm in H.
  assert (Hsame : forall x : option (Z * AddrSpace), x = Some (0, kern_pgdir) ->
            x = Some (r, pd') -> r = 0 /\ (pd' = kern_pgdir \/
              exists va pte bit, pte_read kern_pgdir va = Some pte
                /\ Z.land pte PTE_P <> 0 /\ bit ∈ [PTE_P; PTE_W; PTE_U]
                /\ (pte_read pd' va = Some (Z.lor pte bit)
                    \/ pte_read pd' va = Some (Z.land pte (wrap32 (Z.lnot bit))))
                /\ forall va', PDX va' <> PDX va \/ PTX va' <> PTX va ->
                     pte_read pd' va' = pte_read kern_pgdir va')).
  { intros x -> [= <- <-]. auto. }
  destruct (negb (argc =? 4)); [by apply (Hsame _ eq_refl)|].
  destruct (argv !! 1%nat) as [a1|]; [|discriminate]. cbn [mbind option_bind] in H.
  destruct (negb (at_end (strtol a1 0).2)); [by apply (Hsame _ eq_refl)|].
  destruct (argv !! 2%nat) as [a2|]; [|discriminate]. cbn [mbind option_bind] in H.
  destruct (char1 a2) as [c1|]; [|discriminate]. cbn [mbind option_bind] in H.
  destruct (_ || _); [by apply (Hsame _ eq_refl)|].
  destruct (argv !! 3%nat) as [a3|]; [|discriminate]. cbn [mbind option_bind] in H.
  destruct (_ || _); [by apply (Hsame _ eq_refl)|].
  destruct (pte_read kern_pgdir (wrap32 (strtol a1 0).1)) as [pte|] eqn:Hpte;
    [|by apply (Hsame _ eq_refl)].
  destruct (Z.eqb_spec (Z.land pte PTE_P) 0) as [|HP]; [by apply (Hsame _ eq_refl)|].
  clear Hsame. injection H as <- <-. split; [done|]. right.
  pose proof (pte_read_table _ _ _ Hpte) as Htab.
  set (bit := if Ascii.eqb (char0 a2) "P"%char then PTE_P
              else if Ascii.eqb (char0 a2) "W"%char then PTE_W else PTE_U).
  exists (wrap32 (strtol a1 0).1), pte, bit.
  split; [done|]. split; [done|].
  split.
  { unfold bit. destruct (Ascii.eqb _ "P"%char); [by left|].
    destruct (Ascii.eqb _ "W"%char); [by right; left|by right; right; left]. }
  split.
  { rewrite pte_read_pte_write by done.
    destruct (int32 (strtol a3 0).1 =? 1); auto. }
  intros va' Hd. by apply pte_read_pte_write_ne.
Qed.

(** ** [mon_showmappings] *)

Lemma PGSIZE_pos : 0 <= PGSHIFT -> 0 < PGSIZE.
Proof. intros H. unfold PGSIZE. by apply Z.pow_pos_nonneg. Qed.

Lemma PGSIZE_divides : 0 <= PGSHIFT <= 32 -> exists k, 2 ^ 32 = k * PGSIZE.
Proof.
  intros H. exists (2 ^ (32 - PGSHIFT)). unfold PGSIZE.
  rewrite <- Z.pow_add_r by lia. f_equal. lia.
Qed.

(** The loop from a page to a page below the last one. *)
Lemma showmappings_loop_ends (n : nat) (va va_end : Z) (pd : AddrSpace) :
  0 <= PGSHIFT ->
  0 <= va -> va_end = va + Z.of_nat n * PGSIZE -> va_end + PGSIZE < 2 ^ 32 ->
  showmappings_loop (S (S n)) va va_end pd
  = Some (mapping_line pd <$> ((fun k => va + k * PGSIZE) <$> seqZ 0 (Z.of_nat n + 1))).
Proof.
  intros Hsh. pose proof (PGSIZE_pos Hsh) as Hpos.
  revert va. induction n as [|n IH]; intros va Hva Hend Hlast.
  - cbn [showmappings_loop].
    assert (va_end = va) as -> by (simpl in Hend; lia).
    rewrite Z.leb_refl. rewrite wrap32_id by lia.
    destruct (Z.leb_spec (va + PGSIZE) va); [lia|].
    change (seqZ 0 (Z.of_nat 0 + 1)) with [0].
    cbn [fmap list_fmap option_fmap option_map].
    replace (va + 0 * PGSIZE) with va by lia. reflexivity.
  - remember (S (S n)) as fuel. cbn [showmappings_loop].
    destruct (Z.leb_spec va va_end); [|nia].
    rewrite wrap32_id by nia. subst fuel.
    rewrite IH by nia.
    replace (Z.of_nat (S n) + 1) with (Z.succ (Z.of_nat n + 1)) by lia.
    rewrite (seqZ_cons 0 (Z.succ (Z.of_nat n + 1))) by lia.
    rewrite Z.pred_succ. change (Z.succ 0) with (1 + 0).
    rewrite <- (fmap_add_seqZ 1 0).
    cbn [fmap list_fmap option_fmap option_map].
    replace (va + 0 * PGSIZE) with va by lia.
    f_equal. f_equal.
    rewrite <- !list_fmap_compose.
    apply list_fmap_ext. intros i k _. simpl. f_equal. lia.
Qed.

(** The loop when the last page of the address space is in the range. *)
Lemma showmappings_loop_wraps (fuel : nat) (va : Z) (pd : AddrSpace) :
  0 <= PGSHIFT <= 32 ->
  0 <= va < 2 ^ 32 -> va mod PGSIZE = 0 ->
  showmappings_loop fuel va (2 ^ 32 - PGSIZE) pd = None.
Proof.
  intros Hsh. pose proof (PGSIZE_pos (proj1 Hsh)) as Hpos.
  destruct (PGSIZE_divides Hsh) as [k Hk].
  revert va. induction fuel as [|fuel IH]; intros va Hva Hal; [reflexivity|].
  cbn [showmappings_loop].
  assert (va <= 2 ^ 32 - PGSIZE).
  { apply Z.mod_divide in Hal; [|lia]. destruct Hal as [q ->].
    assert (q < k) by (apply (Z.mul_lt_mono_pos_r PGSIZE); lia).
    assert (q * PGSIZE <= (k - 1) * PGSIZE) by (apply Z.mul_le_mono_nonneg_r; lia).
    lia. }
  destruct (Z.leb_spec va (2 ^ 32 - PGSIZE)); [|lia].
  rewrite IH; [reflexivity| |].
  - unfold wrap32. apply Z.mod_pos_bound. lia.
  - unfold wrap32. rewrite Hk at 1.
    rewrite Z.mod_mod_divide by (by exists k).
    rewrite <- Z.add_mod_idemp_l, Hal by lia. simpl. apply Z.mod_same. lia.
Qed.


Lemma ROUNDDOWN_spec (a : Z) :
  0 <= PGSHIFT -> 0 <= a ->
  0 <= ROUNDDOWN a PGSIZE <= a /\ ROUNDDOWN a PGSIZE mod PGSIZE = 0
  /\ ROUNDDOWN a PGSIZE = a / PGSIZE * PGSIZE.
Proof.
  intros Hsh Ha. pose proof (PGSIZE_pos Hsh) as Hpos. unfold ROUNDDOWN.
  pose proof (Z.mod_pos_bound a PGSIZE Hpos).
  assert (HPG : PGSIZE <> 0) by lia.
  pose proof (Z.div_mod a PGSIZE HPG).
  assert (a - a mod PGSIZE = a / PGSIZE * PGSIZE) as -> by lia.
  split; [|split; [apply Z.mod_mul; lia|done]].
  assert (0 <= a / PGSIZE) by (apply Z.div_pos; lia). nia.
Qed.

(** X24: the range of [showmappings].  With two addresses that [strtol]
    reads to the end, the command prints one line for every page from the
    page of the lower address to the page of the higher one and returns 0,
    as long as the higher address lies below the last page of the 32-bit
    address space.  When it lies in the last page, the address of the loop
    wraps around to 0 instead of passing the end, and the command never
    returns. *)
Theorem showmappings_range (cmd a1 a2 : string) (kern_pgdir : AddrSpace) :
  0 <= PGSHIFT <= 32 ->
  at_end (strtol a1 0).2 = true -> at_end (strtol a2 0).2 = true ->
  let v1 := wrap32 (strtol a1 0).1 in
  let v2 := wrap32 (strtol a2 0).1 in
  let lo := ROUNDDOWN (Z.min v1 v2) PGSIZE in
  let hi := ROUNDDOWN (Z.max v1 v2) PGSIZE in
  (hi + PGSIZE < 2 ^ 32 ->
   exists fuel,
     mon_showmappings fuel 3 [cmd; a1; a2] kern_pgdir
     = Some (0, mapping_line kern_pgdir
                  <$> ((fun k => lo + k * PGSIZE) <$> seqZ 0 ((hi - lo) / PGSIZE + 1))))
  /\ (2 ^ 32 <= hi + PGSIZE ->
      forall fuel, mon_showmappings fuel 3 [cmd; a1; a2] kern_pgdir = None).
Proof.
  intros Hsh He1 He2 v1 v2 lo hi.
  pose proof (PGSIZE_pos (proj1 Hsh)) as Hpos.
  assert (Hv1 : 0 <= v1 < 2 ^ 32) by (apply Z.mod_pos_bound; lia).
  assert (Hv2 : 0 <= v2 < 2 ^ 32) by (apply Z.mod_pos_bound; lia).
  destruct (ROUNDDOWN_spec (Z.min v1 v2) (proj1 Hsh) ltac:(lia)) as (Hlo & Hloal & Hlodiv).
  destruct (ROUNDDOWN_spec (Z.max v1 v2) (proj1 Hsh) ltac:(lia)) as (Hhi & Hhial & Hhidiv).
  fold lo in Hlo, Hloal, Hlodiv. fold hi in Hhi, Hhial, Hhidiv.
  assert (Hrun : forall fuel,
    mon_showmappings fuel 3 [cmd; a1; a2] kern_pgdir
    = (ls ← showmappings_loop fuel lo hi kern_pgdir; Some (0, ls))).
  { intros fuel. unfold mon_showmappings. change (3 =? 3) with true.
    cbn [negb lookup list_lookup mbind option_bind]. rewrite He1, He2. cbn [negb].
    fold v1 v2. unfold lo, hi.
    destruct (Z.ltb_spec v2 v1).
    - rewrite Z.min_r, Z.max_l by lia. reflexivity.
    - rewrite Z.min_l, Z.max_r by lia. reflexivity. }
  assert (Hle : Z.min v1 v2 / PGSIZE <= Z.max v1 v2 / PGSIZE)
    by (apply Z.div_le_mono; lia).
  split.
  - intros Hlast.
    set (n := Z.to_nat ((hi - lo) / PGSIZE)).
    assert (Hn : hi = lo + Z.of_nat n * PGSIZE).
    { unfold n. rewrite Hhidiv, Hlodiv.
      rewrite <- Z.mul_sub_distr_r, Z.div_mul by lia.
      rewrite Z2Nat.id by lia. lia. }
    exists (S (S n)). rewrite Hrun.
    rewrite (showmappings_loop_ends n lo hi) by (done || lia).
    cbn [mbind option_bind]. do 4 f_equal.
    unfold n. rewrite Z2Nat.id; [done|].
    apply Z.div_pos; [|lia]. rewrite Hhidiv, Hlodiv. nia.
  - intros Hlast fuel. rewrite Hrun.
    assert (hi = 2 ^ 32 - PGSIZE) as ->.
    { destruct (PGSIZE_divides Hsh) as [k Hk].
      assert (Z.max v1 v2 / PGSIZE < k).
      { apply Z.div_lt_upper_bound; lia. }
      assert (Z.max v1 v2 / PGSIZE * PGSIZE <= (k - 1) * PGSIZE)
        by (apply Z.mul_le_mono_nonneg_r; lia).
      lia. }
    rewrite showmappings_loop_wraps; [reflexivity|done|lia|done].
Qed.

(** ** The block cache *)

(** [sys_page_map] of a page of the caller onto itself. *)
Lemma sys_page_map_self (s : KState) (c : Env) (a pte perm : Z) :
  envs s !! curenv s = Some c ->
  a < UTOP -> PGOFF a = 0 ->
  Z.land perm (Z.lor PTE_U PTE_P) = Z.lor PTE_U PTE_P ->
  Z.land perm (Z.lnot PTE_SYSCALL) = 0 ->
  pte_read (env_pgdir c) a = Some pte ->
  Z.land pte PTE_P <> 0 ->
  (Z.land perm PTE_W <> 0 -> Z.land pte PTE_W <> 0) ->
  sys_page_map 0 a 0 a perm s
  = Some (0, update_env (curenv s)
               (fun en => set_env_pgdir
                  (pte_write a (Z.lor (Z.lor (page2pa (pa2page (PTE_ADDR pte))) perm) PTE_P)
                     (pte_write a 0 (env_pgdir en))) en)
               (decref_state (pa2page (PTE_ADDR pte))
                  (incref_state (pa2page (PTE_ADDR pte)) s))).
Proof.
  intros Hc Ha Hal Hup Hmask Hpte HP Hw.
  unfold sys_page_map, envid2env.
  unfold bind at 1. unfold bind at 1, gets at 1. cbn [Z.eqb]. unfold ret at 1.
  cbn [fst snd]. change (0 <? 0) with false. cbv iota.
  unfold bind at 1. unfold bind at 1, gets at 1. unfold ret at 1.
  cbn [fst snd]. change (0 <? 0) with false. cbv iota.
  destruct (Z.leb_spec UTOP a); [lia|]. rewrite Hal. cbn [Z.eqb negb orb].
  rewrite Hup, Hmask, !Z.eqb_refl. cbn [negb orb].
  unfold bind at 1. rewrite (page_lookup_unfold _ _ _ _ Hc), Hpte.
  destruct (Z.eqb_spec (Z.land pte PTE_P) 0) as [|_]; [done|].
  replace (negb (Z.land perm PTE_W =? 0) && (Z.land pte PTE_W =? 0)) with false.
  2: { symmetry. apply andb_false_iff.
       destruct (Z.eqb_spec (Z.land perm PTE_W) 0); [by left|right].
       apply Z.eqb_neq. auto. }
  unfold bind at 1.
  rewrite (page_insert_mapped _ _ _ _ pte _ c Hc Hpte); [|by apply Z.eqb_neq].
  reflexivity.
Qed.


Lemma va_is_mapped_unfold (a : Z) (s : KState) (c : Env) :
  envs s !! curenv s = Some c ->
  va_is_mapped a s
  = Some (match pte_read (env_pgdir c) a with
          | Some pte => negb (Z.land pte PTE_P =? 0)
          | None => false
          end, s).
Proof.
  intros Hc. unfold va_is_mapped, uvpd_present, uvpt, pte_read. kred. rewrite Hc.
  destruct (pd_tables (env_pgdir c) !! PDX a) as [pt|] eqn:Hpt.
  - rewrite bool_decide_true by eauto. simpl. by rewrite Hc, Hpt.
  - rewrite bool_decide_false; [done|]. by intros [? ?].
Qed.

Lemma va_is_dirty_unfold (a pte : Z) (s : KState) (c : Env) :
  envs s !! curenv s = Some c ->
  pte_read (env_pgdir c) a = Some pte ->
  va_is_dirty a s = Some (negb (Z.land pte PTE_D =? 0), s).
Proof.
  intros Hc Hpte. unfold va_is_dirty, uvpt. kred. by rewrite Hc, Hpte.
Qed.

Lemma land_lor_0 (a b c : Z) : Z.land a c = 0 -> Z.land b c = 0 -> Z.land (Z.lor a b) c = 0.
Proof. intros Ha Hb. by rewrite Z.land_lor_distr_l, Ha, Hb. Qed.

Lemma page2pa_low (pp x : Z) :
  0 <= PGSHIFT -> Z.land x (Z.lnot (PGSIZE - 1)) = 0 -> Z.land (page2pa pp) x = 0.
Proof.
  intros Hk Hx. unfold page2pa, PGSIZE in *.
  replace (2 ^ PGSHIFT - 1) with (Z.ones PGSHIFT) in * by (rewrite Z.ones_equiv; lia).
  apply Z.bits_inj'. intros n Hn.
  apply (f_equal (fun y => Z.testbit y n)) in Hx.
  rewrite Z.land_spec, Z.lnot_spec, Z.bits_0 in Hx by lia.
  rewrite Z.land_spec, Z.bits_0.
  destruct (Z.lt_ge_cases n PGSHIFT).
  - by rewrite Z.shiftl_spec_low.
  - rewrite Z.ones_spec_high in Hx by lia. simpl in Hx.
    rewrite andb_true_r in Hx. rewrite Hx. apply andb_false_r.
Qed.

(** [flush_block] on an address of the disk map. *)
Lemma flush_block_at (addr : Z) (s : KState) (c : Env) :
  perm_bits_low -> PTE_P <> 0 ->
  Z.land PTE_SYSCALL (Z.lor PTE_U PTE_P) = Z.lor PTE_U PTE_P ->
  Z.land PTE_SYSCALL PTE_D = 0 -> Z.land PTE_P PTE_D = 0 ->
  Z.land PTE_D (Z.lnot (PGSIZE - 1)) = 0 ->
  0 <= DISKMAP -> wrap32 (DISKMAP + DISKSIZE) <= UTOP ->
  DISKMAP <= addr < wrap32 (DISKMAP + DISKSIZE) ->
  envs s !! curenv s = Some c ->
  let a := ROUNDDOWN addr PGSIZE in
  (match pte_read (env_pgdir c) a with
   | Some pte => Z.land pte PTE_P = 0 \/ Z.land pte PTE_D = 0
   | None => True
   end -> flush_block addr s = Some (tt, s))
  /\ forall pte,
       pte_read (env_pgdir c) a = Some pte ->
       Z.land pte (Z.lor PTE_U PTE_P) = Z.lor PTE_U PTE_P ->
       Z.land pte PTE_D <> 0 ->
       ide_write (wrap32 (wrap32 (addr - DISKMAP) / BLKSIZE * BLKSECTS)) a BLKSECTS s
       = Some (0, s) ->
       0 < pp_ref s (pa2page (PTE_ADDR pte)) ->
       exists s',
         flush_block addr s = Some (tt, s')
         /\ va_is_mapped a s' = Some (true, s')
         /\ va_is_dirty a s' = Some (false, s')
         /\ page_lookup (curenv s) a s'
            = Some (Some (pa2page (PTE_ADDR pte),
                          Z.lor (page2pa (pa2page (PTE_ADDR pte)))
                                (Z.land pte PTE_SYSCALL)), s')
         /\ (forall f, pp_ref s' f = pp_ref s f)
         /\ page_free_list s' = page_free_list s
         /\ physmem s' = physmem s.
Proof.
  intros Hlow HP Hsys HsysD HPD HDlow H0 Htop Hin Hc a.
  pose proof Hlow as [Hk Hsyslow].
  destruct (ROUNDDOWN_spec addr Hk ltac:(lia)) as (Ha & Hal & _). fold a in Ha, Hal.
  assert (Hrange : (addr <? DISKMAP) || (wrap32 (DISKMAP + DISKSIZE) <=? addr) = false).
  { apply orb_false_iff. split; [apply Z.ltb_ge|apply Z.leb_gt]; lia. }
  split.
  - intros Hclean. unfold flush_block. rewrite Hrange. fold a.
    unfold bind at 1. rewrite (va_is_mapped_unfold _ _ _ Hc).
    destruct (pte_read (env_pgdir c) a) as [pte|] eqn:Hpte; [|reflexivity].
    destruct (Z.eqb_spec (Z.land pte PTE_P) 0) as [|HPn]; [reflexivity|].
    destruct Hclean as [|Hnd]; [done|]. cbn [negb].
    unfold bind at 1. unfold bind at 1. rewrite (va_is_dirty_unfold _ _ _ _ Hc Hpte).
    rewrite Hnd. reflexivity.
  - intros pte Hpte Hup Hdirty Hide Href.
    apply land_covers_lor in Hup as [HU HPp].
    assert (HPn : Z.land pte PTE_P <> 0) by (rewrite HPp; exact HP).
    set (perm := Z.land pte PTE_SYSCALL).
    assert (HpermUP : Z.land perm (Z.lor PTE_U PTE_P) = Z.lor PTE_U PTE_P).
    { unfold perm. rewrite <- Z.land_assoc, Hsys. apply land_covers_lor. by split. }
    assert (Hpermmask : Z.land perm (Z.lnot PTE_SYSCALL) = 0).
    { unfold perm. rewrite <- Z.land_assoc, Z.land_lnot_diag. apply Z.land_0_r. }
    assert (HpermP : Z.land perm PTE_P = PTE_P).
    { apply land_covers_lor in HpermUP. tauto. }
    assert (HpermW : Z.land perm PTE_W <> 0 -> Z.land pte PTE_W <> 0).
    { unfold perm. intros Hw E. apply Hw.
      rewrite <- Z.land_assoc, (Z.land_comm PTE_SYSCALL), Z.land_assoc, E.
      apply Z.land_0_l. }
    set (pp := pa2page (PTE_ADDR pte)) in *.
    assert (Hoff : PGOFF a = 0) by (rewrite PGOFF_mod by lia; exact Hal).
    assert (HaU : a < UTOP) by lia.
    pose proof (sys_page_map_self s c a pte perm Hc HaU Hoff
                  HpermUP Hpermmask Hpte HPn HpermW) as Hmap.
    fold pp in Hmap.
    set (s' := update_env (curenv s) _ _) in Hmap.
    assert (Hcur' : curenv s' = curenv s).
    { unfold s', decref_state. simpl. by destruct (_ =? 0). }
    assert (Hc' : envs s' !! curenv s' = Some
              (set_env_pgdir (pte_write a (Z.lor (Z.lor (page2pa pp) perm) PTE_P)
                                (pte_write a 0 (env_pgdir c))) c)).
    { rewrite Hcur'. unfold s'.
      rewrite lookup_update_env_eq, envs_decref_state. simpl. by rewrite Hc. }
    assert (Hpte' : pte_read (env_pgdir (set_env_pgdir
                       (pte_write a (Z.lor (Z.lor (page2pa pp) perm) PTE_P)
                          (pte_write a 0 (env_pgdir c))) c)) a
                    = Some (Z.lor (Z.lor (page2pa pp) perm) PTE_P)).
    { simpl. apply pte_read_pte_write, pte_write_table.
      exact (pte_read_table _ _ _ Hpte). }
    exists s'. split; [|split; [|split; [|split; [|split; [|split]]]]].
    + unfold flush_block. rewrite Hrange. fold a.
      unfold bind at 1. rewrite (va_is_mapped_unfold _ _ _ Hc), Hpte.
      destruct (Z.eqb_spec (Z.land pte PTE_P) 0) as [|_]; [done|]. cbn [negb].
      unfold bind at 1. unfold bind at 1.
      rewrite (va_is_dirty_unfold _ _ _ _ Hc Hpte).
      destruct (Z.eqb_spec (Z.land pte PTE_D) 0) as [|_]; [done|].
      unfold ret at 1. cbn [negb]. unfold ret at 1.
      unfold bind at 1. rewrite Hide. change (0 <? 0) with false. cbv iota.
      unfold bind at 1. unfold uvpt at 1. kred. rewrite Hc, Hpte.
      fold perm. rewrite Hmap. reflexivity.
    + rewrite (va_is_mapped_unfold _ _ _ Hc'), Hpte'.
      destruct (Z.eqb_spec (Z.land (Z.lor (Z.lor (page2pa pp) perm) PTE_P) PTE_P) 0)
        as [E|_]; [|reflexivity].
      exfalso. rewrite Z.land_lor_distr_l, Z.land_diag in E.
      apply Z.lor_eq_0_iff in E. tauto.
    + rewrite (va_is_dirty_unfold _ _ _ _ Hc' Hpte').
      rewrite !land_lor_0; [reflexivity| |done].
      apply land_lor_0; [by apply page2pa_low|].
      unfold perm. rewrite <- Z.land_assoc, HsysD. apply Z.land_0_r.
    + rewrite <- Hcur'.
      by apply (page_lookup_inserted _ _ _ _ _ _ Hlow HP HpermP Hpermmask Hc').
    + intros f. unfold s', pp_ref. simpl. rewrite pages_decref_state.
      unfold incref_state, pp_ref. simpl.
      destruct (decide (f = pp)) as [->|Hne].
      * rewrite !lookup_insert_eq. simpl. lia.
      * by rewrite !lookup_insert_ne.
    + unfold s'. simpl. rewrite free_list_decref_state.
      unfold incref_state, pp_ref at 1. simpl. rewrite lookup_insert_eq. simpl.
      fold (pp_ref s pp).
      destruct (Z.eqb_spec (pp_ref s pp + 1 - 1) 0); [lia|reflexivity].
    + unfold s'. simpl. by rewrite physmem_decref_state.
Qed.

(** ** Mapping and unmapping *)

Lemma page_insert_unmapped (e pp va perm pte0 : Z) (s : KState) (en : Env) :
  envs s !! e = Some en ->
  pte_read (env_pgdir en) va = Some pte0 ->
  Z.land pte0 PTE_P = 0 ->
  page_insert e pp va perm s
  = Some (0, update_env e
               (fun en => set_env_pgdir
                  (pte_write va (Z.lor (Z.lor (page2pa pp) perm) PTE_P) (env_pgdir en)) en)
               (incref_state pp s)).
Proof.
  intros He Hpte Hp. unfold page_insert, bind at 1.
  rewrite (pgdir_walk_create_existing _ _ _ _ He (pte_read_table _ _ _ Hpte)).
  simpl. unfold bind at 1, page_incref at 1, modify at 1.
  unfold bind at 1. rewrite page_remove_unmapped.
  2: { rewrite (page_lookup_unfold _ _ _ en) by done. by rewrite Hpte, Hp. }
  reflexivity.
Qed.

(** X26: mapping a page and unmapping it again leaks nothing.  After a
    successful [sys_page_map] to an address of the destination where
    nothing was mapped (the page table being there), [sys_page_unmap] of
    that address returns 0 and leaves the reference counts of all frames,
    the free list and the memory as they were before the two calls; the
    destination is unmapped again, and the source keeps its mapping.  The
    frame of the source is counted, as a mapped frame is. *)
Theorem sys_page_map_unmap_round_trip
    (s s1 : KState) (srcenvid srcva dstenvid dstva perm de pte0 : Z) (den : Env) :
  errnos_positive -> perm_bits_low -> PTE_P <> 0 ->
  sys_page_map srcenvid srcva dstenvid dstva perm s = Some (0, s1) ->
  envid2env dstenvid true s = Some ((0, de), s) ->
  envs s !! de = Some den ->
  pte_read (env_pgdir den) dstva = Some pte0 ->
  Z.land pte0 PTE_P = 0 ->
  (forall se pp pte,
     envid2env srcenvid true s = Some ((0, se), s) ->
     page_lookup se srcva s = Some (Some (pp, pte), s) -> 0 < pp_ref s pp) ->
  exists s2,
    sys_page_unmap dstenvid dstva s1 = Some (0, s2)
    /\ (forall f, pp_ref s2 f = pp_ref s f)
    /\ page_free_list s2 = page_free_list s
    /\ physmem s2 = physmem s
    /\ page_lookup de dstva s2 = Some (None, s2)
    /\ forall se pp pte,
         envid2env srcenvid true s = Some ((0, se), s) ->
         page_lookup se srcva s = Some (Some (pp, pte), s) ->
         diff_entry de dstva se srcva ->
         page_lookup se srcva s2 = Some (Some (pp, pte), s2).
Proof.
  intros Hpos Hlow HP Hmap Hde Hden Hpte0 Hp0 Href.
  destruct (sys_page_map_inv _ _ _ _ _ _ _ Hpos Hmap)
    as (se & de' & pp & pte & Hrs & Hrd & Hsv & Hsa & Hdv & Hda & HpU & HpP & Hperm
        & Hl & Hw & Hi).
  assert (de' = de) as -> by congruence.
  specialize (Href se pp pte Hrs Hl).
  rewrite (page_insert_unmapped _ _ _ _ pte0 _ den Hden Hpte0 Hp0) in Hi.
  injection Hi as Hs1.
  set (new := Z.lor (Z.lor (page2pa pp) perm) PTE_P) in *.
  assert (Hden1 : envs s1 !! de = Some (set_env_pgdir (pte_write dstva new (env_pgdir den)) den)).
  { rewrite <- Hs1. rewrite lookup_update_env_eq. simpl. by rewrite Hden. }
  assert (Hpte1 : pte_read (pte_write dstva new (env_pgdir den)) dstva = Some new).
  { apply pte_read_pte_write. exact (pte_read_table _ _ _ Hpte0). }
  assert (HnewP : (Z.land new PTE_P =? 0) = false).
  { apply Z.eqb_neq. unfold new. rewrite Z.land_lor_distr_l, Z.land_diag.
    intros E. apply Z.lor_eq_0_iff in E. tauto. }
  assert (Hnewpp : pa2page (PTE_ADDR new) = pp).
  { unfold new. rewrite <- Z.lor_assoc. apply pa2page_pte; [apply Hlow|].
    rewrite (lor_absorb _ _ HpP). by apply perm_low. }
  assert (Hse : same_envs s s1).
  { rewrite <- Hs1. eapply same_envs_trans; [|apply same_envs_pgdir].
    split; [reflexivity|]. split; reflexivity. }
  pose proof (envid2env_same_envs _ _ _ _ _ Hse Hde) as Hde1.
  set (s2 := update_env de (fun en => set_env_pgdir (pte_write dstva 0 (env_pgdir en)) en)
               (decref_state pp s1)).
  exists s2.
  assert (Hunmap : sys_page_unmap dstenvid dstva s1 = Some (0, s2)).
  { unfold sys_page_unmap. unfold bind at 1. rewrite Hde1. cbn [fst snd].
    change (0 <? 0) with false. cbv iota.
    destruct (Z.leb_spec UTOP dstva); [lia|]. rewrite Hda. cbn [Z.eqb negb orb].
    unfold bind at 1.
    rewrite (page_remove_mapped _ _ new _ _ Hden1 Hpte1 HnewP), Hnewpp. reflexivity. }
  assert (Hpages : forall f, pp_ref s2 f = pp_ref s f).
  { intros f. unfold s2, pp_ref. simpl. rewrite pages_decref_state.
    rewrite <- Hs1. unfold incref_state, pp_ref. simpl.
    destruct (decide (f = pp)) as [->|Hne].
    - rewrite !lookup_insert_eq. simpl. lia.
    - by rewrite !lookup_insert_ne. }
  assert (Hden2 : envs s2 !! de = Some
            (set_env_pgdir (pte_write dstva 0 (pte_write dstva new (env_pgdir den))) den)).
  { unfold s2. rewrite lookup_update_env_eq, envs_decref_state, Hden1. reflexivity. }
  split; [exact Hunmap|]. split; [exact Hpages|].
  split.
  { unfold s2. simpl. rewrite free_list_decref_state.
    rewrite <- Hs1. unfold incref_state, pp_ref at 1. simpl.
    rewrite lookup_insert_eq. simpl. fold (pp_ref s pp).
    destruct (Z.eqb_spec (pp_ref s pp + 1 - 1) 0); [lia|reflexivity]. }
  split.
  { unfold s2. simpl. rewrite physmem_decref_state. by rewrite <- Hs1. }
  split.
  { rewrite (page_lookup_unfold _ _ _ _ Hden2). simpl.
    rewrite pte_read_pte_write.
    - by rewrite Z.land_0_l.
    - apply pte_write_table. exact (pte_read_table _ _ _ Hpte0). }
  intros se' pp' pte' Hrs' Hl' Hd. assert (se' = se) as -> by congruence.
  destruct (envs s !! se) as [sen|] eqn:Hsen.
  2: { unfold page_lookup, bind, deref in Hl. rewrite Hsen in Hl. discriminate. }
  rewrite (page_lookup_unfold _ _ _ _ Hsen) in Hl'.
  destruct (decide (se = de)) as [->|Hne].
  - assert (sen = den) as -> by congruence.
    rewrite (page_lookup_unfold _ _ _ _ Hden2). simpl.
    rewrite !pte_read_pte_write_ne; [congruence| |];
      destruct Hd as [?|[?|?]]; auto; congruence.
  - assert (Hsen2 : envs s2 !! se = Some sen).
    { unfold s2. rewrite lookup_update_env_ne, envs_decref_state by done.
      rewrite <- Hs1. by rewrite lookup_update_env_ne. }
    rewrite (page_lookup_unfold _ _ _ _ Hsen2). congruence.
Qed.

(** X25: [flush_block] on the address of a block.  For an address inside
    the block [blockno] that [diskaddr] places in the disk map, a block
    that is not in the cache or is not dirty is left alone, whatever the
    disk driver would do.  A block that is mapped and dirty is written to
    the disk, to the sectors of [blockno] from the page of the address,
    and mapped onto itself with the permissions of its entry that a system
    call may set: afterwards it is still mapped, on the same frame, and not
    dirty (the two assertions of [check_bc] after its first flush), and the
    frames are counted and free as before. *)
Theorem flush_block_cleans
    (super : option Z) (blockno off a0 : Z) (s : KState) (c : Env) :
  perm_bits_low -> PTE_P <> 0 ->
  Z.land PTE_SYSCALL (Z.lor PTE_U PTE_P) = Z.lor PTE_U PTE_P ->
  Z.land PTE_SYSCALL PTE_D = 0 -> Z.land PTE_P PTE_D = 0 ->
  Z.land PTE_D (Z.lnot (PGSIZE - 1)) = 0 ->
  0 < BLKSIZE -> 0 <= DISKMAP -> DISKMAP + DISKSIZE < 2 ^ 32 ->
  DISKMAP + DISKSIZE <= UTOP ->
  0 <= blockno -> (blockno + 1) * BLKSIZE <= DISKSIZE -> 0 <= off < BLKSIZE ->
  diskaddr super blockno = Some a0 ->
  envs s !! curenv s = Some c ->
  let addr := a0 + off in
  let a := ROUNDDOWN addr PGSIZE in
  a0 = DISKMAP + blockno * BLKSIZE
  /\ (match pte_read (env_pgdir c) a with
      | Some pte => Z.land pte PTE_P = 0 \/ Z.land pte PTE_D = 0
      | None => True
      end -> flush_block addr s = Some (tt, s))
  /\ forall pte,
       pte_read (env_pgdir c) a = Some pte ->
       Z.land pte (Z.lor PTE_U PTE_P) = Z.lor PTE_U PTE_P ->
       Z.land pte PTE_D <> 0 ->
       ide_write (wrap32 (blockno * BLKSECTS)) a BLKSECTS s = Some (0, s) ->
       0 < pp_ref s (pa2page (PTE_ADDR pte)) ->
       exists s',
         flush_block addr s = Some (tt, s')
         /\ va_is_mapped a s' = Some (true, s')
         /\ va_is_dirty a s' = Some (false, s')
         /\ page_lookup (curenv s) a s'
            = Some (Some (pa2page (PTE_ADDR pte),
                          Z.lor (page2pa (pa2page (PTE_ADDR pte)))
                                (Z.land pte PTE_SYSCALL)), s')
         /\ (forall f, pp_ref s' f = pp_ref s f)
         /\ page_free_list s' = page_free_list s
         /\ physmem s' = physmem s.
Proof.
  intros Hlow HP Hsys HsysD HPD HDlow Hblk H0 H32 Htop Hb Hfit Hoff Hda Hc addr a.
  assert (Hprod : 0 <= blockno * BLKSIZE) by (apply Z.mul_nonneg_nonneg; lia).
  assert (Hfit' : blockno * BLKSIZE + BLKSIZE <= DISKSIZE) by lia.
  assert (Ha0 : a0 = DISKMAP + blockno * BLKSIZE).
  { unfold diskaddr in Hda. destruct (_ || _); [discriminate|].
    injection Hda as <-.
    rewrite (wrap32_id (blockno * BLKSIZE)) by lia. by rewrite wrap32_id by lia. }
  assert (Hsize : wrap32 (DISKMAP + DISKSIZE) = DISKMAP + DISKSIZE)
    by (apply wrap32_id; lia).
  assert (Hbn : wrap32 (addr - DISKMAP) / BLKSIZE = blockno).
  { unfold addr. rewrite Ha0.
    replace (DISKMAP + blockno * BLKSIZE + off - DISKMAP) with (blockno * BLKSIZE + off)
      by lia.
    rewrite wrap32_id by lia.
    rewrite Z.add_comm, Z.div_add by lia. rewrite Z.div_small by lia. lia. }
  split; [exact Ha0|].
  destruct (flush_block_at addr s c Hlow HP Hsys HsysD HPD HDlow H0
              ltac:(rewrite Hsize; exact Htop)
              ltac:(rewrite Hsize; unfold addr; lia) Hc) as [Hclean Hdirty].
  fold a in Hclean, Hdirty. split; [exact Hclean|].
  intros pte Hpte Hup HD' Hide Href.
  apply (Hdirty pte Hpte Hup HD'); [|exact Href].
  by rewrite Hbn.
Qed.

(** X27: a page fault in kernel mode stops the kernel.  When the frame of
    a page fault comes from ring 0, [trap] panics, whatever the current
    environment is and whether or not it has an upcall. *)
Theorem page_fault_in_kernel_panics
    (tf : Trapframe) (cr2 eflags : Z) (s : KState) :
  Z.land eflags FL_IF = 0 ->
  Z.land (tf_cs tf) 3 = 0 ->
  tf_trapno tf = T_PGFLT ->
  trap tf cr2 false eflags s = None.
Proof.
  intros HIF Hcs Hno. unfold trap. rewrite HIF, Hcs. cbn [Z.eqb negb].
  unfold bindc at 1. unfold bind at 1. unfold ret at 1.
  unfold bindc at 1. unfold bind at 1.
  unfold trap_dispatch, tf_read. unfold bind at 1. unfold ret at 1.
  rewrite Hno, Z.eqb_refl. unfold bind at 1.
  unfold page_fault_handler_kstack. rewrite Hcs. reflexivity.
Qed.

End ProofsRest.

(** * The code on concrete states *)

#[local] Existing Instance jos_headers.

(** C1: the write check of [sys_ipc_try_send] tests [*pte | PTE_W], which is
    never zero, so it never fires.  Here the receiver is blocked with an
    address below UTOP, the sender's page at 0x2000 is mapped without
    [PTE_W], and [perm] is [PTE_U | PTE_W | PTE_P]: the call returns 0 (not
    [-E_INVAL]) and the receiver gets frame 5 mapped at 0x1000 with the
    write bit. *)
Theorem sys_ipc_try_send_write_check_never_fires :
  envid2env 0x1001 false Examples.ipc_state = Some ((0, 1), Examples.ipc_state)
  /\ envs Examples.ipc_state !! 1 = Some Examples.receiver
  /\ env_ipc_recving Examples.receiver = true
  /\ env_ipc_dstva Examples.receiver < UTOP
  /\ 0x2000 < UTOP
  /\ PGOFF 0x2000 = 0
  /\ page_lookup (curenv Examples.ipc_state) 0x2000 Examples.ipc_state
     = Some (Some (5, 0x5005), Examples.ipc_state)
  /\ Z.land 0x5005 PTE_W = 0
  /\ Z.land 7 PTE_W <> 0
  /\ exists s' en',
       sys_ipc_try_send 0x1001 42 0x2000 7 Examples.ipc_state = Some (0, s')
       /\ envs s' !! 1 = Some en'
       /\ pte_read (env_pgdir en') 0x1000 = Some 0x5007
       /\ Z.land 0x5007 PTE_W = PTE_W
       /\ pa2page (PTE_ADDR 0x5007) = 5
       /\ env_ipc_perm en' = 7.
Proof.
  repeat (split; [vm_compute; congruence|]).
  eexists _, _.
  split; [vm_compute; reflexivity|].
  split; [vm_compute; reflexivity|].
  repeat split; vm_compute; reflexivity.
Qed.

Ltac run := vm_compute; first [reflexivity | congruence | lia].

(** C3, as stated, fails: with a registered upcall but no exception stack
    mapped, the fault from user mode does not resume the environment; it is
    destroyed and no frame is written. *)
Lemma page_fault_without_exception_stack :
  envs Examples.fault_state_no_stack !! curenv Examples.fault_state_no_stack
    = Some Examples.faulting_no_stack
  /\ Z.land (tf_cs (env_tf Examples.faulting_no_stack)) 3 = 3
  /\ env_pgfault_upcall Examples.faulting_no_stack <> 0
  /\ user_mem_check 0 (UXSTACKTOP - sizeof_UTrapframe) sizeof_UTrapframe
       (Z.lor (Z.lor PTE_U PTE_W) PTE_P) Examples.fault_state_no_stack
     = Some (- E_FAULT, Examples.fault_state_no_stack)
  /\ (exists s', page_fault_handler 0xdeadbeef Examples.fault_state_no_stack
                 = Some (env_destroy 0, s')
                 /\ physmem s' = physmem Examples.fault_state_no_stack)
  /\ ~ exists s', page_fault_handler 0xdeadbeef Examples.fault_state_no_stack
                  = Some (env_run 0, s').
Proof.
  split; [run|]. split; [run|]. split; [run|]. split; [run|]. split.
  - eexists. split; vm_compute; reflexivity.
  - intros [s' H]. vm_compute in H. discriminate H.
Qed.

Lemma page_fault_upcall_frame_witness :
  (exists s',
     page_fault_handler 0xdeadbeef Examples.fault_state = Some (env_run 0, s')
     /\ (tf_esp <$> (env_tf <$> envs s' !! 0)) = Some (UXSTACKTOP - 1 - 4 - sizeof_UTrapframe)
     /\ (tf_eip <$> (env_tf <$> envs s' !! 0)) = Some 0x800100)
  /\ (exists s',
       page_fault_handler 0xdeadbeef Examples.fault_state_no_stack
       = Some (env_destroy 0, s')
       /\ (tf_esp <$> (env_tf <$> envs s' !! 0)) = Some (UXSTACKTOP - sizeof_UTrapframe)
       /\ physmem s' = physmem Examples.fault_state_no_stack)
  /\ (let c := mkEnv Examples.fault_tf 0x1000 0 ENV_RUNNING Examples.sender_pgdir
                 0x800100 false 0 0 0 0 in
      let s := mkKState {[ 0 := c ]} [] 0 {[ 2 := 1; 3 := 1; 5 := 1 ]} [7; 8] ∅ in
      exists s',
        page_fault_handler 0xdeadbeef s = Some (env_destroy 0, s')
        /\ (tf_esp <$> (env_tf <$> envs s' !! 0))
           = Some (UXSTACKTOP - 1 - 4 - sizeof_UTrapframe)
        /\ physmem s' = physmem s).
Proof.
  split; [|split].
  - destruct (page_fault_upcall_frame Examples.fault_state 0xdeadbeef Examples.faulting)
      as (_ & _ & _ & Hok & _).
    + run.
    + run.
    + run.
    + run.
    + run.
    + run.
    + run.
    + destruct Hok as (s1 & s' & Hrun & _ & _ & _ & Henvs & _).
      * run.
      * exists s'. split; [exact Hrun|]. rewrite Henvs. split; vm_compute; reflexivity.
  - destruct (page_fault_upcall_frame Examples.fault_state_no_stack 0xdeadbeef
                Examples.faulting_no_stack)
      as (_ & _ & _ & _ & Hfail).
    + run.
    + run.
    + run.
    + run.
    + run.
    + run.
    + run.
    + destruct Hfail as (s' & Hrun & Hs' & Hmem).
      * run.
      * exists s'. split; [exact Hrun|]. split; [|exact Hmem].
        rewrite Hs'. vm_compute. reflexivity.
  - intros c s.
    destruct (page_fault_upcall_frame s 0xdeadbeef c) as (_ & _ & _ & _ & Hfail).
    + run.
    + run.
    + run.
    + run.
    + run.
    + run.
    + run.
    + destruct Hfail as (s' & Hrun & Hs' & Hmem).
      * run.
      * exists s'. split; [exact Hrun|]. split; [|exact Hmem].
        rewrite Hs'. vm_compute. reflexivity.
Defined.

Lemma sys_ipc_try_send_success_witness :
  sys_ipc_try_send 0x1001 42 0x2000 5 Examples.ipc_state
    = Some (0, Examples.ipc_state_sent)
  /\ exists en',
       envs Examples.ipc_state_sent !! 1 = Some en'
       /\ env_ipc_recving en' = false
       /\ env_ipc_from en' = 0x1000
       /\ env_ipc_value en' = 42
       /\ env_ipc_perm en' = 5
       /\ env_status en' = ENV_RUNNABLE
       /\ reg_eax (tf_regs (env_tf en')) = 0
       /\ sys_ipc_try_send 0x1001 43 0x2000 5 (set_curenv 0 Examples.ipc_state_sent)
          = Some (- E_IPC_NOT_RECV, set_curenv 0 Examples.ipc_state_sent).
Proof.
  assert (Hsend : sys_ipc_try_send 0x1001 42 0x2000 5 Examples.ipc_state
                  = Some (0, Examples.ipc_state_sent)) by run.
  split; [exact Hsend|].
  destruct (sys_ipc_try_send_success Examples.ipc_state Examples.ipc_state_sent
              0x1001 42 0x2000 5)
    as (e & en & c & en' & Hr & He & Hc & He' & H1 & H2 & H3 & H4 & H5 & H6 & _ & Hsecond).
  - repeat split; run.
  - exact Hsend.
  - assert (e = 1) as -> by (vm_compute in Hr; congruence).
    assert (Some c = Some Examples.sender) as [= ->] by (rewrite <- Hc; run).
    assert (Some en = Some Examples.receiver) as [= ->] by (rewrite <- He; run).
    exists en'. split; [exact He'|]. split; [exact H1|]. split; [exact H2|].
    split; [exact H3|]. split; [exact H4|]. split; [exact H5|]. split; [exact H6|].
    apply Hsecond. run.
Defined.

Lemma sys_page_alloc_inval_iff_witness :
  sys_page_alloc 0 UTOP 7 Examples.ipc_state = Some (- E_INVAL, Examples.ipc_state)
  /\ ((exists s', sys_page_alloc 0 0x2001 7 Examples.ipc_state = Some (- E_INVAL, s'))
      <-> (UTOP <= 0x2001 \/ 0x2001 mod PGSIZE <> 0
           \/ Z.land 7 PTE_U <> PTE_U \/ Z.land 7 PTE_P <> PTE_P
           \/ Z.land 7 (Z.lnot PTE_SYSCALL) <> 0)).
Proof.
  split.
  - apply (sys_page_alloc_inval_iff Examples.ipc_state 0 0x2001 7 0); run.
  - apply (sys_page_alloc_inval_iff Examples.ipc_state 0 0x2001 7 0); run.
Defined.

Lemma sys_env_set_trapframe_success_witness :
  exists en',
    envs (Examples.after (sys_env_set_trapframe 0 0x2000 Examples.ipc_state)
            Examples.ipc_state) !! 0 = Some en'
    /\ tf_cs (env_tf en') = Z.lor GD_UT 3
    /\ Z.land (tf_eflags (env_tf en')) FL_IF = FL_IF
    /\ Z.land (tf_eflags (env_tf en')) FL_IOPL_MASK = 0.
Proof.
  destruct (sys_env_set_trapframe_success Examples.ipc_state
              (Examples.after (sys_env_set_trapframe 0 0x2000 Examples.ipc_state)
                 Examples.ipc_state) 0 0x2000)
    as (e & bs & en' & Hr & _ & _ & He' & _ & _ & _ & _ & Hcs & Hif & Hiopl & _).
  - run.
  - run.
  - run.
  - run.
  - assert (e = 0) as -> by (vm_compute in Hr; congruence).
    exists en'. split; [exact He'|]. split; [exact Hcs|]. split; [exact Hif|exact Hiopl].
Defined.

Lemma sys_page_map_write_guard_witness :
  sys_page_map 0 0x2000 0x1001 0x1000 7 Examples.ipc_state
  = Some (- E_INVAL, Examples.ipc_state).
Proof.
  apply (sys_page_map_write_guard Examples.ipc_state 0 0x2000 0x1001 0x1000 7
           0 1 5 0x5005); run.
Defined.

Lemma sys_exofork_success_witness :
  exists child,
    envs (Examples.after (sys_exofork Examples.ipc_state) Examples.ipc_state) !! 2
      = Some child
    /\ env_id child = 0x1002
    /\ env_status child = ENV_NOT_RUNNABLE
    /\ reg_eax (tf_regs (env_tf child)) = 0.
Proof.
  destruct (sys_exofork_success Examples.ipc_state
              (Examples.after (sys_exofork Examples.ipc_state) Examples.ipc_state)
              0x1002)
    as (e & rest & c & child & _ & Hfl & _ & He & Hid & _ & Hst & _ & Hax & _).
  - run.
  - run.
  - vm_compute. intros H. apply elem_of_cons in H as [H|H]; [discriminate H|].
    apply elem_of_cons in H as [H|H]; [discriminate H|]. inversion H.
  - run.
  - run.
  - assert (e = 2) as -> by (vm_compute in Hfl; congruence).
    exists child. split; [exact He|]. split; [exact Hid|]. split; [exact Hst|exact Hax].
Defined.

Lemma sys_page_unmap_idempotent_witness :
  exists s1,
    sys_page_unmap 0 0x2000 Examples.ipc_state = Some (0, s1)
    /\ sys_page_unmap 0 0x2000 s1 = Some (0, s1).
Proof.
  destruct (sys_page_unmap_idempotent Examples.ipc_state 0 0x2000 0 Examples.sender)
    as (s1 & H1 & H2 & _).
  - run.
  - run.
  - run.
  - run.
  - run.
  - exists s1. split; [exact H1|exact H2].
Defined.

Lemma sys_ipc_try_send_no_page_wanted_witness :
  sys_ipc_try_send 0x1001 42 0x2001 0xFFFF Examples.ipc_state_no_page
  = Some (0, update_env 1 (ipc_delivered 0x1000 42 0) Examples.ipc_state_no_page).
Proof.
  apply (sys_ipc_try_send_no_page_wanted Examples.ipc_state_no_page 0x1001 42 0x2001
           0xFFFF 1 Examples.receiver_no_page Examples.sender); run.
Defined.

Lemma sys_page_alloc_replaces_mapping_witness :
  exists en',
    envs (Examples.after (sys_page_alloc 0 0x2000 7 Examples.ipc_state)
            Examples.ipc_state) !! 0 = Some en'
    /\ pte_read (env_pgdir en') 0x2000 = Some 0x7007
    /\ pp_ref (Examples.after (sys_page_alloc 0 0x2000 7 Examples.ipc_state)
                 Examples.ipc_state) 5 = 0
    /\ pp_ref (Examples.after (sys_page_alloc 0 0x2000 7 Examples.ipc_state)
                 Examples.ipc_state) 7 = 1.
Proof.
  destruct (sys_page_alloc_replaces_mapping Examples.ipc_state
              (Examples.after (sys_page_alloc 0 0x2000 7 Examples.ipc_state)
                 Examples.ipc_state) 0 0x2000 7 0 5 0x5005)
    as (new & rest & en' & Hfl & He & Hpte & _ & _ & Hnew & Hold & _).
  - run.
  - run.
  - run.
  - run.
  - vm_compute. intros H. apply elem_of_cons in H as [H|H]; [discriminate H|].
    apply elem_of_cons in H as [H|H]; [discriminate H|]. inversion H.
  - run.
  - assert (new = 7) as -> by (vm_compute in Hfl; congruence).
    exists en'. split; [exact He|]. split; [exact Hpte|].
    split; [rewrite Hold|rewrite Hnew]; vm_compute; reflexivity.
Defined.


(** * The rest of the code on concrete inputs *)

#[local] Existing Instance jos_trap_headers.
#[local] Existing Instance idle_collaborators.
#[local] Existing Instance jos_fs_headers.
#[local] Existing Instance Examples2.decimal_strtol.
#[local] Existing Instance Examples2.idle_ide.

Ltac decided := apply (bool_decide_unpack _); vm_compute; exact I.

(** A send of a page for which the receiver lacks a page table, with no
    frame free: [-E_NO_MEM], and nothing has changed. *)
Lemma sys_ipc_try_send_failure_frame_witness :
  sys_ipc_try_send 0x1001 42 0x2000 5 Examples2.no_memory
    = Some (- E_NO_MEM, Examples.after
              (sys_ipc_try_send 0x1001 42 0x2000 5 Examples2.no_memory)
              Examples.ipc_state)
  /\ Examples.after (sys_ipc_try_send 0x1001 42 0x2000 5 Examples2.no_memory)
       Examples.ipc_state = Examples2.no_memory.
Proof.
  assert (H : sys_ipc_try_send 0x1001 42 0x2000 5 Examples2.no_memory
              = Some (- E_NO_MEM, Examples.after
                        (sys_ipc_try_send 0x1001 42 0x2000 5 Examples2.no_memory)
                        Examples.ipc_state)) by run.
  split; [exact H|].
  apply (sys_ipc_try_send_failure_frame Examples2.no_memory _ 0x1001 42 0x2000 5
           (- E_NO_MEM) H). run.
Defined.

Lemma sys_page_map_failure_frame_witness :
  sys_page_map 0 0x2000 0x1001 0x1000 5 Examples2.no_memory
    = Some (- E_NO_MEM, Examples.after
              (sys_page_map 0 0x2000 0x1001 0x1000 5 Examples2.no_memory)
              Examples.ipc_state)
  /\ Examples.after (sys_page_map 0 0x2000 0x1001 0x1000 5 Examples2.no_memory)
       Examples.ipc_state = Examples2.no_memory.
Proof.
  assert (H : sys_page_map 0 0x2000 0x1001 0x1000 5 Examples2.no_memory
              = Some (- E_NO_MEM, Examples.after
                        (sys_page_map 0 0x2000 0x1001 0x1000 5 Examples2.no_memory)
                        Examples.ipc_state)) by run.
  split; [exact H|].
  apply (sys_page_map_failure_frame Examples2.no_memory _ 0 0x2000 0x1001 0x1000 5
           (- E_NO_MEM) H). run.
Defined.

(** The sender maps its page at 0x2000 into its child at 0x1000. *)
Lemma sys_page_map_shares_frame_witness :
  exists s',
    sys_page_map 0 0x2000 0x1001 0x1000 5 Examples.ipc_state = Some (0, s')
    /\ page_lookup 1 0x1000 s' = Some (Some (5, 0x5005), s')
    /\ page_lookup 0 0x2000 s' = Some (Some (5, 0x5005), s').
Proof.
  set (s' := Examples.after (sys_page_map 0 0x2000 0x1001 0x1000 5 Examples.ipc_state)
               Examples.ipc_state).
  assert (H : sys_page_map 0 0x2000 0x1001 0x1000 5 Examples.ipc_state = Some (0, s'))
    by run.
  destruct (sys_page_map_shares_frame Examples.ipc_state s' 0 0x2000 0x1001 0x1000 5)
    as (se & de & pp & pte & Hse & Hde & Hl & Hl' & Hkeep & _).
  - repeat split; run.
  - split; run.
  - run.
  - exact H.
  - assert (se = 0) as -> by (vm_compute in Hse; congruence).
    assert (de = 1) as -> by (vm_compute in Hde; congruence).
    assert (pp = 5 /\ pte = 0x5005) as [-> ->].
    { vm_compute in Hl. split; congruence. }
    exists s'. split; [exact H|]. split; [exact Hl'|].
    apply Hkeep. left. discriminate.
Defined.

(** An allocation that needs a page table when one frame is free: the
    frame is taken, the page table cannot be had, the frame goes back. *)
Lemma sys_page_alloc_failure_rollback_witness :
  sys_page_alloc 0 0x400000 7 Examples2.one_frame
    = Some (- E_NO_MEM, Examples.after (sys_page_alloc 0 0x400000 7 Examples2.one_frame)
                          Examples.ipc_state)
  /\ page_free_list (Examples.after (sys_page_alloc 0 0x400000 7 Examples2.one_frame)
                       Examples.ipc_state) = [7]
  /\ pages (Examples.after (sys_page_alloc 0 0x400000 7 Examples2.one_frame)
              Examples.ipc_state) = pages Examples2.one_frame.
Proof.
  assert (H : sys_page_alloc 0 0x400000 7 Examples2.one_frame
    = Some (- E_NO_MEM, Examples.after (sys_page_alloc 0 0x400000 7 Examples2.one_frame)
                          Examples.ipc_state)) by run.
  split; [exact H|].
  destruct (sys_page_alloc_failure_rollback Examples2.one_frame _ 0 0x400000 7
              (- E_NO_MEM) H) as (_ & _ & _ & Hp & Hfl & _).
  - run.
  - split; [exact Hfl|exact Hp].
Defined.

(** The parent makes its child runnable. *)
Lemma sys_env_set_status_only_runnable_witness :
  Examples.after (sys_env_set_status 0x1001 2 Examples.ipc_state) Examples2.no_memory
  = Examples.ipc_state
  \/ exists e en st,
       envs Examples.ipc_state !! e = Some en
       /\ 0 = 0
       /\ (st = ENV_RUNNABLE \/ st = ENV_NOT_RUNNABLE)
       /\ 2 = ENV_STATUS st
       /\ Examples.after (sys_env_set_status 0x1001 2 Examples.ipc_state)
            Examples2.no_memory
          = set_envs (<[e := set_env_status st en]> (envs Examples.ipc_state))
              Examples.ipc_state.
Proof.
  apply (sys_env_set_status_only_runnable Examples.ipc_state _ 0x1001 2 0). run.
Defined.

(** Fork, then start the child in slot 2. *)
Lemma exofork_child_can_be_started_witness :
  exists s2 en,
    sys_env_set_status 0x1002 2
      (Examples.after (sys_exofork Examples.ipc_state) Examples2.no_memory)
    = Some (0, s2)
    /\ envs s2 !! 2 = Some en
    /\ env_status en = ENV_RUNNABLE
    /\ reg_eax (tf_regs (env_tf en)) = 0.
Proof.
  destruct (exofork_child_can_be_started Examples.ipc_state
              (Examples.after (sys_exofork Examples.ipc_state) Examples2.no_memory)
              0x1002)
    as (s2 & c & en & Hst & Hc & Hen & _ & _ & Hrun & Htf & _).
  - run.
  - run.
  - decided.
  - run.
  - run.
  - run.
  - exists s2, en. split; [exact Hst|]. split; [exact Hen|]. split; [exact Hrun|].
    rewrite Htf. reflexivity.
Defined.

(** The number of [sys_env_set_trapframe] has no case. *)
Lemma syscall_without_case_witness :
  syscall SYS_env_set_trapframe 0 0x2000 0 0 0 Examples.ipc_state
  = Some (returns (- E_NO_SYS), Examples.ipc_state).
Proof.
  apply (syscall_without_case SYS_env_set_trapframe 0 0x2000 0 0 0 Examples.ipc_state).
  decided.
Defined.

(** A string in the page at 0x2000, and one that leaves it. *)
Lemma sys_cputs_checks_the_string_witness :
  sys_cputs 0x2ff0 16 Examples.ipc_state = Some (returns tt, Examples.ipc_state)
  /\ sys_cputs 0x2ff0 17 Examples.ipc_state
     = Some (no_return (env_destroy 0), Examples.ipc_state)
  /\ (returns tt = returns tt <->
      0 <= 0x2ff0 /\ 0x2ff0 + 16 <= 2 ^ 32 /\
      forall i, 0 <= i < 16 ->
        pte_allows (Z.lor PTE_U PTE_P) (env_pgdir Examples.sender) (0x2ff0 + i) = true).
Proof.
  assert (H : sys_cputs 0x2ff0 16 Examples.ipc_state
              = Some (returns tt, Examples.ipc_state)) by run.
  split; [exact H|]. split; [run|].
  destruct (sys_cputs_checks_the_string 0x2ff0 16 Examples.ipc_state Examples.ipc_state
              (returns tt)) as (_ & _ & Hiff).
  - run.
  - exact H.
  - apply Hiff. run.
Defined.


Ltac is_user_trap := unfold user_trap; repeat split; run.

(** [sys_exofork] by trap: the child in slot 2 gets the identifier 0x1002. *)
Lemma trap_exofork_witness :
  exists s' ch,
    trap (Examples2.syscall_tf SYS_exofork 0) 0 false Examples2.kernel_eflags
      Examples.ipc_state = Some (no_return (env_run 0), s')
    /\ (reg_eax <$> (tf_regs <$> (env_tf <$> envs s' !! 0))) = Some 0x1002
    /\ envs s' !! 2 = Some ch
    /\ env_status ch = ENV_NOT_RUNNABLE
    /\ reg_eax (tf_regs (env_tf ch)) = 0
    /\ tf_eip (env_tf ch) = 0x800020.
Proof.
  destruct (trap_exofork (Examples2.syscall_tf SYS_exofork 0) 0 Examples2.kernel_eflags
              2 7 [3] [8] Examples.sender Examples.free_env Examples.ipc_state)
    as (s' & ch & Htrap & _ & Hpar & Hch & _ & _ & Hst & Htf).
  - decided.
  - decided.
  - is_user_trap.
  - run.
  - run.
  - run.
  - run.
  - run.
  - run.
  - run.
  - exists s', ch. split; [exact Htrap|].
    split; [rewrite (Hpar : envs s' !! 0 = _); run|].
    split; [exact Hch|]. split; [exact Hst|]. rewrite Htf. split; run.
Defined.

(** [sys_ipc_recv] by trap, without a page wanted. *)
Lemma trap_ipc_recv_blocks_witness :
  exists s' en,
    trap (Examples2.syscall_tf SYS_ipc_recv UTOP) 0 false Examples2.kernel_eflags
      Examples.ipc_state = Some (sched_yield, s')
    /\ envs s' !! 0 = Some en
    /\ env_status en = ENV_NOT_RUNNABLE
    /\ env_ipc_recving en = true
    /\ reg_eax (tf_regs (env_tf en)) = SYS_ipc_recv.
Proof.
  destruct (trap_ipc_recv_blocks (Examples2.syscall_tf SYS_ipc_recv UTOP) 0
              Examples2.kernel_eflags Examples.sender Examples.ipc_state)
    as (s' & Htrap & _ & Hen).
  - decided.
  - decided.
  - is_user_trap.
  - run.
  - run.
  - left. run.
  - exists s'. eexists. split; [exact Htrap|]. split; [exact Hen|].
    repeat split.
Defined.

(** The receiver blocks, the sender runs and sends 42. *)
Lemma ipc_recv_then_send_witness :
  exists s3 en,
    sys_ipc_try_send 0x1001 42 UTOP 0
      (set_curenv 0 (Examples.after (sys_ipc_recv UTOP Examples2.receiving)
                       Examples.ipc_state))
    = Some (0, s3)
    /\ envs s3 !! 1 = Some en
    /\ env_status en = ENV_RUNNABLE
    /\ env_ipc_value en = 42
    /\ env_ipc_from en = 0x1000
    /\ reg_eax (tf_regs (env_tf en)) = 0
    /\ sys_ipc_try_send 0x1001 43 UTOP 0 s3 = Some (- E_IPC_NOT_RECV, s3).
Proof.
  destruct (ipc_recv_then_send Examples2.receiving
              (Examples.after (sys_ipc_recv UTOP Examples2.receiving) Examples.ipc_state)
              (set_curenv 0 (Examples.after (sys_ipc_recv UTOP Examples2.receiving)
                               Examples.ipc_state))
              UTOP 42 UTOP 0
              (mkEnv Examples.user_tf 0x1001 0x1000 ENV_RUNNING (mkAddrSpace 6 ∅)
                 0 false 0 0 0 0)
              (set_env_status ENV_RUNNABLE Examples.sender))
    as (s3 & Hsend & Hen & Hsecond).
  - run.
  - run.
  - run.
  - run.
  - run.
  - run.
  - left. run.
  - exists s3. eexists. split; [exact Hsend|]. split; [exact Hen|].
    split; [reflexivity|]. split; [reflexivity|]. split; [reflexivity|].
    split; [reflexivity|]. apply Hsecond.
Defined.

(** The environment of [Examples.fault_state] registers another upcall
    and faults on its exception stack. *)
Lemma upcall_registered_then_fault_witness :
  exists s1 s' en,
    sys_env_set_pgfault_upcall 0 0x800200 Examples.fault_state = Some (0, s1)
    /\ trap Examples.fault_tf 0xdeadbeef false Examples2.kernel_eflags s1
       = Some (no_return (env_run 0), s')
    /\ envs s' !! 0 = Some en
    /\ tf_eip (env_tf en) = 0x800200
    /\ tf_esp (env_tf en) = UXSTACKTOP - 1 - 4 - sizeof_UTrapframe.
Proof.
  destruct (upcall_registered_then_fault Examples.fault_tf 0xdeadbeef
              Examples2.kernel_eflags 0x800200 Examples.faulting Examples.fault_state)
    as (s1 & s' & Hset & Htrap & _ & Hen).
  - run.
  - run.
  - run.
  - repeat split; run.
  - run.
  - run.
  - run.
  - run.
  - exists s1, s'. eexists. split; [exact Hset|]. split; [exact Htrap|].
    split; [exact Hen|]. split; run.
Defined.

(** The sender has no upcall. *)
Lemma fault_without_upcall_destroys_witness :
  trap (Examples2.user_trap_tf T_PGFLT) 0xdeadbeef false Examples2.kernel_eflags
    Examples.ipc_state
  = Some (no_return (env_destroy 0),
          frame_saved (Examples2.user_trap_tf T_PGFLT) Examples.ipc_state).
Proof.
  apply (fault_without_upcall_destroys (Examples2.user_trap_tf T_PGFLT) 0xdeadbeef
           Examples2.kernel_eflags Examples.sender Examples.ipc_state).
  - is_user_trap.
  - run.
  - run.
Defined.

(** A general protection fault, vector 13, from user mode and in the
    kernel. *)
Lemma trap_unexpected_witness :
  trap (Examples2.user_trap_tf 13) 0 false Examples2.kernel_eflags Examples.ipc_state
  = Some (no_return (env_destroy 0),
          frame_saved (Examples2.user_trap_tf 13) Examples.ipc_state)
  /\ trap (Examples2.kernel_trap_tf 13) 0 false Examples2.kernel_eflags
       Examples.ipc_state = None.
Proof.
  split.
  - apply (proj1 (trap_unexpected (Examples2.user_trap_tf 13) 0
                    Examples2.kernel_eflags Examples.ipc_state
                    ltac:(decided) ltac:(run) ltac:(run)) Examples.sender).
    is_user_trap.
  - apply (proj2 (trap_unexpected (Examples2.kernel_trap_tf 13) 0
                    Examples2.kernel_eflags Examples.ipc_state
                    ltac:(decided) ltac:(run) ltac:(run))).
    run.
Defined.

Lemma trap_timer_preempts_witness :
  trap (Examples2.user_trap_tf (IRQ_OFFSET + IRQ_TIMER)) 0 false
    Examples2.kernel_eflags Examples.ipc_state
  = Some (sched_yield,
          frame_saved (Examples2.user_trap_tf (IRQ_OFFSET + IRQ_TIMER))
            Examples.ipc_state).
Proof.
  apply (trap_timer_preempts (Examples2.user_trap_tf (IRQ_OFFSET + IRQ_TIMER)) 0
           Examples2.kernel_eflags Examples.sender Examples.ipc_state).
  - decided.
  - is_user_trap.
  - run.
Defined.

Lemma page_fault_in_kernel_panics_witness :
  trap (Examples2.kernel_trap_tf T_PGFLT) 0xf0000000 false Examples2.kernel_eflags
    Examples.ipc_state = None.
Proof.
  apply (page_fault_in_kernel_panics (Examples2.kernel_trap_tf T_PGFLT) 0xf0000000
           Examples2.kernel_eflags Examples.ipc_state); run.
Defined.


(** The gate of the page fault, vector 14. *)
Lemma idt_gate_records_its_vector_witness :
  idt (trap_init 0 0xf0123000 (boot_tables ∅)) !! 14
    = Some (mkGatedesc 0 GD_KT (th 14) 0)
  /\ code_of (th 14) = Some (TRAPHANDLER 14).
Proof.
  assert (H : idt (trap_init 0 0xf0123000 (boot_tables ∅)) !! 14
              = Some (mkGatedesc 0 GD_KT (th 14) 0)) by run.
  split; [exact H|].
  destruct (idt_gate_records_its_vector 0 0xf0123000 14 (boot_tables ∅)
              (mkGatedesc 0 GD_KT (th 14) 0))
    as (_ & _ & code & Hcode & [->| ->]).
  - run.
  - exact H.
  - exact Hcode.
  - vm_compute in Hcode. discriminate Hcode.
Defined.

(** The gate of the system call may be used from ring 3, the gate of the
    page fault may not. *)
Lemma idt_user_gates_witness :
  (gd_dpl <$> idt (trap_init 0 0xf0123000 (boot_tables ∅)) !! T_SYSCALL) = Some 3
  /\ (gd_dpl (mkGatedesc 0 GD_KT (th 14) 0) = 3 /\ (14 = 3 \/ 14 = T_SYSCALL)
      \/ gd_dpl (mkGatedesc 0 GD_KT (th 14) 0) = 0 /\ 14 <> 3 /\ 14 <> T_SYSCALL).
Proof.
  split; [run|].
  apply (idt_user_gates 0 0xf0123000 14 (boot_tables ∅)
           (mkGatedesc 0 GD_KT (th 14) 0)); [run|cbn; lia|run].
Defined.

(** The handler of the page fault on the frame of a fault from user mode
    with the error code 6. *)
Lemma entry_builds_trapframe_witness :
  exists tf c',
    enter (th 14) Examples2.cpu_at_entry = Some (tf, c')
    /\ tf = 0xefffffe8 - 44
    /\ tf_trapno (read_Trapframe c' tf) = 14
    /\ tf_err (read_Trapframe c' tf) = 6
    /\ reg_eax (tf_regs (read_Trapframe c' tf)) = 8
    /\ tf_eip (read_Trapframe c' tf) = 0x800020
    /\ tf_esp (read_Trapframe c' tf) = 0xeebfdf00
    /\ cpu_ds c' = GD_KD.
Proof.
  destruct (entry_builds_trapframe (th 14) 14 (Some 6) 0x800020 0x1b 0x202
              0xeebfdf00 0x23 [] Examples2.cpu_at_entry)
    as (tf & c' & Hen & Htf & Hno & Herr & Hregs & _ & _ & Heip & _ & _ & Hesp & _
        & Hds & _).
  - left. split; [run|]. exists 6. reflexivity.
  - run.
  - repeat split; run.
  - split; run.
  - split; run.
  - split; run.
  - split; run.
  - split; run.
  - split; run.
  - intros e [= <-]. split; run.
  - split; run.
  - exists tf, c'. split; [exact Hen|]. split; [exact Htf|]. split; [exact Hno|].
    split; [exact Herr|]. split; [rewrite Hregs; reflexivity|].
    split; [exact Heip|]. split; [exact Hesp|]. rewrite Hds. run.
Defined.

(** The processors 0 and 1. *)
Lemma percpu_task_states_apart_witness :
  exists seli selj topi topj,
    tr (trap_init_percpu 1 0xf0124000 (trap_init_percpu 0 0xf0123000 (boot_tables ∅)))
      !! 0 = Some seli
    /\ tr (trap_init_percpu 1 0xf0124000 (trap_init_percpu 0 0xf0123000 (boot_tables ∅)))
         !! 1 = Some selj
    /\ seli = GD_TSS0 /\ selj = GD_TSS0 + 8
    /\ cpu_ts (trap_init_percpu 1 0xf0124000
                 (trap_init_percpu 0 0xf0123000 (boot_tables ∅))) !! 0
       = Some (topi, GD_KD)
    /\ cpu_ts (trap_init_percpu 1 0xf0124000
                 (trap_init_percpu 0 0xf0123000 (boot_tables ∅))) !! 1
       = Some (topj, GD_KD)
    /\ topj <= topi - KSTKSIZE.
Proof.
  assert (H1 : 0 <= 0 < 1) by lia.
  assert (H2 : 0 <= GD_TSS0) by (cbn; lia).
  assert (H3 : GD_TSS0 + 8 * 1 < 2 ^ 16) by (cbn; lia).
  assert (H4 : 0 < KSTKSIZE) by (cbn; lia).
  assert (H5 : 0 <= KSTKGAP) by (cbn; lia).
  assert (H6 : (1 + 1) * (KSTKSIZE + KSTKGAP) <= KSTACKTOP) by (cbn; lia).
  assert (H7 : KSTACKTOP < 2 ^ 32) by (cbn; lia).
  destruct (percpu_task_states_apart 0 1 0xf0123000 0xf0124000 (boot_tables ∅)
              H1 H2 H3 H4 H5 H6 H7
              (trap_init_percpu 1 0xf0124000
                 (trap_init_percpu 0 0xf0123000 (boot_tables ∅)))
              (or_introl eq_refl))
    as (seli & selj & topi & topj & Hi & Hj & _ & _ & _ & Hti & Htj & _ & Hap & _).
  exists seli, selj, topi, topj.
  split; [exact Hi|]. split; [exact Hj|].
  split; [vm_compute in Hi; vm_compute; congruence|].
  split; [vm_compute in Hj; vm_compute; congruence|].
  split; [exact Hti|]. split; [exact Htj|exact Hap].
Defined.



Ltac are_words :=
  repeat (apply List.Forall_cons;
          [split; [discriminate|vm_compute; repeat split; discriminate]|]);
  apply List.Forall_nil.

(** A line for [showmappings], and a line of sixteen words. *)
Lemma runcmd_words_witness :
  runcmd "showmappings 4096 8192"
    = Some (ran_calls mon_showmappings_f 3 ["showmappings"; "4096"; "8192"]%string)
  /\ runcmd "help a b c d e f g h i j k l m n o" = Some (ran_returns 0).
Proof.
  assert (H3 : Forall is_word ["showmappings"; "4096"; "8192"]%string) by are_words.
  assert (H16 : Forall is_word
            ["help"; "a"; "b"; "c"; "d"; "e"; "f"; "g"; "h"; "i"; "j"; "k"; "l"; "m";
             "n"; "o"]%string) by are_words.
  split.
  - assert (Hlen : (length ["4096"; "8192"]%string < 15)%nat) by (simpl; lia).
    assert (Hc : mkCommand "showmappings"
                   "Display physical page mappings and permissions for a range of virtual addresses"
                   mon_showmappings_f ∈ commands) by (unfold commands; repeat constructor).
    exact (proj1 (proj2 (runcmd_words "showmappings" ["4096"; "8192"]%string H3))
             Hlen _ Hc eq_refl).
  - assert (Hlen : (15 <= length ["a"; "b"; "c"; "d"; "e"; "f"; "g"; "h"; "i"; "j";
                                  "k"; "l"; "m"; "n"; "o"]%string)%nat) by (simpl; lia).
    exact (proj1 (runcmd_words "help"
                    ["a"; "b"; "c"; "d"; "e"; "f"; "g"; "h"; "i"; "j"; "k"; "l"; "m";
                     "n"; "o"]%string H16) Hlen).
Defined.

(** The kernel address space of the examples: the page at 8192 is mapped
    on frame 5. *)
Lemma setperm_present_is_one_way_witness :
  exists pd1,
    mon_setperm 4 ["setperm"; "8192"; "P"; "0"]%string Examples.sender_pgdir
      = Some (0, pd1)
    /\ pte_read pd1 8192 = Some 0x5004
    /\ mon_setperm 4 ["setperm"; "8192"; "P"; "1"]%string pd1 = Some (0, pd1).
Proof.
  destruct (setperm_present_is_one_way "setperm" "8192" 8192 0x5005
              Examples.sender_pgdir) as (pd1 & H1 & H2 & H3).
  - run.
  - run.
  - run.
  - run.
  - run.
  - run.
  - exists pd1. split; [exact H1|]. split; [exact H2|exact H3].
Defined.

Lemma setperm_touches_one_bit_witness :
  exists pd',
    mon_setperm 4 ["setperm"; "8192"; "W"; "1"]%string Examples.sender_pgdir
      = Some (0, pd')
    /\ pte_read pd' 8192 = Some 0x5007
    /\ (pd' = Examples.sender_pgdir
        \/ exists va pte bit,
             pte_read Examples.sender_pgdir va = Some pte
             /\ Z.land pte PTE_P <> 0
             /\ bit ∈ [PTE_P; PTE_W; PTE_U]
             /\ (pte_read pd' va = Some (Z.lor pte bit)
                 \/ pte_read pd' va = Some (Z.land pte (wrap32 (Z.lnot bit))))
             /\ forall va', PDX va' <> PDX va \/ PTX va' <> PTX va ->
                  pte_read pd' va' = pte_read Examples.sender_pgdir va').
Proof.
  eexists. split; [vm_compute; reflexivity|]. split; [run|].
  apply (setperm_touches_one_bit 4 0 ["setperm"; "8192"; "W"; "1"]%string
           Examples.sender_pgdir). run.
Defined.

(** Three pages, and a range that ends in the last page. *)
Lemma showmappings_range_witness :
  (exists fuel,
     mon_showmappings fuel 3 ["showmappings"; "4096"; "12288"]%string
       Examples.sender_pgdir
     = Some (0, [(4096, None); (8192, Some 0x5005); (12288, None)]))
  /\ forall fuel,
       mon_showmappings fuel 3 ["showmappings"; "4096"; "4294967295"]%string
         Examples.sender_pgdir = None.
Proof.
  assert (Hsh : 0 <= PGSHIFT <= 32) by (cbn; lia).
  assert (E1 : at_end (strtol "4096" 0).2 = true) by run.
  assert (E2 : at_end (strtol "12288" 0).2 = true) by run.
  assert (E3 : at_end (strtol "4294967295" 0).2 = true) by run.
  split.
  - apply (proj1 (showmappings_range "showmappings" "4096" "12288"
                    Examples.sender_pgdir Hsh E1 E2)).
    run.
  - apply (proj2 (showmappings_range "showmappings" "4096" "4294967295"
                    Examples.sender_pgdir Hsh E1 E3)).
    run.
Defined.

(** The sender maps its page at 0x2000 at 0x3000 as well, and unmaps it
    there. *)
Lemma sys_page_map_unmap_round_trip_witness :
  exists s2,
    sys_page_unmap 0 0x3000
      (Examples.after (sys_page_map 0 0x2000 0 0x3000 5 Examples.ipc_state)
         Examples2.no_memory) = Some (0, s2)
    /\ pp_ref s2 5 = 1
    /\ page_free_list s2 = [7; 8]
    /\ page_lookup 0 0x3000 s2 = Some (None, s2)
    /\ page_lookup 0 0x2000 s2 = Some (Some (5, 0x5005), s2).
Proof.
  destruct (sys_page_map_unmap_round_trip Examples.ipc_state
              (Examples.after (sys_page_map 0 0x2000 0 0x3000 5 Examples.ipc_state)
                 Examples2.no_memory)
              0 0x2000 0 0x3000 5 0 0 Examples.sender)
    as (s2 & Hun & Hrefs & Hfl & _ & Hgone & Hkept).
  - repeat split; run.
  - split; run.
  - run.
  - run.
  - run.
  - run.
  - run.
  - run.
  - intros se pp pte Hse Hl.
    assert (se = 0) as -> by (vm_compute in Hse; congruence).
    assert (pp = 5) as -> by (vm_compute in Hl; congruence). run.
  - exists s2. split; [exact Hun|]. split; [rewrite Hrefs; run|].
    split; [rewrite Hfl; run|]. split; [exact Hgone|].
    apply (Hkept 0 5 0x5005); [run|run|].
    right. right. run.
Defined.

(** Block 1, flushed through an address inside the block, as in
    [check_bc]. *)
Lemma flush_block_cleans_witness :
  diskaddr (Some 1024) 1 = Some (DISKMAP + BLKSIZE)
  /\ exists s',
       flush_block (DISKMAP + BLKSIZE + 20) Examples2.fs_state = Some (tt, s')
       /\ va_is_mapped (DISKMAP + BLKSIZE) s' = Some (true, s')
       /\ va_is_dirty (DISKMAP + BLKSIZE) s' = Some (false, s')
       /\ pp_ref s' 9 = 1.
Proof.
  split; [run|].
  destruct (flush_block_cleans (Some 1024) 1 20 (DISKMAP + BLKSIZE)
              Examples2.fs_state Examples2.fs_env)
    as (_ & _ & Hdirty).
  - split; run.
  - run.
  - run.
  - run.
  - run.
  - run.
  - cbn; lia.
  - cbn; lia.
  - cbn; lia.
  - cbn; lia.
  - lia.
  - cbn; lia.
  - cbn; lia.
  - run.
  - run.
  - destruct (Hdirty 0x9047) as (s' & Hfl & Hm & Hd & _ & Hrefs & _).
    + run.
    + run.
    + run.
    + run.
    + run.
    + exists s'. split; [exact Hfl|]. split; [exact Hm|]. split; [exact Hd|].
      rewrite Hrefs. run.
Defined.
